(** * pusher-ws-go: the session core of [client.go]

    A shallow embedding of the Pusher websocket client ([client.go]) and
    the properties of its handshake, reconnection back-off, non-blocking
    channel sends, channel registry and teardown.

    Conventions of the embedding:
    - [time.Duration] is a signed 64-bit count of nanoseconds, modelled
      as [Z] with the wrap-around of Go's integer arithmetic written out;
    - Go channels are modelled by their buffer and the number of parked
      receivers; a [select] with a [default] arm is a total function, a
      plain send or receive may park the caller for ever;
    - every method of [*Client] is a computation over a [World]: the
      client value, the websocket connections it has dialled, the
      channel objects it points to, the goroutines it has started and
      the script of what the network will answer;
    - [sync.RWMutex] is not modelled: each method body runs as one
      uninterrupted step. *)

From Stdlib Require Import ZArith String Ascii List Lia Bool.
From Stdlib Require Floats.SpecFloat.
From stdpp Require Import base option gmap strings list pretty.

Set Warnings "-register-all".

Local Open Scope Z_scope.
Local Open Scope string_scope.

(* ===================================================================== *)
(** ** [time]: durations and timers *)
(* ===================================================================== *)

Module Time.

(** [time.Duration] is [int64]; this is the value an [int64] holds after
    an arithmetic result [z] has been truncated to 64 bits. *)
Definition wrap64 (z : Z) : Z := (z + 2 ^ 63) mod 2 ^ 64 - 2 ^ 63.

Definition minInt64 : Z := - 2 ^ 63.
Definition maxInt64 : Z := 2 ^ 63 - 1.

(** [a * b] on [time.Duration]. *)
Definition mul (a b : Z) : Z := wrap64 (a * b).

Definition Nanosecond : Z := 1.
Definition Second : Z := 1000000000.

(** [*time.Timer]: the duration it was last armed with and whether it is
    still counting down. *)
Record Timer := { timer_d : Z; timer_active : bool }.

Definition NewTimer (d : Z) : Timer := {| timer_d := d; timer_active := true |}.

(** [t.Stop()] reports whether the call stopped the timer. *)
Definition Stop (t : Timer) : Timer * bool :=
  ({| timer_d := timer_d t; timer_active := false |}, timer_active t).

End Time.

(* ===================================================================== *)
(** ** [encoding/json] *)
(* ===================================================================== *)

Module JSON.

Local Open Scope char_scope.

(** A JSON document as the parser reads it: numbers keep their literal,
    the members of an object their order and their duplicates.  The
    [interface{}] values the client hands to [json.Marshal] are written
    as the documents they denote. *)
Inductive value :=
| JNull
| JBool (b : bool)
| JNumber (literal : string)
| JString (s : string)
| JArray (items : list value)
| JObject (fields : list (string * value)).

(** The error kinds of [encoding/json] that the client can meet. *)
Inductive json_error :=
| SyntaxError
| UnmarshalTypeError (found : string) (wanted : string)
| UnsupportedTypeError (type : string)
| MarshalerError (type : string).

(** The double quote. *)
Definition dquote : ascii := "034".

(** JSON text written with apostrophes where it has double quotes. *)
Fixpoint text (s : string) : string :=
  match s with
  | EmptyString => EmptyString
  | String a r => String (if Ascii.eqb a "'" then dquote else a) (text r)
  end.

Definition is_ws (a : ascii) : bool :=
  let n := nat_of_ascii a in
  Nat.eqb n 32 || Nat.eqb n 9 || Nat.eqb n 10 || Nat.eqb n 13.

Definition is_digit (a : ascii) : bool :=
  let n := nat_of_ascii a in Nat.leb 48 n && Nat.leb n 57.

Fixpoint skip_ws (s : string) : string :=
  match s with
  | String a r => if is_ws a then skip_ws r else s
  | EmptyString => s
  end.

(** Longest prefix of decimal digits, and what follows it. *)
Fixpoint scan_digits (s : string) : string * string :=
  match s with
  | String a r =>
      if is_digit a then let '(d, r') := scan_digits r in (String a d, r')
      else (EmptyString, s)
  | EmptyString => (EmptyString, s)
  end.

Definition nonempty (s : string) : bool :=
  match s with EmptyString => false | _ => true end.

(** A number literal: an optional minus sign; an integer part that is
    either a single 0 or starts with a non-zero digit; an optional
    fraction (a dot and one or more digits); an optional exponent (e or E,
    an optional sign, one or more digits). *)
Definition scan_number (s : string) : option (string * string) :=
  let '(sign, s1) :=
    match s with
    | String a r => if Ascii.eqb a "-" then ("-"%string, r) else (EmptyString, s)
    | EmptyString => (EmptyString, s)
    end in
  let '(int, s2) :=
    match s1 with
    | String a r => if Ascii.eqb a "0" then ("0"%string, r) else scan_digits s1
    | EmptyString => (EmptyString, s1)
    end in
  if negb (nonempty int) then None else
  let frac :=
    match s2 with
    | String a r =>
        if Ascii.eqb a "." then
          let '(d, r') := scan_digits r in
          if nonempty d then Some (String "." d, r') else None
        else Some (EmptyString, s2)
    | EmptyString => Some (EmptyString, s2)
    end in
  match frac with
  | None => None
  | Some (fr, s3) =>
      let exp :=
        match s3 with
        | String e r =>
            if Ascii.eqb e "e" || Ascii.eqb e "E" then
              let '(sg, r1) :=
                match r with
                | String c r' =>
                    if Ascii.eqb c "+" || Ascii.eqb c "-"
                    then (String c EmptyString, r') else (EmptyString, r)
                | _ => (EmptyString, r)
                end in
              let '(d, r2) := scan_digits r1 in
              if nonempty d then Some (String e (sg ++ d), r2) else None
            else Some (EmptyString, s3)
        | _ => Some (EmptyString, s3)
        end in
      match exp with
      | None => None
      | Some (ex, s4) => Some ((sign ++ int ++ fr ++ ex)%string, s4)
      end
  end.

Definition hex_val (a : ascii) : option N :=
  let n := N_of_ascii a in
  if (48 <=? n)%N && (n <=? 57)%N then Some (n - 48)%N
  else if (97 <=? n)%N && (n <=? 102)%N then Some (n - 87)%N
  else if (65 <=? n)%N && (n <=? 70)%N then Some (n - 55)%N
  else None.

Definition hex4 (a b c d : ascii) : option N :=
  match hex_val a, hex_val b, hex_val c, hex_val d with
  | Some x, Some y, Some z, Some w => Some (x * 4096 + y * 256 + z * 16 + w)%N
  | _, _, _, _ => None
  end.

Definition byte (n : N) : string := String (ascii_of_N n) EmptyString.

(** UTF-8 encoding of a code point. *)
Definition utf8 (cp : N) : string :=
  (if cp <? 128 then byte cp
   else if cp <? 2048 then byte (192 + cp / 64) ++ byte (128 + cp mod 64)
   else if cp <? 65536 then
     byte (224 + cp / 4096) ++ byte (128 + (cp / 64) mod 64) ++ byte (128 + cp mod 64)
   else
     byte (240 + cp / 262144) ++ byte (128 + (cp / 4096) mod 64)
       ++ byte (128 + (cp / 64) mod 64) ++ byte (128 + cp mod 64))%N%string.

Definition is_high_surrogate (u : N) : bool := (55296 <=? u)%N && (u <? 56320)%N.
Definition is_low_surrogate (u : N) : bool := (56320 <=? u)%N && (u <? 57344)%N.
Definition replacement_char : N := 65533%N.

(** A second [\uXXXX] at the head of [s], if any. *)
Definition peek_u (s : string) : option N :=
  match s with
  | String b (String u (String h1 (String h2 (String h3 (String h4 _))))) =>
      if Ascii.eqb b "\" && Ascii.eqb u "u" then hex4 h1 h2 h3 h4 else None
  | _ => None
  end.

Definition byte_in (lo hi : N) (a : ascii) : bool :=
  let n := N_of_ascii a in (lo <=? n)%N && (n <=? hi)%N.

(** [utf8.DecodeRune] at a byte [a] of 0x80 or more that is followed by
    [r]: the length of the encoding that starts at [a], or 0 when the
    bytes there are not a valid encoding (a stray continuation byte, an
    overlong form, a surrogate, a code point above U+10FFFF, or a
    sequence cut short). *)
Definition rune_width (a : ascii) (r : string) : nat :=
  let n := N_of_ascii a in
  if byte_in 194 223 a then
    match r with
    | String b _ => if byte_in 128 191 b then 2%nat else 0%nat
    | EmptyString => 0%nat
    end
  else if byte_in 224 239 a then
    match r with
    | String b (String c _) =>
        if byte_in (if (n =? 224)%N then 160 else 128) (if (n =? 237)%N then 159 else 191) b
           && byte_in 128 191 c
        then 3%nat else 0%nat
    | _ => 0%nat
    end
  else if byte_in 240 244 a then
    match r with
    | String b (String c (String d _)) =>
        if byte_in (if (n =? 240)%N then 144 else 128) (if (n =? 244)%N then 143 else 191) b
           && byte_in 128 191 c && byte_in 128 191 d
        then 4%nat else 0%nat
    | _ => 0%nat
    end
  else 0%nat.

(** The body of a string literal, after the opening quote: the decoded
    text and the input after the closing quote.  Bytes that are not valid
    UTF-8 are replaced by U+FFFD, one for each byte. *)
Fixpoint scan_string (s : string) : option (string * string) :=
  match s with
  | EmptyString => None
  | String a r =>
      if Ascii.eqb a dquote then Some (EmptyString, r)
      else if Ascii.eqb a "\" then
        match r with
        | EmptyString => None
        | String c r1 =>
            let simple (x : N) :=
              match scan_string r1 with
              | Some (t, rest) => Some ((byte x ++ t)%string, rest)
              | None => None
              end in
            if Ascii.eqb c dquote then simple 34%N
            else if Ascii.eqb c "\" then simple 92%N
            else if Ascii.eqb c "/" then simple 47%N
            else if Ascii.eqb c "b" then simple 8%N
            else if Ascii.eqb c "f" then simple 12%N
            else if Ascii.eqb c "n" then simple 10%N
            else if Ascii.eqb c "r" then simple 13%N
            else if Ascii.eqb c "t" then simple 9%N
            else if Ascii.eqb c "u" then
              match r1 with
              | String h1 (String h2 (String h3 (String h4 r2))) =>
                  match hex4 h1 h2 h3 h4 with
                  | None => None
                  | Some u1 =>
                      match (if is_high_surrogate u1 then peek_u r2 else None) with
                      | Some u2 =>
                          if is_low_surrogate u2 then
                            match r2 with
                            | String _ (String _ (String _ (String _ (String _ (String _ r3))))) =>
                                match scan_string r3 with
                                | Some (t, rest) =>
                                    Some ((utf8 (65536 + (u1 - 55296) * 1024 + (u2 - 56320))%N ++ t)%string, rest)
                                | None => None
                                end
                            | _ => None
                            end
                          else
                            match scan_string r2 with
                            | Some (t, rest) => Some ((utf8 replacement_char ++ t)%string, rest)
                            | None => None
                            end
                      | None =>
                          let cp := if is_high_surrogate u1 || is_low_surrogate u1
                                    then replacement_char else u1 in
                          match scan_string r2 with
                          | Some (t, rest) => Some ((utf8 cp ++ t)%string, rest)
                          | None => None
                          end
                      end
                  end
              | _ => None
              end
            else None
        end
      else if Nat.ltb (nat_of_ascii a) 32 then None
      else if Nat.ltb (nat_of_ascii a) 128 then
        match scan_string r with
        | Some (t, rest) => Some (String a t, rest)
        | None => None
        end
      else
        match rune_width a r, r with
        | 2%nat, String b r1 =>
            match scan_string r1 with
            | Some (t, rest) => Some (String a (String b t), rest)
            | None => None
            end
        | 3%nat, String b (String c r2) =>
            match scan_string r2 with
            | Some (t, rest) => Some (String a (String b (String c t)), rest)
            | None => None
            end
        | 4%nat, String b (String c (String d r3)) =>
            match scan_string r3 with
            | Some (t, rest) => Some (String a (String b (String c (String d t))), rest)
            | None => None
            end
        | _, _ =>
            match scan_string r with
            | Some (t, rest) => Some ((utf8 replacement_char ++ t)%string, rest)
            | None => None
            end
        end
  end.

(** [strip p s]: [s] without its prefix [p]. *)
Fixpoint strip (p s : string) : option string :=
  match p, s with
  | EmptyString, _ => Some s
  | String a p', String b s' => if Ascii.eqb a b then strip p' s' else None
  | _, _ => None
  end.

(** The scanner of [encoding/json] refuses arrays and objects nested
    more than this deep. *)
Definition maxNestingDepth : N := 10000.

(** Recursive descent over the grammar of RFC 8259.  Every call spends
    one unit of [fuel]; [2 * length s + 2] is enough for any input.
    [depth] is the number of arrays and objects still open. *)
Fixpoint parse_value (fuel : nat) (depth : N) (s : string) : option (value * string) :=
  match fuel with
  | O => None
  | S fuel =>
      match skip_ws s with
      | EmptyString => None
      | String a r as s0 =>
          if Ascii.eqb a dquote then
            match scan_string r with
            | Some (t, rest) => Some (JString t, rest)
            | None => None
            end
          else if Ascii.eqb a "[" then
            if (maxNestingDepth <=? depth)%N then None else
            match skip_ws r with
            | String c r' =>
                if Ascii.eqb c "]" then Some (JArray [], r')
                else match parse_items fuel (depth + 1)%N r with
                     | Some (vs, rest) => Some (JArray vs, rest)
                     | None => None
                     end
            | EmptyString => None
            end
          else if Ascii.eqb a "{" then
            if (maxNestingDepth <=? depth)%N then None else
            match skip_ws r with
            | String c r' =>
                if Ascii.eqb c "}" then Some (JObject [], r')
                else match parse_fields fuel (depth + 1)%N r with
                     | Some (fs, rest) => Some (JObject fs, rest)
                     | None => None
                     end
            | EmptyString => None
            end
          else if Ascii.eqb a "t" then
            match strip "true" s0 with Some rest => Some (JBool true, rest) | None => None end
          else if Ascii.eqb a "f" then
            match strip "false" s0 with Some rest => Some (JBool false, rest) | None => None end
          else if Ascii.eqb a "n" then
            match strip "null" s0 with Some rest => Some (JNull, rest) | None => None end
          else
            match scan_number s0 with
            | Some (lit, rest) => Some (JNumber lit, rest)
            | None => None
            end
      end
  end
with parse_items (fuel : nat) (depth : N) (s : string) : option (list value * string) :=
  match fuel with
  | O => None
  | S fuel =>
      match parse_value fuel depth s with
      | None => None
      | Some (v, rest) =>
          match skip_ws rest with
          | String c r' =>
              if Ascii.eqb c "]" then Some ([v], r')
              else if Ascii.eqb c "," then
                match parse_items fuel depth r' with
                | Some (vs, rest') => Some (v :: vs, rest')
                | None => None
                end
              else None
          | EmptyString => None
          end
      end
  end
with parse_fields (fuel : nat) (depth : N) (s : string) : option (list (string * value) * string) :=
  match fuel with
  | O => None
  | S fuel =>
      match skip_ws s with
      | String q r =>
          if Ascii.eqb q dquote then
            match scan_string r with
            | None => None
            | Some (k, rest) =>
                match skip_ws rest with
                | String c r1 =>
                    if Ascii.eqb c ":" then
                      match parse_value fuel depth r1 with
                      | None => None
                      | Some (v, rest1) =>
                          match skip_ws rest1 with
                          | String d r2 =>
                              if Ascii.eqb d "}" then Some ([(k, v)], r2)
                              else if Ascii.eqb d "," then
                                match parse_fields fuel depth r2 with
                                | Some (fs, rest2) => Some ((k, v) :: fs, rest2)
                                | None => None
                                end
                              else None
                          | EmptyString => None
                          end
                      end
                    else None
                | EmptyString => None
                end
            end
          else None
      | EmptyString => None
      end
  end.

(** A whole document: one value, white space around it, nothing else. *)
Definition parse (s : string) : option value :=
  match parse_value (2 * String.length s + 2) 0 s with
  | Some (v, rest) =>
      match skip_ws rest with
      | EmptyString => Some v
      | _ => None
      end
  | None => None
  end.

Definition valid (s : string) : bool :=
  match parse s with Some _ => true | None => false end.

(** *** Encoding *)

Definition hex_digit (n : N) : ascii :=
  ascii_of_N (if (n <? 10)%N then 48 + n else 87 + n)%N.

(** The six characters of a [\u00XX] escape. *)
Definition u00 (n : N) : string :=
  String "\" (String "u" (String "0" (String "0"
    (String (hex_digit (n / 16)) (String (hex_digit (n mod 16)) EmptyString))))).

(** The six characters of a [\uXXXX] escape of a code point below
    U+10000. *)
Definition uXXXX (cp : N) : string :=
  String "\" (String "u" (String (hex_digit (cp / 4096)) (String (hex_digit ((cp / 256) mod 16))
    (String (hex_digit ((cp / 16) mod 16)) (String (hex_digit (cp mod 16)) EmptyString))))).

(** The body of a string literal as [json.Marshal] writes it: quotes and
    backslashes escaped; backspace, form feed, newline, carriage return
    and tab written with their short escapes and the other control
    characters as [\u00XX]; the HTML characters written as [\u003c],
    [\u003e], [\u0026]; U+2028 and U+2029 written as escapes; and
    every byte that is not valid UTF-8 written as [\ufffd]. *)
Fixpoint escape (s : string) : string :=
  match s with
  | EmptyString => EmptyString
  | String a r =>
      let n := N_of_ascii a in
      if (n <? 128)%N then
        ((if Ascii.eqb a dquote then String "\" (String dquote EmptyString)
          else if Ascii.eqb a "\" then String "\" (String "\" EmptyString)
          else if (n =? 8)%N then String "\" (String "b" EmptyString)
          else if (n =? 12)%N then String "\" (String "f" EmptyString)
          else if (n =? 10)%N then String "\" (String "n" EmptyString)
          else if (n =? 13)%N then String "\" (String "r" EmptyString)
          else if (n =? 9)%N then String "\" (String "t" EmptyString)
          else if (n <? 32)%N || Ascii.eqb a "<" || Ascii.eqb a ">" || Ascii.eqb a "&" then u00 n
          else String a EmptyString) ++ escape r)%string
      else
        match rune_width a r, r with
        | 2%nat, String b r1 => String a (String b (escape r1))
        | 3%nat, String b (String c r2) =>
            if (n =? 226)%N && (N_of_ascii b =? 128)%N
               && ((N_of_ascii c =? 168)%N || (N_of_ascii c =? 169)%N)
            then (uXXXX (8192 + (N_of_ascii c - 128)) ++ escape r2)%string
            else String a (String b (String c (escape r2)))
        | 4%nat, String b (String c (String d r3)) =>
            String a (String b (String c (String d (escape r3))))
        | _, _ => (uXXXX replacement_char ++ escape r)%string
        end
  end.

Definition quote (s : string) : string :=
  (String dquote (escape s) ++ String dquote EmptyString)%string.

Definition join (sep : string) (l : list string) : string :=
  match l with
  | [] => EmptyString
  | x :: xs => fold_left (fun acc y => (acc ++ sep ++ y)%string) xs x
  end.

Fixpoint encode (v : value) : string :=
  match v with
  | JNull => "null"
  | JBool true => "true"
  | JBool false => "false"
  | JNumber lit => lit
  | JString s => quote s
  | JArray vs => ("[" ++ join "," (map encode vs) ++ "]")%string
  | JObject fs =>
      ("{" ++ join "," (map (fun kv => (quote (fst kv) ++ ":" ++ encode (snd kv))%string) fs)
           ++ "}")%string
  end.

(** [json.Compact] with HTML escaping, as [json.Marshal] applies it to a
    [json.RawMessage]: white space outside string literals is dropped,
    and inside them the HTML characters and U+2028, U+2029 are written
    as escapes.  [in_str] says whether the scan is inside a literal. *)
Fixpoint compact (in_str : bool) (s : string) : string :=
  match s with
  | EmptyString => EmptyString
  | String a r =>
      if in_str then
        if Ascii.eqb a "\" then
          match r with
          | String b r' => String a (String b (compact true r'))
          | EmptyString => String a EmptyString
          end
        else if Ascii.eqb a dquote then String a (compact false r)
        else if Ascii.eqb a "<" || Ascii.eqb a ">" || Ascii.eqb a "&"
             then (u00 (N_of_ascii a) ++ compact true r)%string
        else
          match r with
          | String b (String c r2) =>
              if (N_of_ascii a =? 226)%N && (N_of_ascii b =? 128)%N
                 && ((N_of_ascii c =? 168)%N || (N_of_ascii c =? 169)%N)
              then (uXXXX (8192 + (N_of_ascii c - 128)) ++ compact true r2)%string
              else String a (compact true r)
          | _ => String a (compact true r)
          end
      else if is_ws a then compact false r
      else if Ascii.eqb a dquote then String a (compact true r)
      else String a (compact false r)
  end.

(** *** Decoding into Go values *)

Inductive result (A : Type) : Type :=
| Ok (a : A)
| Err (e : json_error).
Arguments Ok {A} a.
Arguments Err {A} e.

(** The word [encoding/json] uses for a JSON value in a type error. *)
Definition kind (v : value) : string :=
  match v with
  | JNull => "null" | JBool _ => "bool" | JNumber _ => "number"
  | JString _ => "string" | JArray _ => "array" | JObject _ => "object"
  end.

(** [json.Unmarshal(data, &dest)] at the destination type [T]: [dest] is
    the value the destination holds before the call.  On an error the
    model returns the error alone (Go may have filled part of [dest]). *)
Class Unmarshaler (T : Type) := unmarshal : string -> T -> result T.

(** [json.Marshal(v)] at the type [T] of [v]. *)
Class Marshaler (T : Type) := marshal : T -> result string.

Definition decode_with {T} (f : value -> T -> result T) (data : string) (dest : T) : result T :=
  match parse data with
  | None => Err SyntaxError
  | Some v => f v dest
  end.

(** A Go [string]: a JSON string; [null] leaves it as it is. *)
Definition into_string (v : value) (dest : string) : result string :=
  match v with
  | JString s => Ok s
  | JNull => Ok dest
  | _ => Err (UnmarshalTypeError (kind v) "string")
  end.

Fixpoint digits_value (s : string) (acc : Z) : option Z :=
  match s with
  | EmptyString => Some acc
  | String a r =>
      if is_digit a then digits_value r (10 * acc + Z.of_nat (nat_of_ascii a) - 48)%Z
      else None
  end.

(** [strconv.ParseInt(lit, 10, 64)] on a JSON number literal. *)
Definition int_of_literal (lit : string) : option Z :=
  let r :=
    match lit with
    | String a r => if Ascii.eqb a "-" then Z.opp <$> digits_value r 0 else digits_value lit 0
    | EmptyString => None
    end in
  match r with
  | Some z => if (Time.minInt64 <=? z)%Z && (z <=? Time.maxInt64)%Z then Some z else None
  | None => None
  end.

(** A Go [int] (64 bits). *)
Definition into_int (v : value) (dest : Z) : result Z :=
  match v with
  | JNumber lit =>
      match int_of_literal lit with
      | Some z => Ok z
      | None => Err (UnmarshalTypeError ("number " ++ lit) "int")
      end
  | JNull => Ok dest
  | _ => Err (UnmarshalTypeError (kind v) "int")
  end.

Definition upper (a : ascii) : ascii :=
  let n := nat_of_ascii a in
  if Nat.leb 97 n && Nat.leb n 122 then ascii_of_nat (n - 32) else a.

(** [foldName]: ASCII letters are written in upper case and the two
    letters outside ASCII that fold to an ASCII letter, U+017F (long s)
    and U+212A (Kelvin sign), as [S] and [K].  Every other character
    folds to a character outside ASCII and is kept as it is: the result
    is compared with the folded names of struct fields only, which are
    ASCII in this program. *)
Fixpoint fold_name (s : string) : string :=
  match s with
  | EmptyString => EmptyString
  | String a r =>
      let keep := String (upper a) (fold_name r) in
      let n := N_of_ascii a in
      if (n =? 197)%N then
        match r with
        | String b r1 => if (N_of_ascii b =? 191)%N then String "S" (fold_name r1) else keep
        | EmptyString => keep
        end
      else if (n =? 226)%N then
        match r with
        | String b (String c r2) =>
            if (N_of_ascii b =? 132)%N && (N_of_ascii c =? 170)%N
            then String "K" (fold_name r2) else keep
        | _ => keep
        end
      else keep
  end.

(** Object keys match struct fields by their folded names. *)
Definition key_matches (key field : string) : bool :=
  String.eqb (fold_name key) (fold_name field).

(** A struct destination: the members of a JSON object are applied in
    order by [set]; [null] leaves the struct as it is; anything else is a
    type error. *)
Fixpoint into_fields {T} (set : string -> value -> T -> result T)
         (fs : list (string * value)) (dest : T) : result T :=
  match fs with
  | [] => Ok dest
  | (k, v) :: fs' =>
      match set k v dest with
      | Ok dest' => into_fields set fs' dest'
      | Err e => Err e
      end
  end.

Definition into_struct {T} (name : string) (set : string -> value -> T -> result T)
           (v : value) (dest : T) : result T :=
  match v with
  | JObject fs => into_fields set fs dest
  | JNull => Ok dest
  | _ => Err (UnmarshalTypeError (kind v) name)
  end.

(** A Go [float64]: a binary64 number of IEEE 754. *)
Definition float64 : Type := SpecFloat.spec_float.

(** The conversion [float64(z)] of an integer. *)
Definition float64_of_Z (z : Z) : float64 := SpecFloat.binary_normalize 53 1024 z 0 false.

(** A number literal taken apart: whether it has a minus sign, the digits
    before and after the dot, and the decimal exponent. *)
Definition split_number (lit : string) : option (bool * string * string * Z) :=
  let '(neg, s1) :=
    match lit with
    | String a r => if Ascii.eqb a "-" then (true, r) else (false, lit)
    | EmptyString => (false, lit)
    end in
  let '(int, s2) := scan_digits s1 in
  let '(frac, s3) :=
    match s2 with
    | String a r => if Ascii.eqb a "." then scan_digits r else (EmptyString, s2)
    | EmptyString => (EmptyString, s2)
    end in
  let exp :=
    match s3 with
    | EmptyString => Some 0%Z
    | String e r =>
        if Ascii.eqb e "e" || Ascii.eqb e "E" then
          let '(eneg, r1) :=
            match r with
            | String c r' =>
                if Ascii.eqb c "-" then (true, r')
                else if Ascii.eqb c "+" then (false, r') else (false, r)
            | EmptyString => (false, r)
            end in
          match digits_value r1 0 with
          | Some z => Some (if eneg then (- z)%Z else z)
          | None => None
          end
        else None
    end in
  match exp with
  | Some x => Some (neg, int, frac, x)
  | None => None
  end.

(** [strconv.ParseFloat(lit, 64)] on a JSON number literal: the binary64
    number nearest to the decimal number the literal denotes, ties going
    to the even mantissa; [None] when that number is out of range (the
    result would be an infinity).  A literal too small for the format
    gives a zero. *)
Definition ParseFloat (lit : string) : option float64 :=
  match split_number lit with
  | None => None
  | Some (neg, int, frac, x) =>
      match digits_value (int ++ frac) 0 with
      | None => None
      | Some d =>
          let k := (x - Z.of_nat (String.length frac))%Z in
          let f :=
            if (0 <=? k)%Z then
              SpecFloat.binary_normalize 53 1024 ((if neg then - d else d) * 10 ^ k)%Z 0 neg
            else
              match d with
              | Zpos m =>
                  SpecFloat.SFdiv 53 1024 (SpecFloat.S754_finite neg m 0)
                    (SpecFloat.S754_finite false (Z.to_pos (10 ^ (- k))) 0)
              | _ => SpecFloat.S754_zero neg
              end in
          match f with
          | SpecFloat.S754_infinity _ | SpecFloat.S754_nan => None
          | _ => Some f
          end
      end
  end.

(** The Go values [json.Unmarshal] stores into an [interface{}]. *)
Inductive any :=
| GoNil
| GoBool (b : bool)
| GoFloat64 (f : float64)
| GoString (s : string)
| GoSlice (items : list any)
| GoMap (m : gmap string any).

(** An [interface{}] destination: a number becomes a [float64], or is a
    type error when it is out of range; of the members of an object that
    have the same key the last one stays.  The first error met, in the
    order of the document, is the error returned. *)
Fixpoint to_any (v : value) : result any :=
  match v with
  | JNull => Ok GoNil
  | JBool b => Ok (GoBool b)
  | JNumber lit =>
      match ParseFloat lit with
      | Some f => Ok (GoFloat64 f)
      | None => Err (UnmarshalTypeError ("number " ++ lit) "float64")
      end
  | JString s => Ok (GoString s)
  | JArray vs =>
      match
        (fix items (vs : list value) : result (list any) :=
           match vs with
           | [] => Ok []
           | v :: vs' =>
               match to_any v with
               | Err e => Err e
               | Ok a =>
                   match items vs' with
                   | Ok l => Ok (a :: l)
                   | Err e => Err e
                   end
               end
           end) vs
      with
      | Ok l => Ok (GoSlice l)
      | Err e => Err e
      end
  | JObject fs =>
      match
        (fix members (fs : list (string * value)) (m : gmap string any)
           : result (gmap string any) :=
           match fs with
           | [] => Ok m
           | kv :: fs' =>
               match to_any (snd kv) with
               | Err e => Err e
               | Ok a => members fs' (<[fst kv := a]> m)
               end
           end) fs ∅
      with
      | Ok m => Ok (GoMap m)
      | Err e => Err e
      end
  end.

(** The items of a JSON array as Go values, in order. *)
Fixpoint to_any_items (vs : list value) : result (list any) :=
  match vs with
  | [] => Ok []
  | v :: vs' =>
      match to_any v with
      | Err e => Err e
      | Ok a =>
          match to_any_items vs' with
          | Ok l => Ok (a :: l)
          | Err e => Err e
          end
      end
  end.

(** The members of a JSON object stored into a map, in order. *)
Fixpoint store_members (fs : list (string * value)) (m : gmap string any)
  : result (gmap string any) :=
  match fs with
  | [] => Ok m
  | kv :: fs' =>
      match to_any (snd kv) with
      | Err e => Err e
      | Ok a => store_members fs' (<[fst kv := a]> m)
      end
  end.

(** [map[string]interface{}]: the members are stored into the map the
    destination holds, which keeps the entries it has under other keys;
    [null] makes the map nil. *)
Definition into_map (v : value) (dest : gmap string any) : result (gmap string any) :=
  match v with
  | JObject fs => store_members fs dest
  | JNull => Ok ∅
  | _ => Err (UnmarshalTypeError (kind v) "map[string]interface {}")
  end.

(** Whether every number of a JSON value is in the range of [float64]. *)
Fixpoint numbers_fit (v : value) : bool :=
  match v with
  | JNumber lit => if ParseFloat lit is Some _ then true else false
  | JArray vs => forallb numbers_fit vs
  | JObject fs => forallb (fun kv => numbers_fit (snd kv)) fs
  | _ => true
  end.

#[global] Instance unmarshal_string : Unmarshaler string := decode_with into_string.
#[global] Instance unmarshal_any : Unmarshaler any := decode_with (fun v _ => to_any v).
#[global] Instance unmarshal_map : Unmarshaler (gmap string any) := decode_with into_map.

(** [json.RawMessage]: JSON text kept as it is. *)
Record RawMessage := Raw { raw_bytes : string }.

(** A raw message marshals as itself, compacted, if it is valid JSON; the
    zero value marshals as [null]. *)
#[global] Instance marshal_raw : Marshaler RawMessage := fun m =>
  match raw_bytes m with
  | EmptyString => Ok "null"%string
  | b => if valid b then Ok (compact false b) else Err (MarshalerError "json.RawMessage")
  end.

#[global] Instance marshal_any : Marshaler value := fun v => Ok (encode v).
#[global] Instance marshal_string : Marshaler string := fun s => Ok (quote s).

End JSON.


(* ===================================================================== *)
(** ** Go channels *)
(* ===================================================================== *)

Module Chan.

(** A channel made by [make(chan A, cap)]: the values waiting in its
    buffer, oldest first; the number of goroutines ready to receive from
    it; and the values that were handed to a receiver directly.  The
    client never closes the channels it sends on. *)
Record chan (A : Type) := Mk {
  cap : nat;
  buf : list A;
  receivers : nat;
  delivered : list A
}.
Arguments Mk {A}.
Arguments cap {A}.
Arguments buf {A}.
Arguments receivers {A}.
Arguments delivered {A}.

Definition make {A} (n : nat) : chan A := Mk n [] 0 [].

Definition pending {A} (ch : chan A) : nat := length (buf ch).

(** A send can proceed when the buffer has a free slot or, on an
    unbuffered channel, when a receiver is ready. *)
Definition can_send {A} (ch : chan A) : bool :=
  (pending ch <? cap ch)%nat || ((cap ch =? 0)%nat && (0 <? receivers ch)%nat).

Definition put {A} (ch : chan A) (v : A) : chan A :=
  if (pending ch <? cap ch)%nat
  then Mk (cap ch) (buf ch ++ [v]) (receivers ch) (delivered ch)
  else Mk (cap ch) (buf ch) (receivers ch - 1) (delivered ch ++ [v]).

(** The [case ch <- v] arm of a [select]: [None] when it is not ready.  A
    nil channel is never ready. *)
Definition try_send {A} (ch : option (chan A)) (v : A) : option (chan A) :=
  match ch with
  | Some c => if can_send c then Some (put c v) else None
  | None => None
  end.

(** A receiver takes the oldest buffered value. *)
Definition dequeue {A} (ch : chan A) : option (A * chan A) :=
  match buf ch with
  | v :: rest => Some (v, Mk (cap ch) rest (receivers ch) (delivered ch))
  | [] => None
  end.

(** A [chan struct{}] used only as a broadcast signal, such as [c.done]. *)
Inductive signal := Open | Closed.

End Chan.

(* ===================================================================== *)
(** ** The client *)
(* ===================================================================== *)

Module Pusher.

Import Chan.
Export JSON.

Local Open Scope Z_scope.

Definition pusherPing := "pusher:ping".
Definition pusherPong := "pusher:pong".
Definition pusherError := "pusher:error".
Definition pusherSubscribe := "pusher:subscribe".
Definition pusherUnsubscribe := "pusher:unsubscribe".
Definition pusherConnEstablished := "pusher:connection_established".
Definition pusherInternalSubSucceeded := "pusher_internal:subscription_succeeded".

Definition defaultPongTimeout : Z := 30 * Time.Second.
Definition maxPongFailures : Z := 2.
Definition initialReconnectDelay : Z := 1 * Time.Second.
Definition maxReconnectDelay : Z := 60 * Time.Second.

(** Modelled from the spec: the [Event] struct is declared outside
    [client.go]; a frame carries an event name, an optional channel name and
    raw JSON data. *)
Record Event := {
  evEvent : string;
  evData : RawMessage;
  evChannel : string
}.

(** Modelled from the spec: [EventError] is declared outside [client.go];
    it is the [{code, message}] payload of a [pusher:error] frame. *)
Record EventError := {
  Code : Z;
  Message : string
}.

Record connectionData := {
  SocketID : string;
  ActivityTimeout : Z
}.

(** The [error] values the client returns or reports.  An error built by
    [fmt.Errorf] is a constructor named after its format string. *)
Inductive error :=
| ErrDial (reason : string)
| ErrEOF
| ErrNet (reason : string)
| ErrJSON (e : json_error)
| ErrUnmarshalToString (cause : json_error)
| ErrUnmarshalToDestination (cause : json_error)
| ErrUnknownEventType (event : string)
| ErrEvent (e : EventError)
| ErrInvalidPresenceChannelName (channelName : string)
| ErrAuth (reason : string)
| ErrPongTimeout (failures : Z)
| ErrMaxPongFailures
| ErrAttemptingReconnection (delay : Z)
| ErrReconnectionSuccessful
| ErrReconnectionFailed (cause : error).

Definition set_SocketID (k : string) (v : value) (d : connectionData) : result connectionData :=
  if key_matches k "socket_id" then
    match into_string v (SocketID d) with
    | Ok s => Ok {| SocketID := s; ActivityTimeout := ActivityTimeout d |}
    | Err e => Err e
    end
  else if key_matches k "activity_timeout" then
    match into_int v (ActivityTimeout d) with
    | Ok t => Ok {| SocketID := SocketID d; ActivityTimeout := t |}
    | Err e => Err e
    end
  else Ok d.

#[global] Instance unmarshal_connectionData : Unmarshaler connectionData :=
  decode_with (into_struct "pusher.connectionData" set_SocketID).

Definition set_EventError (k : string) (v : value) (d : EventError) : result EventError :=
  if key_matches k "code" then
    match into_int v (Code d) with
    | Ok n => Ok {| Code := n; Message := Message d |}
    | Err e => Err e
    end
  else if key_matches k "message" then
    match into_string v (Message d) with
    | Ok s => Ok {| Code := Code d; Message := s |}
    | Err e => Err e
    end
  else Ok d.

#[global] Instance unmarshal_EventError : Unmarshaler EventError :=
  decode_with (into_struct "pusher.EventError" set_EventError).

(** [UnmarshalDataString]: the result is the new value of [dest], or the
    error. *)
Definition UnmarshalDataString {T} `{Unmarshaler T} (data : RawMessage) (dest : T) : error + T :=
  match unmarshal (T := string) (raw_bytes data) "" with
  | Err e => inl (ErrUnmarshalToString e)
  | Ok dataStr =>
      match unmarshal dataStr dest with
      | Err e => inl (ErrUnmarshalToDestination e)
      | Ok d => inr d
      end
  end.

(** Modelled from the spec: [extractEventError] is declared outside
    [client.go].  It decodes the data of a [pusher:error] frame as an
    [EventError], which is itself the error returned. *)
Definition extractEventError (event : Event) : error :=
  match unmarshal (raw_bytes (evData event)) {| Code := 0; Message := "" |} with
  | Ok e => ErrEvent e
  | Err e => ErrJSON e
  end.

(** *** Connections, channel objects and the world *)

(** What [websocket.JSON.Receive] will return next. *)
Inductive Received :=
| RecvEvent (event : Event)
| RecvErr (err : error).

(** A [*websocket.Conn]: the frames the peer will deliver, in order (the
    peer closes the stream after the last one); the frames written so far;
    the error every write meets, if any; the number of [Close] calls; and the
    result of the first of them. *)
Record Conn := {
  incoming : list Received;
  outgoing : list Event;
  writeErr : option error;
  closes : nat;
  closeErr : option error
}.

(** What a [websocket.Dial] will meet. *)
Inductive Attempt :=
| DialFails (err : error)
| DialOk (conn : Conn).

(** Modelled from the spec: the channel types are declared outside
    [client.go].  A channel has a name and a subscribed flag (its bound
    events and its back-reference to the client are not needed here) and is
    one of three variants. *)
Record channel := {
  name : string;
  subscribed : bool
}.

Inductive internalChannel :=
| publicChannel (base : channel)
| privateChannel (base : channel)
| presenceChannel (base : channel).

Definition base_of (ch : internalChannel) : channel :=
  match ch with
  | publicChannel b | privateChannel b | presenceChannel b => b
  end.

(** Modelled from the spec: [SubscribeOption] is declared outside
    [client.go]; options are handed to the channel as they come. *)
Inductive SubscribeOption := subscribeOption (tag : string).

(** What the auth endpoint answers to one request: the members to add to
    the subscribe payload, or a failure. *)
Inductive AuthReply :=
| AuthOk (members : list (string * value))
| AuthFails (reason : string).

(** The goroutines the client starts. *)
Inductive Task := heartbeat | listen.

Record Client := {
  Errors : option (chan error);
  socketID : string;
  activityTimeout : Z;
  pongTimeout : Z;
  ws : option nat;
  connected : bool;
  activityTimer : option Time.Timer;
  activityTimerReset : option (chan unit);
  pongTimer : option Time.Timer;
  pongReceived : option (chan unit);
  pongFailures : Z;
  ReconnectDelay : Z;
  appKey : string;
  boundEvents : option (gmap string (gset nat));
  subscribedChannels : option (gmap string nat);
  done : option signal
}.

Definition set_Errors (v : option (chan error)) (c : Client) : Client :=
  {| Errors := v; socketID := socketID c; activityTimeout := activityTimeout c; pongTimeout := pongTimeout c; ws := ws c; connected := connected c; activityTimer := activityTimer c; activityTimerReset := activityTimerReset c; pongTimer := pongTimer c; pongReceived := pongReceived c; pongFailures := pongFailures c; ReconnectDelay := ReconnectDelay c; appKey := appKey c; boundEvents := boundEvents c; subscribedChannels := subscribedChannels c; done := done c |}.
Definition set_socketID (v : string) (c : Client) : Client :=
  {| Errors := Errors c; socketID := v; activityTimeout := activityTimeout c; pongTimeout := pongTimeout c; ws := ws c; connected := connected c; activityTimer := activityTimer c; activityTimerReset := activityTimerReset c; pongTimer := pongTimer c; pongReceived := pongReceived c; pongFailures := pongFailures c; ReconnectDelay := ReconnectDelay c; appKey := appKey c; boundEvents := boundEvents c; subscribedChannels := subscribedChannels c; done := done c |}.
Definition set_activityTimeout (v : Z) (c : Client) : Client :=
  {| Errors := Errors c; socketID := socketID c; activityTimeout := v; pongTimeout := pongTimeout c; ws := ws c; connected := connected c; activityTimer := activityTimer c; activityTimerReset := activityTimerReset c; pongTimer := pongTimer c; pongReceived := pongReceived c; pongFailures := pongFailures c; ReconnectDelay := ReconnectDelay c; appKey := appKey c; boundEvents := boundEvents c; subscribedChannels := subscribedChannels c; done := done c |}.
Definition set_pongTimeout (v : Z) (c : Client) : Client :=
  {| Errors := Errors c; socketID := socketID c; activityTimeout := activityTimeout c; pongTimeout := v; ws := ws c; connected := connected c; activityTimer := activityTimer c; activityTimerReset := activityTimerReset c; pongTimer := pongTimer c; pongReceived := pongReceived c; pongFailures := pongFailures c; ReconnectDelay := ReconnectDelay c; appKey := appKey c; boundEvents := boundEvents c; subscribedChannels := subscribedChannels c; done := done c |}.
Definition set_ws (v : option nat) (c : Client) : Client :=
  {| Errors := Errors c; socketID := socketID c; activityTimeout := activityTimeout c; pongTimeout := pongTimeout c; ws := v; connected := connected c; activityTimer := activityTimer c; activityTimerReset := activityTimerReset c; pongTimer := pongTimer c; pongReceived := pongReceived c; pongFailures := pongFailures c; ReconnectDelay := ReconnectDelay c; appKey := appKey c; boundEvents := boundEvents c; subscribedChannels := subscribedChannels c; done := done c |}.
Definition set_connected (v : bool) (c : Client) : Client :=
  {| Errors := Errors c; socketID := socketID c; activityTimeout := activityTimeout c; pongTimeout := pongTimeout c; ws := ws c; connected := v; activityTimer := activityTimer c; activityTimerReset := activityTimerReset c; pongTimer := pongTimer c; pongReceived := pongReceived c; pongFailures := pongFailures c; ReconnectDelay := ReconnectDelay c; appKey := appKey c; boundEvents := boundEvents c; subscribedChannels := subscribedChannels c; done := done c |}.
Definition set_activityTimer (v : option Time.Timer) (c : Client) : Client :=
  {| Errors := Errors c; socketID := socketID c; activityTimeout := activityTimeout c; pongTimeout := pongTimeout c; ws := ws c; connected := connected c; activityTimer := v; activityTimerReset := activityTimerReset c; pongTimer := pongTimer c; pongReceived := pongReceived c; pongFailures := pongFailures c; ReconnectDelay := ReconnectDelay c; appKey := appKey c; boundEvents := boundEvents c; subscribedChannels := subscribedChannels c; done := done c |}.
Definition set_activityTimerReset (v : option (chan unit)) (c : Client) : Client :=
  {| Errors := Errors c; socketID := socketID c; activityTimeout := activityTimeout c; pongTimeout := pongTimeout c; ws := ws c; connected := connected c; activityTimer := activityTimer c; activityTimerReset := v; pongTimer := pongTimer c; pongReceived := pongReceived c; pongFailures := pongFailures c; ReconnectDelay := ReconnectDelay c; appKey := appKey c; boundEvents := boundEvents c; subscribedChannels := subscribedChannels c; done := done c |}.
Definition set_pongTimer (v : option Time.Timer) (c : Client) : Client :=
  {| Errors := Errors c; socketID := socketID c; activityTimeout := activityTimeout c; pongTimeout := pongTimeout c; ws := ws c; connected := connected c; activityTimer := activityTimer c; activityTimerReset := activityTimerReset c; pongTimer := v; pongReceived := pongReceived c; pongFailures := pongFailures c; ReconnectDelay := ReconnectDelay c; appKey := appKey c; boundEvents := boundEvents c; subscribedChannels := subscribedChannels c; done := done c |}.
Definition set_pongReceived (v : option (chan unit)) (c : Client) : Client :=
  {| Errors := Errors c; socketID := socketID c; activityTimeout := activityTimeout c; pongTimeout := pongTimeout c; ws := ws c; connected := connected c; activityTimer := activityTimer c; activityTimerReset := activityTimerReset c; pongTimer := pongTimer c; pongReceived := v; pongFailures := pongFailures c; ReconnectDelay := ReconnectDelay c; appKey := appKey c; boundEvents := boundEvents c; subscribedChannels := subscribedChannels c; done := done c |}.
Definition set_pongFailures (v : Z) (c : Client) : Client :=
  {| Errors := Errors c; socketID := socketID c; activityTimeout := activityTimeout c; pongTimeout := pongTimeout c; ws := ws c; connected := connected c; activityTimer := activityTimer c; activityTimerReset := activityTimerReset c; pongTimer := pongTimer c; pongReceived := pongReceived c; pongFailures := v; ReconnectDelay := ReconnectDelay c; appKey := appKey c; boundEvents := boundEvents c; subscribedChannels := subscribedChannels c; done := done c |}.
Definition set_ReconnectDelay (v : Z) (c : Client) : Client :=
  {| Errors := Errors c; socketID := socketID c; activityTimeout := activityTimeout c; pongTimeout := pongTimeout c; ws := ws c; connected := connected c; activityTimer := activityTimer c; activityTimerReset := activityTimerReset c; pongTimer := pongTimer c; pongReceived := pongReceived c; pongFailures := pongFailures c; ReconnectDelay := v; appKey := appKey c; boundEvents := boundEvents c; subscribedChannels := subscribedChannels c; done := done c |}.
Definition set_appKey (v : string) (c : Client) : Client :=
  {| Errors := Errors c; socketID := socketID c; activityTimeout := activityTimeout c; pongTimeout := pongTimeout c; ws := ws c; connected := connected c; activityTimer := activityTimer c; activityTimerReset := activityTimerReset c; pongTimer := pongTimer c; pongReceived := pongReceived c; pongFailures := pongFailures c; ReconnectDelay := ReconnectDelay c; appKey := v; boundEvents := boundEvents c; subscribedChannels := subscribedChannels c; done := done c |}.
Definition set_boundEvents (v : option (gmap string (gset nat))) (c : Client) : Client :=
  {| Errors := Errors c; socketID := socketID c; activityTimeout := activityTimeout c; pongTimeout := pongTimeout c; ws := ws c; connected := connected c; activityTimer := activityTimer c; activityTimerReset := activityTimerReset c; pongTimer := pongTimer c; pongReceived := pongReceived c; pongFailures := pongFailures c; ReconnectDelay := ReconnectDelay c; appKey := appKey c; boundEvents := v; subscribedChannels := subscribedChannels c; done := done c |}.
Definition set_subscribedChannels (v : option (gmap string nat)) (c : Client) : Client :=
  {| Errors := Errors c; socketID := socketID c; activityTimeout := activityTimeout c; pongTimeout := pongTimeout c; ws := ws c; connected := connected c; activityTimer := activityTimer c; activityTimerReset := activityTimerReset c; pongTimer := pongTimer c; pongReceived := pongReceived c; pongFailures := pongFailures c; ReconnectDelay := ReconnectDelay c; appKey := appKey c; boundEvents := boundEvents c; subscribedChannels := v; done := done c |}.
Definition set_done (v : option signal) (c : Client) : Client :=
  {| Errors := Errors c; socketID := socketID c; activityTimeout := activityTimeout c; pongTimeout := pongTimeout c; ws := ws c; connected := connected c; activityTimer := activityTimer c; activityTimerReset := activityTimerReset c; pongTimer := pongTimer c; pongReceived := pongReceived c; pongFailures := pongFailures c; ReconnectDelay := ReconnectDelay c; appKey := appKey c; boundEvents := boundEvents c; subscribedChannels := subscribedChannels c; done := v |}.

(** The world a method runs in: the client; the connections dialled so
    far ([c.ws] is an index into them); what the next dials will meet; the
    channel objects allocated so far (the registry holds indices into
    them); the goroutines started; the [time.Sleep] calls made; and what
    the auth endpoint will answer. *)
Record World := {
  client : Client;
  conns : list Conn;
  network : list Attempt;
  heap : list internalChannel;
  goroutines : list Task;
  slept : list Z;
  authReplies : list AuthReply
}.

Definition with_client (v : Client) (w : World) : World :=
  {| client := v; conns := conns w; network := network w; heap := heap w; goroutines := goroutines w; slept := slept w; authReplies := authReplies w |}.
Definition with_conns (v : list Conn) (w : World) : World :=
  {| client := client w; conns := v; network := network w; heap := heap w; goroutines := goroutines w; slept := slept w; authReplies := authReplies w |}.
Definition with_network (v : list Attempt) (w : World) : World :=
  {| client := client w; conns := conns w; network := v; heap := heap w; goroutines := goroutines w; slept := slept w; authReplies := authReplies w |}.
Definition with_heap (v : list internalChannel) (w : World) : World :=
  {| client := client w; conns := conns w; network := network w; heap := v; goroutines := goroutines w; slept := slept w; authReplies := authReplies w |}.
Definition with_goroutines (v : list Task) (w : World) : World :=
  {| client := client w; conns := conns w; network := network w; heap := heap w; goroutines := v; slept := slept w; authReplies := authReplies w |}.
Definition with_slept (v : list Z) (w : World) : World :=
  {| client := client w; conns := conns w; network := network w; heap := heap w; goroutines := goroutines w; slept := v; authReplies := authReplies w |}.
Definition with_authReplies (v : list AuthReply) (w : World) : World :=
  {| client := client w; conns := conns w; network := network w; heap := heap w; goroutines := goroutines w; slept := slept w; authReplies := v |}.

(** A client as [&Client{}] leaves it: every field at its zero value. *)
Definition zeroClient : Client := {|
  Errors := None; socketID := ""; activityTimeout := 0; pongTimeout := 0;
  ws := None; connected := false; activityTimer := None;
  activityTimerReset := None; pongTimer := None; pongReceived := None;
  pongFailures := 0; ReconnectDelay := 0; appKey := "";
  boundEvents := None; subscribedChannels := None; done := None
|}.

(** *** Computations *)

(** How a call ends: it returns; it panics; it parks the caller on a
    channel operation that can never proceed; or it is still inside a loop
    when the fuel given to the model runs out. *)
Inductive Outcome (A : Type) : Type :=
| Returns (a : A) (w : World)
| Panics (why : string) (w : World)
| Blocks (w : World)
| Running (w : World).
Arguments Returns {A} a w.
Arguments Panics {A} why w.
Arguments Blocks {A} w.
Arguments Running {A} w.

Definition M (A : Type) : Type := World -> Outcome A.

#[global] Instance M_ret : MRet M := fun A a w => Returns a w.

#[global] Instance M_bind : MBind M := fun A B k m w =>
  match m w with
  | Returns a w' => k a w'
  | Panics why w' => Panics why w'
  | Blocks w' => Blocks w'
  | Running w' => Running w'
  end.

Definition final {A} (o : Outcome A) : World :=
  match o with
  | Returns _ w | Panics _ w | Blocks w | Running w => w
  end.

Definition getClient : M Client := fun w => Returns (client w) w.
Definition update (f : Client -> Client) : M unit := fun w => Returns tt (with_client (f (client w)) w).
Definition panic {A} (why : string) : M A := fun w => Panics why w.

Fixpoint forEach {A} (l : list A) (body : A -> M unit) : M unit :=
  match l with
  | [] => mret tt
  | x :: l' => body x ;; forEach l' body
  end.

(** [ch <- v] as a statement of its own: it parks the caller until the
    send can proceed.  ([listen] delivers bound events this way, each in a
    goroutine of its own.) *)
Definition send {A} (ch : option (chan A)) (v : A) : M (option (chan A)) := fun w =>
  match try_send ch v with
  | Some ch' => Returns (Some ch') w
  | None => Blocks w
  end.

(** [close(c.done)]: closing a closed channel panics. *)
Definition close (s : signal) : M signal :=
  match s with
  | Open => mret Closed
  | Closed => panic "close of closed channel"
  end.

(** *** The websocket package *)

(** [websocket.Dial]: the next attempt of the script; with none left,
    nobody answers. *)
Definition websocket_Dial : M (error + nat) := fun w =>
  match network w with
  | [] => Returns (inl (ErrDial "connection refused")) w
  | DialFails err :: rest => Returns (inl err) (with_network rest w)
  | DialOk conn :: rest =>
      Returns (inr (length (conns w))) (with_network rest (with_conns (conns w ++ [conn]) w))
  end.

Definition nilPointer : string := "invalid memory address or nil pointer dereference".

(** The connection behind a [*websocket.Conn]; a nil pointer panics. *)
Definition deref_ws (p : option nat) : M (nat * Conn) := fun w =>
  match p with
  | None => Panics nilPointer w
  | Some h =>
      match conns w !! h with
      | Some conn => Returns (h, conn) w
      | None => Panics nilPointer w
      end
  end.

Definition store_ws (h : nat) (conn : Conn) : M unit := fun w =>
  Returns tt (with_conns (<[h := conn]> (conns w)) w).

Definition closedConn : error := ErrNet "use of closed network connection".

(** [websocket.JSON.Receive(ws, &event)] *)
Definition websocket_JSON_Receive (p : option nat) : M (error + Event) :=
  '(h, conn) ← deref_ws p;
  if (0 <? closes conn)%nat then mret (inl closedConn)
  else
    match incoming conn with
    | [] => mret (inl ErrEOF)
    | r :: rest =>
        store_ws h {| incoming := rest; outgoing := outgoing conn; writeErr := writeErr conn;
                      closes := closes conn; closeErr := closeErr conn |} ;;
        mret (match r with RecvEvent e => inr e | RecvErr err => inl err end)
    end.

(** [websocket.JSON.Send(ws, e)] *)
Definition websocket_JSON_Send (p : option nat) (e : Event) : M (option error) :=
  '(h, conn) ← deref_ws p;
  if (0 <? closes conn)%nat then mret (Some closedConn)
  else
    match writeErr conn with
    | Some err => mret (Some err)
    | None =>
        store_ws h {| incoming := incoming conn; outgoing := outgoing conn ++ [e];
                      writeErr := writeErr conn; closes := closes conn; closeErr := closeErr conn |} ;;
        mret None
    end.

(** [ws.Close()]: closing twice is an error. *)
Definition ws_Close (p : option nat) : M (option error) :=
  '(h, conn) ← deref_ws p;
  store_ws h {| incoming := incoming conn; outgoing := outgoing conn; writeErr := writeErr conn;
                closes := S (closes conn); closeErr := closeErr conn |} ;;
  mret (if (0 <? closes conn)%nat then Some closedConn else closeErr conn).

(** [time.Sleep(d)] *)
Definition time_Sleep (d : Z) : M unit := fun w => Returns tt (with_slept (slept w ++ [d]) w).

(** [go f()] *)
Definition go (t : Task) : M unit := fun w => Returns tt (with_goroutines (goroutines w ++ [t]) w).

(** *** Methods of the client that do not dial *)

(** The helper [min] of [client.go]. *)
Definition min (a b : Z) : Z := if a <? b then a else b.

Definition resetActivityTimer : M unit :=
  c ← getClient;
  match try_send (activityTimerReset c) tt with
  | Some ch => update (set_activityTimerReset (Some ch))
  | None => mret tt (* Timer reset is already requested. *)
  end.

Definition sendError (err : error) : M unit :=
  c ← getClient;
  match Errors c with
  | None => mret tt
  | Some _ =>
      match try_send (Errors c) err with
      | Some ch => update (set_Errors (Some ch))
      | None => mret tt
      end
  end.

Definition SendEvent {T} `{Marshaler T} (event : string) (data : T) (channelName : string)
  : M (option error) :=
  match marshal data with
  | Err err => mret (Some (ErrJSON err))
  | Ok dataJSON =>
      let e := {| evEvent := event; evData := Raw dataJSON; evChannel := channelName |} in
      resetActivityTimer ;;
      c ← getClient;
      websocket_JSON_Send (ws c) e
  end.

(** [if c.done != nil { close(c.done) }] *)
Definition closeDone : M unit :=
  c ← getClient;
  match done c with
  | None => mret tt
  | Some s => s' ← close s; update (set_done (Some s'))
  end.

Definition Disconnect : M (option error) :=
  c ← getClient;
  if negb (connected c) then mret None
  else
    closeDone ;;
    update (set_connected false) ;;
    c ← getClient;
    ws_Close (ws c).

(** *** Channel objects *)

(** The object a registry entry points to. *)
Definition deref_channel (l : nat) : M internalChannel := fun w =>
  match heap w !! l with
  | Some ch => Returns ch w
  | None => Panics nilPointer w
  end.

(** A new object on the heap. *)
Definition new (ch : internalChannel) : M nat := fun w =>
  Returns (length (heap w)) (with_heap (heap w ++ [ch]) w).

Definition set_subscribed (b : bool) (ch : internalChannel) : internalChannel :=
  match ch with
  | publicChannel c => publicChannel {| name := name c; subscribed := b |}
  | privateChannel c => privateChannel {| name := name c; subscribed := b |}
  | presenceChannel c => presenceChannel {| name := name c; subscribed := b |}
  end.

(** Modelled from the spec: [ResetSubscriptionState] is a method of the
    channel types, declared outside [client.go].  A session reconnect
    takes a subscribed channel back to subscribing. *)
Definition ResetSubscriptionState (l : nat) : M unit := fun w =>
  match heap w !! l with
  | Some ch => Returns tt (with_heap (<[l := set_subscribed false ch]> (heap w)) w)
  | None => Panics nilPointer w
  end.

(** The HTTP POST to the auth endpoint. *)
Definition authorize : M AuthReply := fun w =>
  match authReplies w with
  | [] => Returns (AuthFails "no reply") w
  | r :: rest => Returns r (with_authReplies rest w)
  end.

(** Modelled from the spec: the channel-level [Subscribe] is declared
    outside [client.go].  It sends a [pusher:subscribe] event whose data
    carries the channel name and, for private and presence channels, what
    the auth endpoint answered; when authorization fails it returns the
    auth error and sends nothing. *)
Definition channel_Subscribe (l : nat) (opts : list SubscribeOption) : M (option error) :=
  ch ← deref_channel l;
  match ch with
  | publicChannel b =>
      SendEvent pusherSubscribe (JObject [("channel", JString (name b))]) ""
  | privateChannel b | presenceChannel b =>
      r ← authorize;
      match r with
      | AuthFails reason => mret (Some (ErrAuth reason))
      | AuthOk members =>
          SendEvent pusherSubscribe (JObject (("channel", JString (name b)) :: members)) ""
      end
  end.

(** *** The handshake *)

(** The statements of the [pusherConnEstablished] case of
    [connectInternal] that assign fields of the client. *)
Definition establish (connData : connectionData) (c : Client) : Client :=
  let c := set_connected true c in
  let c := set_done (Some Open) c in
  let c := set_socketID (SocketID connData) c in
  let c := set_activityTimeout (Time.mul (ActivityTimeout connData) Time.Second) c in
  let c := set_activityTimer (Some (Time.NewTimer (activityTimeout c))) c in
  let c := set_activityTimerReset (Some (make 1)) c in
  let c := set_pongTimer (Some (fst (Time.Stop (Time.NewTimer (pongTimeout c))))) c in
  let c := set_pongReceived (Some (make 1)) c in
  let c := if boundEvents c is None then set_boundEvents (Some ∅) c else c in
  let c := if subscribedChannels c is None then set_subscribedChannels (Some ∅) c else c in
  c.

(** The entries of the registry, as a [range] over it visits them. *)
Definition registry (c : Client) : list (string * nat) :=
  match subscribedChannels c with
  | Some m => map_to_list m
  | None => []
  end.

(** The [switch event.Event] of [connectInternal], on the first frame
    received. *)
Definition firstEvent (event : Event) : M (option error) :=
  if String.eqb (evEvent event) pusherError then
    mret (Some (extractEventError event))
  else if String.eqb (evEvent event) pusherConnEstablished then
    match UnmarshalDataString (evData event) {| SocketID := ""; ActivityTimeout := 0 |} with
    | inl err => mret (Some err)
    | inr connData =>
        update (establish connData) ;;
        (* Resubscribe to previously subscribed channels after reconnection *)
        c ← getClient;
        let previous := registry c in
        forEach previous (fun '(_, ch) => ResetSubscriptionState ch) ;;
        let previousChannels := map fst previous in
        go heartbeat ;;
        go listen ;;
        (* Resubscribe to all channels *)
        forEach previousChannels (fun channelName =>
          c ← getClient;
          match subscribedChannels c ≫= (.!! channelName) with
          | Some ch => channel_Subscribe ch [] ;; mret tt
          | None => mret tt
          end) ;;
        mret None
    end
  else mret (Some (ErrUnknownEventType (evEvent event))).

Definition connectInternal : M (option error) :=
  r ← websocket_Dial;
  match r with
  | inl err => update (set_ws None) ;; mret (Some err)
  | inr h =>
      update (set_ws (Some h)) ;;
      r ← websocket_JSON_Receive (Some h);
      match r with
      | inl err => mret (Some err)
      | inr event => firstEvent event
      end
  end.

Definition Connect (appKey : string) : M (option error) :=
  update (set_appKey appKey) ;;
  update (set_pongTimeout defaultPongTimeout) ;;
  update (set_ReconnectDelay initialReconnectDelay) ;;
  update (set_pongFailures 0) ;;
  connectInternal.

(** *** Reconnection *)

(** The [for] loop of [attemptReconnect]; [fuel] bounds the number of
    iterations the model follows. *)
Fixpoint reconnectLoop (fuel : nat) : M unit :=
  match fuel with
  | O => fun w => Running w
  | S fuel =>
      c ← getClient;
      let delay := ReconnectDelay c in
      update (set_ReconnectDelay (min (Time.mul (ReconnectDelay c) 2) maxReconnectDelay)) ;;
      sendError (ErrAttemptingReconnection delay) ;;
      time_Sleep delay ;;
      err ← connectInternal;
      match err with
      | None => sendError ErrReconnectionSuccessful
      | Some err => sendError (ErrReconnectionFailed err) ;; reconnectLoop fuel
      end
  end.

Definition attemptReconnect (fuel : nat) : M unit :=
  c ← getClient;
  (* Don't attempt reconnection if we're already disconnected *)
  if negb (connected c) then mret tt
  else
    closeDone ;;
    update (set_connected false) ;;
    let oldWs := ws c in
    ws_Close oldWs ;;
    reconnectLoop fuel.

(** The goroutine [heartbeat] starts after a ping, by the arm of its
    [select] that fires. *)
Inductive pongSignal := pongArrived | pongTimedOut | sessionDone.

Definition pongWaiter (fuel : nat) (s : pongSignal) : M unit :=
  match s with
  | pongArrived =>
      (* Pong was received, reset failure counter *)
      update (set_pongFailures 0) ;;
      update (set_ReconnectDelay initialReconnectDelay)
  | pongTimedOut =>
      c ← getClient;
      update (set_pongFailures (Time.wrap64 (pongFailures c + 1))) ;;
      c ← getClient;
      sendError (ErrPongTimeout (pongFailures c)) ;;
      if maxPongFailures <=? pongFailures c then
        sendError ErrMaxPongFailures ;;
        attemptReconnect fuel
      else mret tt
  | sessionDone => mret tt
  end.

(** *** The channel registry *)

(** The variant [Subscribe] creates for a name. *)
Definition newChannel (channelName : string) : internalChannel :=
  let baseChan := {| name := channelName; subscribed := false |} in
  if String.prefix "private-" channelName then privateChannel baseChan
  else if String.prefix "presence-" channelName then presenceChannel baseChan
  else publicChannel baseChan.

(** [c.subscribedChannels[channelName] = ch]; a nil map panics. *)
Definition register (channelName : string) (ch : nat) : M unit :=
  c ← getClient;
  match subscribedChannels c with
  | Some m => update (set_subscribedChannels (Some (<[channelName := ch]> m)))
  | None => panic "assignment to entry in nil map"
  end.

Definition Subscribe (channelName : string) (opts : list SubscribeOption)
  : M (nat * option error) :=
  c ← getClient;
  ch ← match subscribedChannels c ≫= (.!! channelName) with
       | Some ch => mret ch
       | None =>
           ch ← new (newChannel channelName);
           register channelName ch ;;
           mret ch
       end;
  err ← channel_Subscribe ch opts;
  mret (ch, err).

(** The result is [(nil, err)] for a bad name; the type assertion to the
    presence variant panics on another variant. *)
Definition SubscribePresence (channelName : string) (opts : list SubscribeOption)
  : M (option nat * option error) :=
  if negb (String.prefix "presence-" channelName)
  then mret (None, Some (ErrInvalidPresenceChannelName channelName))
  else
    '(ch, subscribeErr) ← Subscribe channelName opts;
    obj ← deref_channel ch;
    match obj with
    | presenceChannel _ => mret (Some ch, subscribeErr)
    | _ => panic "interface conversion: not *pusher.presenceChannel"
    end.

(** *** The reset channel seen from both ends *)

(** The [case <-c.activityTimerReset] arm of the [select] in [heartbeat]:
    it fires when a reset is pending, and takes it. *)
Definition heartbeatTakesReset : M bool :=
  c ← getClient;
  match activityTimerReset c ≫= dequeue with
  | Some (_, ch) => update (set_activityTimerReset (Some ch)) ;; mret true
  | None => mret false
  end.

(** One step of traffic on the reset channel: a caller asks for a reset,
    or the heartbeat loop comes round to its [select]. *)
Inductive timerStep := requestReset | heartbeatWakes.

Definition timerRun (s : timerStep) : M unit :=
  match s with
  | requestReset => resetActivityTimer
  | heartbeatWakes => heartbeatTakesReset ;; mret tt
  end.

Definition pendingResets (w : World) : nat :=
  match activityTimerReset (client w) with
  | Some ch => pending ch
  | None => 0
  end.

End Pusher.

Import Chan Pusher.
Local Open Scope Z_scope.
Local Open Scope list_scope.

(* ===================================================================== *)
(** ** Vocabulary of the statements *)
(* ===================================================================== *)

(** [stable f m]: whatever way [m] ends, it leaves the observation [f] of
    the world as it found it. *)
Definition stable {A X} (f : World -> X) (m : M A) : Prop :=
  forall w, f (final (m w)) = f w.

(** The buffer of the reset channel has one slot and never holds more. *)
Definition oneSlot (w : World) : Prop :=
  exists ch, activityTimerReset (client w) = Some ch /\ cap ch = 1%nat /\ (pending ch <= 1)%nat.

(** What [Close] returns on a connection, and the connection after it. *)
Definition closeResult (conn : Conn) : option error :=
  if (0 <? closes conn)%nat then Some closedConn else closeErr conn.

Definition closedOnce (conn : Conn) : Conn :=
  {| incoming := incoming conn; outgoing := outgoing conn; writeErr := writeErr conn;
     closes := S (closes conn); closeErr := closeErr conn |}.

(** [keeps w w']: between [w] and [w'] the client has changed at most in
    the content of its reset channel, no connection or channel object was
    added or dropped, and no goroutine was started, no sleep taken and no
    dial made. *)
Definition keeps (w w' : World) : Prop :=
  set_activityTimerReset None (client w') = set_activityTimerReset None (client w) /\
  (cap <$> activityTimerReset (client w')) = (cap <$> activityTimerReset (client w)) /\
  length (conns w') = length (conns w) /\
  length (heap w') = length (heap w) /\
  goroutines w' = goroutines w /\
  slept w' = slept w /\
  network w' = network w.

(** The client holds a dialled connection. *)
Definition dialled (w : World) : Prop :=
  exists h, ws (client w) = Some h /\ (h < length (conns w))%nat.

(** Every entry of the registry points to a channel object. *)
Definition wfRegistry (w : World) : Prop :=
  forall m channelName l,
    subscribedChannels (client w) = Some m -> m !! channelName = Some l ->
    (l < length (heap w))%nat.

(** [m] returns in [w], and its result and final world satisfy [Q]. *)
Definition returnsTo {A} (m : M A) (w : World) (Q : A -> World -> Prop) : Prop :=
  exists a w', m w = Returns a w' /\ Q a w'.

(** What the back-off loop depends on and what it leaves behind: the
    delay, the pong failure count, the error sink and the sleeps taken. *)
Definition loopObs (w : World) : Z * Z * option (chan error) * list Z :=
  (ReconnectDelay (client w), pongFailures (client w), Errors (client w), slept w).

(** The zero value [connectInternal] decodes the connection data into. *)
Definition zeroConnData : connectionData := {| SocketID := ""; ActivityTimeout := 0 |}.

(** Whether a handshake over this dial attempt ends in an error: the dial
    fails, or the first receive does, or the first frame is [pusher:error],
    or is [pusher:connection_established] with data that does not decode,
    or is any other event. *)
Definition handshakeFails (a : Attempt) : bool :=
  match a with
  | DialFails _ => true
  | DialOk conn =>
      (0 <? closes conn)%nat ||
      match incoming conn with
      | [] => true
      | RecvErr _ :: _ => true
      | RecvEvent event :: _ =>
          if String.eqb (evEvent event) pusherError then true
          else if String.eqb (evEvent event) pusherConnEstablished then
            (if UnmarshalDataString (evData event) zeroConnData is inl _ then true else false)
          else true
      end
  end.

(** The first dial succeeds and [event] is the first frame the connection
    delivers. *)
Definition firstFrame (w : World) (event : Event) (conn : Conn) : Prop :=
  exists rest more,
    network w = DialOk conn :: rest /\ closes conn = 0%nat /\
    incoming conn = RecvEvent event :: more.

(** The world in which [connectInternal] looks at the first frame: the
    connection is dialled, stored in [c.ws], and its first frame consumed. *)
Definition afterFirstFrame (w : World) (conn : Conn) : World := {|
  client := set_ws (Some (length (conns w))) (client w);
  conns := conns w ++ [ {| incoming := tail (incoming conn); outgoing := outgoing conn;
                           writeErr := writeErr conn; closes := closes conn;
                           closeErr := closeErr conn |} ];
  network := tail (network w);
  heap := heap w;
  goroutines := goroutines w;
  slept := slept w;
  authReplies := authReplies w
|}.

(** The world in which [Connect] starts the handshake: the session
    settings are at their initial values. *)
Definition prepared (appKey : string) (w : World) : World :=
  with_client
    (set_pongFailures 0
       (set_ReconnectDelay initialReconnectDelay
          (set_pongTimeout defaultPongTimeout (set_appKey appKey (client w))))) w.

(** The zero value [extractEventError] decodes into. *)
Definition zeroEventError : EventError := {| Code := 0; Message := "" |}.

(** A connection, not yet closed, that will deliver the given frames. *)
Definition serving (frames : list Received) : Conn :=
  {| incoming := frames; outgoing := []; writeErr := None; closes := 0; closeErr := None |}.

(** A [pusher:connection_established] frame with the given raw data. *)
Definition established (data : string) : Received :=
  RecvEvent {| evEvent := pusherConnEstablished; evData := Raw data; evChannel := "" |}.

(** The world of a client made by [&Client{}], facing the given network. *)
Definition fresh (net : list Attempt) : World :=
  {| client := zeroClient; conns := []; network := net; heap := []; goroutines := [];
     slept := []; authReplies := [] |}.

(** One step of the back-off: [min(c.ReconnectDelay*2, maxReconnectDelay)]. *)
Definition backoff (d : Z) : Z := min (Time.mul d 2) maxReconnectDelay.

(** The first [n] delays of a back-off loop entered with delay [d]. *)
Fixpoint delays (d : Z) (n : nat) : list Z :=
  match n with
  | O => []
  | S n => d :: delays (backoff d) n
  end.

(** The sequence of the specification: [d_0 = 1 s] and
    [d_{n+1} = min(2 * d_n, 60 s)], in unbounded integers. *)
Fixpoint claimedDelay (n : nat) : Z :=
  match n with
  | O => 1 * Time.Second
  | S n => Z.min (2 * claimedDelay n) (60 * Time.Second)
  end.

(** The world in which one iteration of the back-off loop calls
    [connectInternal]: the delay has been doubled, the attempt announced
    to the error sink and the old delay slept. *)
Definition attempted (w : World) : World :=
  let d := ReconnectDelay (client w) in
  let w1 := with_client (set_ReconnectDelay (backoff d) (client w)) w in
  let w2 := match try_send (Errors (client w1)) (ErrAttemptingReconnection d) with
            | Some ch => with_client (set_Errors (Some ch) (client w1)) w1
            | None => w1
            end in
  with_slept (slept w2 ++ [d]) w2.

(** The delay and the pong failure count. *)
Definition backoffObs (w : World) : Z * Z :=
  (ReconnectDelay (client w), pongFailures (client w)).

(** Two channel objects of the same variant. *)
Definition sameVariant (a b : internalChannel) : bool :=
  match a, b with
  | publicChannel _, publicChannel _ => true
  | privateChannel _, privateChannel _ => true
  | presenceChannel _, presenceChannel _ => true
  | _, _ => false
  end.

(** Every entry of the registry points to an object of the variant its
    name calls for, as the entries [Subscribe] makes do. *)
Definition typedRegistry (w : World) : Prop :=
  forall m channelName l,
    subscribedChannels (client w) = Some m -> m !! channelName = Some l ->
    exists ch, heap w !! l = Some ch /\ sameVariant ch (newChannel channelName) = true.

(** A decoding [r] succeeds or fails as [fits] says. *)
Definition accepts {A} (r : result A) (fits : bool) : Prop :=
  if fits then exists a, r = Ok a else exists e, r = Err e.

(* ===================================================================== *)
(** ** The rest of [client.go] *)
(* ===================================================================== *)

Definition isConnected : M bool :=
  c ← getClient;
  mret (connected c).

(** Modelled from the spec: the channel-level [Unsubscribe] is declared
    outside [client.go]; it sends a [pusher:unsubscribe] frame for the
    channel. *)
Definition channel_Unsubscribe (l : nat) : M (option error) :=
  ch ← deref_channel l;
  SendEvent pusherUnsubscribe (JObject [("channel", JString (name (base_of ch)))]) "".

Definition Unsubscribe (channelName : string) : M (option error) :=
  c ← getClient;
  match subscribedChannels c ≫= (.!! channelName) with
  | None => mret None
  | Some ch =>
      (* delete(c.subscribedChannels, channelName) *)
      update (fun c => set_subscribedChannels (delete channelName <$> subscribedChannels c) c) ;;
      channel_Unsubscribe ch
  end.

(** [Bind]: [boundChan] is the channel [make(chan Event)] returns.  The
    bindings are sets of channels by event name; writing to a nil map
    panics. *)
Definition Bind (event : string) (boundChan : nat) : M nat :=
  c ← getClient;
  match boundEvents c with
  | None => panic "assignment to entry in nil map"
  | Some m =>
      (* if c.boundEvents[event] == nil { c.boundEvents[event] = boundEventChans{} } *)
      let m := if m !! event is None then <[event := ∅]> m else m in
      (* c.boundEvents[event][boundChan] = struct{}{} *)
      let m := alter (fun chans => {[boundChan]} ∪ chans) event m in
      update (set_boundEvents (Some m)) ;;
      mret boundChan
  end.

(** [delete(eventBoundChans, boundChan)] for each of [chans], in order. *)
Definition unbindChans (chans : list nat) (eventBoundChans : gset nat) : gset nat :=
  fold_left (fun bound boundChan => bound ∖ {[boundChan]}) chans eventBoundChans.

(** [Unbind]: deleting from a nil map does nothing. *)
Definition Unbind (event : string) (chans : list nat) : M unit :=
  if (length chans =? 0)%nat
  then update (fun c => set_boundEvents (delete event <$> boundEvents c) c)
  else update (fun c => set_boundEvents (alter (unbindChans chans) event <$> boundEvents c) c).

(** The frame [pongPayload], as the event it encodes. *)
Definition pongEvent : Event :=
  {| evEvent := pusherPong; evData := Raw (text "'{}'"); evChannel := "" |}.

(** [websocket.Message.Send(ws, payload)], with the text frame recorded as
    the event it encodes. *)
Definition websocket_Message_Send (p : option nat) (payload : Event) : M (option error) :=
  websocket_JSON_Send p payload.

(** [errors.Is(err, io.EOF)] *)
Definition isEOF (err : error) : bool :=
  match err with
  | ErrEOF => true
  | _ => false
  end.

(** How one turn of the loop of [listen] ends: the loop goes on, having
    started a goroutine for each of the listed deliveries of an event to a
    bound channel, or [listen] returns. *)
Inductive turn :=
| goesOn (started : list (nat * Event))
| returns.

(** The [switch event.Event] of [listen], on a frame received.
    [handleEvent] is the method of the channel types, declared outside
    [client.go]. *)
Definition listenEvent (handleEvent : nat -> string -> RawMessage -> M unit)
           (event : Event) : M turn :=
  c ← getClient;
  if String.eqb (evEvent event) pusherPing then
    websocket_Message_Send (ws c) pongEvent ;; mret (goesOn [])
  else if String.eqb (evEvent event) pusherPong then
    (* Signal that pong was received *)
    match try_send (pongReceived c) tt with
    | Some ch => update (set_pongReceived (Some ch))
    | None => mret tt
    end ;;
    mret (goesOn [])
  else if String.eqb (evEvent event) pusherError then
    sendError (extractEventError event) ;; mret (goesOn [])
  else
    let bound := default ∅ (boundEvents c ≫= (.!! evEvent event)) in
    let started := (fun boundChan => (boundChan, event)) <$> elements bound in
    match subscribedChannels c ≫= (.!! evChannel event) with
    | Some subChan => handleEvent subChan (evEvent event) (evData event)
    | None => mret tt
    end ;;
    mret (goesOn started).

(** One turn of the [for c.isConnected()] loop of [listen].
    [meanwhile] is what other goroutines do while [listen] is parked in
    [Receive]; [fuel] bounds the reconnection it may start. *)
Definition listenTurn (handleEvent : nat -> string -> RawMessage -> M unit)
           (meanwhile : M unit) (fuel : nat) : M turn :=
  c ← getClient;
  if negb (connected c) then mret returns
  else if done c is Some Closed then mret returns
  else
    meanwhile ;;
    c ← getClient;
    r ← websocket_JSON_Receive (ws c);
    match r with
    | inl err =>
        (* If the websocket connection was closed, Receive will return an error.
           This is expected for an explicit disconnect. *)
        c ← getClient;
        if negb (connected c) then mret returns
        else
          sendError err ;;
          (* If EOF, the connection has been closed *)
          if isEOF err then attemptReconnect fuel ;; mret returns
          else mret (goesOn [])
    | inr event =>
        resetActivityTimer ;;
        listenEvent handleEvent event
    end.

(** The configuration [generateConnURL] reads from the client. *)
Record Config := {
  Cluster : string;
  Insecure : bool;
  OverrideHost : string;
  OverridePort : Z
}.

Definition secureScheme := "wss".
Definition securePort : Z := 443.
Definition insecureScheme := "ws".
Definition insecurePort : Z := 80.
Definition defaultHost := "ws.pusherapp.com".
Definition protocolVersion := "7".

(** The scheme, host and port of [generateConnURL]. *)
Definition connScheme (c : Config) : string :=
  if Insecure c then insecureScheme else secureScheme.

Definition connPort (c : Config) : Z :=
  let port := if Insecure c then insecurePort else securePort in
  if negb (OverridePort c =? 0) then OverridePort c else port.

Definition connHost (c : Config) : string :=
  let host := defaultHost in
  let host := if negb (String.eqb (Cluster c) "") then "ws-" +:+ Cluster c +:+ ".pusher.com" else host in
  if negb (String.eqb (OverrideHost c) "") then OverrideHost c else host.

(** [fmt.Sprintf("%s://%s:%d/app/%s?protocol=%s", ...)] *)
Definition generateConnURL (c : Config) (appKey : string) : string :=
  connScheme c +:+ "://" +:+ connHost c +:+ ":" +:+ pretty (connPort c)
    +:+ "/app/" +:+ appKey +:+ "?protocol=" +:+ protocolVersion.

(** What [Close] and the writes of a connection depend on, for every
    connection dialled so far. *)
Definition wires (w : World) : list (nat * option error * option error) :=
  (fun conn => (closes conn, closeErr conn, writeErr conn)) <$> conns w.

(** A connection after one more frame was written to it. *)
Definition sent (e : Event) (conn : Conn) : Conn :=
  {| incoming := incoming conn; outgoing := outgoing conn ++ [e]; writeErr := writeErr conn;
     closes := closes conn; closeErr := closeErr conn |}.

(** A connection after its next frame was read. *)
Definition received (conn : Conn) : Conn :=
  {| incoming := tail (incoming conn); outgoing := outgoing conn; writeErr := writeErr conn;
     closes := closes conn; closeErr := closeErr conn |}.

(** The world a call of [resetActivityTimer] leaves. *)
Definition resetRequested (w : World) : World :=
  match try_send (activityTimerReset (client w)) tt with
  | Some ch => with_client (set_activityTimerReset (Some ch) (client w)) w
  | None => w
  end.

(** The world a call of [sendError] leaves. *)
Definition errorSent (err : error) (w : World) : World :=
  match try_send (Errors (client w)) err with
  | Some ch => with_client (set_Errors (Some ch) (client w)) w
  | None => w
  end.

(** The registry and the channel objects. *)
Definition channels (w : World) : option (gmap string nat) * list internalChannel :=
  (subscribedChannels (client w), heap w).

(** The channels bound to an event name: those [listen] delivers an event
    of that name to. *)
Definition boundTo (w : World) (event : string) : gset nat :=
  default ∅ (boundEvents (client w) ≫= (.!! event)).

(** The frame [channel.Unsubscribe] sends for a channel object. *)
Definition unsubscribeFrame (ch : internalChannel) : Event :=
  {| evEvent := pusherUnsubscribe;
     evData := Raw (encode (JObject [("channel", JString (name (base_of ch)))]));
     evChannel := "" |}.

(** The calls an application makes on the registry. *)
Inductive registryCall :=
| callSubscribe (channelName : string) (opts : list SubscribeOption)
| callSubscribePresence (channelName : string) (opts : list SubscribeOption)
| callUnsubscribe (channelName : string).

Definition runCall (call : registryCall) : M unit :=
  match call with
  | callSubscribe channelName opts => Subscribe channelName opts ;; mret tt
  | callSubscribePresence channelName opts => SubscribePresence channelName opts ;; mret tt
  | callUnsubscribe channelName => Unsubscribe channelName ;; mret tt
  end.

(** [listen] enters a turn in [w]: the client is connected and the
    session not cancelled.  While [listen] waits in [Receive] the other
    goroutines take the world to [w1], where the connection [h] of the
    client holds [conn] and is open. *)
Definition awaits (meanwhile : M unit) (w w1 : World) (h : nat) (conn : Conn) : Prop :=
  connected (client w) = true /\ done (client w) <> Some Closed /\
  meanwhile w = Returns tt w1 /\
  ws (client w1) = Some h /\ conns w1 !! h = Some conn /\ closes conn = 0%nat.

(** The world in which [listen] looks at a frame it received on the
    connection [h]: the frame is consumed and a timer reset requested. *)
Definition frameTaken (h : nat) (conn : Conn) (w1 : World) : World :=
  resetRequested (with_conns (<[h := received conn]> (conns w1)) w1).

(** An event of the application: none of the three the client handles
    itself. *)
Definition applicationEvent (event : Event) : bool :=
  negb (String.eqb (evEvent event) pusherPing)
  && negb (String.eqb (evEvent event) pusherPong)
  && negb (String.eqb (evEvent event) pusherError).

(** The deliveries [listen] starts for an event, one goroutine each. *)
Definition deliveries (w : World) (event : Event) : list (nat * Event) :=
  (fun boundChan => (boundChan, event)) <$> elements (boundTo w (evEvent event)).

(** The world after the non-blocking send on [c.pongReceived]. *)
Definition pongSignalled (w : World) : World :=
  match try_send (pongReceived (client w)) tt with
  | Some ch => with_client (set_pongReceived (Some ch) (client w)) w
  | None => w
  end.

(** The world after [listen] answered a ping on the connection [h]: the
    pong frame is written, unless the write fails. *)
Definition pingAnswered (h : nat) (w : World) : World :=
  match conns w !! h with
  | Some conn =>
      if writeErr conn is None then with_conns (<[h := sent pongEvent conn]> (conns w)) w else w
  | None => w
  end.

(** The world after the session on the connection [h] was torn down, by
    [Disconnect] or by [attemptReconnect]: the done channel is closed, the
    client marked disconnected and the connection closed once more. *)
Definition tornDown (h : nat) (conn : Conn) (w : World) : World :=
  with_conns (<[h := closedOnce conn]> (conns w))
    (with_client
       (set_connected false
          (set_done (if done (client w) is Some _ then Some Closed else None) (client w))) w).

(** The error sink after a non-blocking send of [err]: it holds the
    error when it could take it, and is as it was otherwise. *)
Definition offered (err : error) (sink : option (chan error)) : option (chan error) :=
  match try_send sink err with
  | Some ch => Some ch
  | None => sink
  end.

(** The error sink after the reports [errs], made in this order. *)
Definition sinkAfter (errs : list error) (sink : option (chan error)) : option (chan error) :=
  fold_left (fun s err => offered err s) errs sink.

(* ===================================================================== *)
(** * Properties *)
(* ===================================================================== *)

(** ** Reasoning about computations *)

Lemma bind_returns {A B} (m : M A) (k : A -> M B) (w w' : World) (a : A) :
  m w = Returns a w' -> (m ≫= k) w = k a w'.
Proof. intros H. unfold mbind, M_bind. by rewrite H. Qed.

Lemma bind_unfold {A B} (m : M A) (k : A -> M B) (w : World) :
  (m ≫= k) w =
  match m w with
  | Returns a w' => k a w'
  | Panics why w' => Panics why w'
  | Blocks w' => Blocks w'
  | Running w' => Running w'
  end.
Proof. reflexivity. Qed.

Lemma stable_ret {A X} (f : World -> X) (a : A) : stable f (mret a).
Proof. by intros w. Qed.

Lemma stable_bind {A B X} (f : World -> X) (m : M A) (k : A -> M B) :
  stable f m -> (forall a, stable f (k a)) -> stable f (m ≫= k).
Proof.
  intros Hm Hk w. rewrite bind_unfold. specialize (Hm w).
  destruct (m w) as [a w'| |? |?]; simpl in *; try done.
  by rewrite Hk.
Qed.

Lemma stable_forEach {A X} (f : World -> X) (l : list A) (body : A -> M unit) :
  (forall x, stable f (body x)) -> stable f (forEach l body).
Proof.
  intros Hb. induction l as [|x l IH]; simpl.
  - apply stable_ret.
  - apply stable_bind; [apply Hb | intros _; apply IH].
Qed.

Arguments Time.wrap64 : simpl never.
Arguments Time.mul : simpl never.

(** Follow a computation through its binds as far as the world is known. *)
Ltac run := repeat (rewrite ?bind_unfold; simpl).

Lemma bind_getClient {B} (k : Client -> M B) (w : World) :
  (getClient ≫= k) w = k (client w) w.
Proof. reflexivity. Qed.

Lemma bind_go {B} (t : Task) (k : unit -> M B) (w : World) :
  (go t ≫= k) w = k tt (with_goroutines (goroutines w ++ [t]) w).
Proof. reflexivity. Qed.

Lemma bind_update {B} (f : Client -> Client) (k : unit -> M B) (w : World) :
  (update f ≫= k) w = k tt (with_client (f (client w)) w).
Proof. reflexivity. Qed.

Lemma client_eta_reset (c : Client) :
  set_activityTimerReset (activityTimerReset c) c = c.
Proof. by destruct c. Qed.

Lemma client_eta_Errors (c : Client) : set_Errors (Errors c) c = c.
Proof. by destruct c. Qed.

Lemma world_eta_client (w : World) : with_client (client w) w = w.
Proof. by destruct w. Qed.

(** ** The activity-timer reset *)

(** The world after a call of [resetActivityTimer], in closed form. *)
Lemma resetActivityTimer_spec (w : World) :
  resetActivityTimer w =
  Returns tt
    match try_send (activityTimerReset (client w)) tt with
    | Some ch => with_client (set_activityTimerReset (Some ch) (client w)) w
    | None => w
    end.
Proof.
  unfold resetActivityTimer. rewrite bind_unfold. simpl.
  by destruct (try_send _ _).
Qed.

Lemma heartbeatTakesReset_spec (w : World) :
  exists b w', heartbeatTakesReset w = Returns b w' /\
    (pendingResets w' <= pendingResets w)%nat /\
    (cap <$> activityTimerReset (client w')) = (cap <$> activityTimerReset (client w)).
Proof.
  unfold heartbeatTakesReset. rewrite bind_unfold. simpl.
  unfold pendingResets.
  destruct (activityTimerReset (client w)) as [ch|] eqn:E; simpl.
  - unfold dequeue, pending. destruct (buf ch) as [|v rest] eqn:Eb; simpl.
    + exists false, w. by rewrite E, Eb.
    + eexists true, _. split; [reflexivity|]. simpl. split; [lia | done].
  - exists false, w. by rewrite E.
Qed.

Lemma timerRun_returns (s : timerStep) (w : World) :
  exists w', timerRun s w = Returns tt w'.
Proof.
  destruct s; simpl.
  - rewrite resetActivityTimer_spec. eauto.
  - rewrite bind_unfold. destruct (heartbeatTakesReset_spec w) as (b & w' & -> & _). eauto.
Qed.

Lemma timerRun_oneSlot (s : timerStep) (w : World) :
  oneSlot w -> exists w', timerRun s w = Returns tt w' /\ oneSlot w'.
Proof.
  intros (ch & E & Hc & Hp). destruct s; simpl.
  - rewrite resetActivityTimer_spec. eexists; split; [reflexivity|].
    rewrite E. simpl. unfold can_send, put. rewrite Hc.
    destruct (pending ch <? 1)%nat eqn:Hlt; simpl.
    + eexists; split; [reflexivity|]. split; [done|].
      unfold pending in *. simpl. rewrite length_app. simpl.
      apply Nat.ltb_lt in Hlt. lia.
    + exists ch. by rewrite E.
  - rewrite bind_unfold.
    destruct (heartbeatTakesReset_spec w) as (b & w' & -> & Hle & Hcap).
    eexists; split; [reflexivity|].
    rewrite E in Hcap. unfold pendingResets in Hle. rewrite E in Hle.
    destruct (activityTimerReset (client w')) as [ch'|] eqn:E'; [|done].
    exists ch'. simpl in Hcap. injection Hcap as Hcap.
    split; [done|]. split; [congruence | lia].
Qed.

(** C3. [resetActivityTimer] never blocks the caller, in any state of the
    client and however often it is called: it always returns, and changes
    nothing but the reset channel.  On the one-slot channel that the
    handshake allocates, a call made when no reset is pending leaves exactly
    one reset in the buffer, and a call made when one is pending is dropped
    and changes nothing.  Along any sequence of reset requests, interleaved
    in any way with the heartbeat loop taking a reset, every step returns
    and at most one reset is pending. *)
Theorem resetActivityTimer_never_blocks_and_coalesces :
  (forall w, exists w',
      resetActivityTimer w = Returns tt w' /\
      w' = with_client (set_activityTimerReset (activityTimerReset (client w')) (client w)) w) /\
  (forall w ch,
      activityTimerReset (client w) = Some ch -> cap ch = 1%nat -> pending ch = 0%nat ->
      exists w', resetActivityTimer w = Returns tt w' /\
        activityTimerReset (client w') = Some (Mk 1 [tt] (receivers ch) (delivered ch)) /\
        pendingResets w' = 1%nat) /\
  (forall w ch,
      activityTimerReset (client w) = Some ch -> cap ch = 1%nat -> pending ch = 1%nat ->
      resetActivityTimer w = Returns tt w) /\
  (forall w, activityTimerReset (client w) = None -> resetActivityTimer w = Returns tt w) /\
  (forall steps w, exists w', forEach steps timerRun w = Returns tt w') /\
  (forall steps w, oneSlot w ->
      exists w', forEach steps timerRun w = Returns tt w' /\ (pendingResets w' <= 1)%nat).
Proof.
  repeat split.
  - intros w. rewrite resetActivityTimer_spec. eexists; split; [reflexivity|].
    destruct (try_send _ _); simpl.
    + done.
    + by rewrite client_eta_reset, world_eta_client.
  - intros w ch E Hc Hp. rewrite resetActivityTimer_spec. eexists; split; [reflexivity|].
    rewrite E. simpl. unfold can_send, put. rewrite Hc, Hp. simpl.
    unfold pendingResets. simpl. unfold pending in *.
    destruct (buf ch); [|done]. done.
  - intros w ch E Hc Hp. rewrite resetActivityTimer_spec.
    rewrite E. simpl. unfold can_send. by rewrite Hc, Hp.
  - intros w E. rewrite resetActivityTimer_spec. by rewrite E.
  - induction steps as [|s steps IH]; intros w; simpl.
    + by exists w.
    + rewrite bind_unfold. destruct (timerRun_returns s w) as (w1 & ->). apply IH.
  - induction steps as [|s steps IH]; intros w Hw; simpl.
    + exists w. split; [done|]. destruct Hw as (ch & E & _ & Hp).
      unfold pendingResets. by rewrite E.
    + rewrite bind_unfold. destruct (timerRun_oneSlot s w Hw) as (w1 & -> & Hw1).
      by apply IH.
Qed.

(** The client of the reset test, with its one-slot channel: the first
    request is buffered, the second is dropped. *)
Lemma resetActivityTimer_witness :
  let w := {| client := set_activityTimerReset (Some (make 1)) zeroClient; conns := [];
              network := []; heap := []; goroutines := []; slept := []; authReplies := [] |} in
  exists w1,
    resetActivityTimer w = Returns tt w1 /\
    pendingResets w1 = 1%nat /\
    resetActivityTimer w1 = Returns tt w1 /\
    exists w2, forEach [requestReset; requestReset; heartbeatWakes; requestReset] timerRun w
               = Returns tt w2 /\ (pendingResets w2 <= 1)%nat.
Proof.
  intros w.
  destruct (proj1 (proj2 resetActivityTimer_never_blocks_and_coalesces) w (make 1)
              eq_refl eq_refl eq_refl) as (w1 & H1 & H2 & H3).
  exists w1. split; [exact H1|]. split; [exact H3|]. split.
  - exact (proj1 (proj2 (proj2 resetActivityTimer_never_blocks_and_coalesces)) w1 _
             H2 eq_refl eq_refl).
  - apply (proj2 (proj2 (proj2 (proj2 (proj2 resetActivityTimer_never_blocks_and_coalesces))))).
    exists (make 1). split; [reflexivity|]. split; [reflexivity|]. unfold pending. simpl. lia.
Defined.

(** ** The error sink *)

Lemma sendError_spec (err : error) (w : World) :
  sendError err w =
  Returns tt
    match try_send (Errors (client w)) err with
    | Some ch => with_client (set_Errors (Some ch) (client w)) w
    | None => w
    end.
Proof.
  unfold sendError. rewrite bind_unfold. simpl.
  destruct (Errors (client w)) as [ch|]; simpl; [|done].
  by destruct (can_send ch).
Qed.

(** C8. [sendError] never blocks: for every error and every world it
    returns.  With no sink configured, or with a sink that cannot take a
    value at that moment (its buffer, if it has one, is full, and on an
    unbuffered sink no consumer is waiting), the error is dropped and the
    world is unchanged.  Otherwise the error is delivered: it becomes the
    newest value in the sink (buffered, or handed to the waiting consumer)
    and nothing else changes. *)
Theorem sendError_never_blocks_drops_or_delivers :
  forall (err : error) (w : World),
    (exists w', sendError err w = Returns tt w') /\
    (Errors (client w) = None -> sendError err w = Returns tt w) /\
    (forall ch, Errors (client w) = Some ch -> can_send ch = false ->
       sendError err w = Returns tt w) /\
    (forall ch, Errors (client w) = Some ch -> can_send ch = true ->
       sendError err w = Returns tt (with_client (set_Errors (Some (put ch err)) (client w)) w) /\
       ((buf (put ch err) = buf ch ++ [err] /\ delivered (put ch err) = delivered ch) \/
        (buf (put ch err) = buf ch /\ delivered (put ch err) = delivered ch ++ [err] /\
         (0 < receivers ch)%nat))).
Proof.
  intros err w. rewrite sendError_spec. repeat split.
  - eauto.
  - by intros ->.
  - intros ch -> Hc. simpl. by rewrite Hc.
  - simpl in *. rewrite H. simpl. by rewrite H0.
  - unfold can_send, put in *.
    destruct (pending ch <? cap ch)%nat; simpl in *; [by left|].
    right. apply andb_true_iff in H0 as [_ H0]. apply Nat.ltb_lt in H0. done.
Qed.

(** A sink with room (as the tests make it, [make(chan error, 10)]) takes
    the error; an error sent to a full one-slot sink is dropped. *)
Lemma sendError_witness :
  let w := {| client := set_Errors (Some (make 1)) zeroClient; conns := []; network := [];
              heap := []; goroutines := []; slept := []; authReplies := [] |} in
  let w1 := with_client (set_Errors (Some (put (make 1) ErrEOF)) (client w)) w in
  sendError ErrEOF w = Returns tt w1 /\
  sendError ErrReconnectionSuccessful w1 = Returns tt w1.
Proof.
  intros w w1. split.
  - exact (proj1 (proj2 (proj2 (proj2 (sendError_never_blocks_drops_or_delivers ErrEOF w)))
                   (make 1) eq_refl eq_refl)).
  - exact (proj1 (proj2 (proj2 (sendError_never_blocks_drops_or_delivers ErrReconnectionSuccessful w1)))
                   (put (make 1) ErrEOF) eq_refl eq_refl).
Defined.

(** ** Double-encoded data *)

(** Induction on JSON values, through the items of arrays and the
    members of objects. *)
Lemma value_ind_nested (P : value -> Prop) :
  P JNull ->
  (forall b, P (JBool b)) ->
  (forall literal, P (JNumber literal)) ->
  (forall s, P (JString s)) ->
  (forall items, Forall P items -> P (JArray items)) ->
  (forall fields, Forall (fun kv => P (snd kv)) fields -> P (JObject fields)) ->
  forall v, P v.
Proof.
  intros Hnull Hbool Hnum Hstr Harr Hobj.
  fix IH 1. intros [|b|literal|s|items|fields].
  - exact Hnull.
  - apply Hbool.
  - apply Hnum.
  - apply Hstr.
  - apply Harr. revert items. fix IHitems 1. intros [|v items].
    + constructor.
    + constructor; [apply IH|apply IHitems].
  - apply Hobj. revert fields. fix IHfields 1. intros [|kv fields].
    + constructor.
    + constructor; [apply IH|apply IHfields].
Qed.

Lemma to_any_array (items : list value) :
  to_any (JArray items)
  = match to_any_items items with Ok l => Ok (GoSlice l) | Err e => Err e end.
Proof. reflexivity. Qed.

Lemma to_any_object (fields : list (string * value)) :
  to_any (JObject fields)
  = match store_members fields ∅ with Ok m => Ok (GoMap m) | Err e => Err e end.
Proof. reflexivity. Qed.

Lemma numbers_fit_array (items : list value) :
  numbers_fit (JArray items) = forallb numbers_fit items.
Proof. reflexivity. Qed.

Lemma numbers_fit_object (fields : list (string * value)) :
  numbers_fit (JObject fields) = forallb (fun kv => numbers_fit (snd kv)) fields.
Proof. reflexivity. Qed.

Lemma store_members_fit (fields : list (string * value)) :
  Forall (fun kv => accepts (to_any (snd kv)) (numbers_fit (snd kv))) fields ->
  forall m, accepts (store_members fields m) (forallb (fun kv => numbers_fit (snd kv)) fields).
Proof.
  induction 1 as [|kv fields Hkv _ IH]; intros m; cbn [store_members forallb].
  - by exists m.
  - unfold accepts in Hkv. destruct (numbers_fit (snd kv)); cbn [andb].
    + destruct Hkv as [a ->]. apply IH.
    + destruct Hkv as [e ->]. by exists e.
Qed.

Lemma to_any_fits (v : value) : accepts (to_any v) (numbers_fit v).
Proof.
  induction v as [|b|literal|s|items IH|fields IH] using value_ind_nested.
  - by exists GoNil.
  - by exists (GoBool b).
  - cbn [to_any numbers_fit]. destruct (ParseFloat literal) as [f|].
    + by exists (GoFloat64 f).
    + by eexists.
  - by exists (GoString s).
  - rewrite to_any_array, numbers_fit_array.
    assert (H : accepts (to_any_items items) (forallb numbers_fit items)).
    { induction IH as [|v items Hv _ IHitems]; cbn [to_any_items forallb].
      - by exists [].
      - unfold accepts in Hv. destruct (numbers_fit v); cbn [andb].
        + destruct Hv as [a ->]. unfold accepts in IHitems.
          destruct (forallb numbers_fit items).
          * destruct IHitems as [l ->]. by eexists.
          * destruct IHitems as [e ->]. by exists e.
        + destruct Hv as [e ->]. by exists e. }
    unfold accepts in *. destruct (forallb numbers_fit items).
    + destruct H as [l ->]. by eexists.
    + destruct H as [e ->]. by exists e.
  - rewrite to_any_object, numbers_fit_object.
    pose proof (store_members_fit fields IH ∅) as H.
    unfold accepts in *. destruct (forallb _ fields).
    + destruct H as [m ->]. by eexists.
    + destruct H as [e ->]. by exists e.
Qed.

Lemma accepts_Ok {A} (r : result A) (fits : bool) :
  accepts r fits -> ((exists a, r = Ok a) <-> fits = true).
Proof.
  unfold accepts. destruct fits.
  - by intros H.
  - intros [e ->]. split; [by intros [a ?]|done].
Qed.

(** The two decodings of [UnmarshalDataString], by what the input is. *)
Lemma UnmarshalDataString_cases {T} (store : value -> T -> result T)
      (data : RawMessage) (dest : T) :
  @UnmarshalDataString T (decode_with store) data dest
  = match parse (raw_bytes data) with
    | None => inl (ErrUnmarshalToString SyntaxError)
    | Some (JString s) =>
        match parse s with
        | None => inl (ErrUnmarshalToDestination SyntaxError)
        | Some content =>
            match store content dest with
            | Ok v => inr v
            | Err e => inl (ErrUnmarshalToDestination e)
            end
        end
    | Some JNull => inl (ErrUnmarshalToDestination SyntaxError)
    | Some j => inl (ErrUnmarshalToString (UnmarshalTypeError (kind j) "string"))
    end.
Proof.
  unfold UnmarshalDataString, unmarshal, unmarshal_string, decode_with.
  destruct (parse (raw_bytes data)) as [[|b|literal|s|items|fields]|];
    cbn [into_string kind]; try reflexivity.
  destruct (parse s) as [content|]; [|reflexivity].
  by destruct (store content dest).
Qed.

Lemma UnmarshalDataString_inr {T} (store : value -> T -> result T)
      (data : RawMessage) (dest v : T) :
  @UnmarshalDataString T (decode_with store) data dest = inr v <->
  exists s content,
    parse (raw_bytes data) = Some (JString s) /\ parse s = Some content /\
    store content dest = Ok v.
Proof.
  rewrite UnmarshalDataString_cases. split.
  - destruct (parse (raw_bytes data)) as [[|b|literal|s|items|fields]|]; try discriminate.
    destruct (parse s) as [content|] eqn:Hp; [|discriminate].
    destruct (store content dest) as [v'|e] eqn:Hs; [|discriminate].
    intros [= ->]. by exists s, content.
  - intros (s & content & -> & -> & ->). reflexivity.
Qed.

Lemma into_map_accepts (content : value) (dest : gmap string any) :
  (exists v, into_map content dest = Ok v) <->
  (content = JNull \/ exists fields, content = JObject fields) /\ numbers_fit content = true.
Proof.
  destruct content as [|b|literal|s|items|fields]; cbn [into_map kind].
  - split; [intros _; split; [by left|done]|intros _; by exists ∅].
  - split; [by intros [v ?]|intros [[?|[fields ?]] _]; done].
  - split; [by intros [v ?]|intros [[?|[fields ?]] _]; done].
  - split; [by intros [v ?]|intros [[?|[fields ?]] _]; done].
  - split; [by intros [v ?]|intros [[?|[fields ?]] _]; done].
  - rewrite numbers_fit_object.
    rewrite (accepts_Ok _ _ (store_members_fit fields
               (proj2 (Forall_forall _ _) (fun kv _ => to_any_fits (snd kv))) dest)).
    split; [intros H; split; [right; by exists fields|exact H]|by intros [_ H]].
Qed.

Lemma into_string_accepts (content : value) (dest : string) :
  (exists v, into_string content dest = Ok v) <->
  (content = JNull \/ exists t, content = JString t).
Proof.
  destruct content as [|b|literal|s|items|fields]; cbn [into_string kind].
  - split; [intros _; by left|intros _; by exists dest].
  - split; [by intros [v ?]|intros [?|[t ?]]; done].
  - split; [by intros [v ?]|intros [?|[t ?]]; done].
  - split; [intros _; right; by exists s|intros _; by exists s].
  - split; [by intros [v ?]|intros [?|[t ?]]; done].
  - split; [by intros [v ?]|intros [?|[t ?]]; done].
Qed.

(** When a destination accepts exactly the contents [fits], the call
    succeeds exactly on the JSON strings whose content is valid JSON in
    [fits]. *)
Lemma UnmarshalDataString_succeeds {T} (store : value -> T -> result T) (fits : value -> Prop)
      (data : RawMessage) (dest : T) :
  (forall content, (exists v, store content dest = Ok v) <-> fits content) ->
  (exists v, @UnmarshalDataString T (decode_with store) data dest = inr v) <->
  exists s content,
    parse (raw_bytes data) = Some (JString s) /\ parse s = Some content /\ fits content.
Proof.
  intros Hfits. split.
  - intros [v H]. apply UnmarshalDataString_inr in H as (s & content & H1 & H2 & H3).
    exists s, content. split; [done|]. split; [done|]. apply Hfits. by exists v.
  - intros (s & content & H1 & H2 & H3). apply Hfits in H3 as [v H3].
    exists v. apply UnmarshalDataString_inr. by exists s, content.
Qed.

(** C9 (amended).  [UnmarshalDataString] decodes its raw input first as a
    JSON string and then decodes that string as JSON into the
    destination.  It returns no error exactly when the input is a JSON
    string whose content is valid JSON that the destination accepts, and
    the destination then holds the decoded content.  An [interface{}]
    destination accepts every content whose numbers are in the range of
    [float64]; a [map[string]interface{}] destination accepts such a
    content when it is an object or [null]; a [string] destination
    accepts a string or [null].  The input
    ["{\"foo\":\"A\",\"bar\":1}"] yields the mapping
    [{foo: "A", bar: 1}].  If either decoding step fails an error is
    returned: it wraps the error of the first step when the input is not
    valid JSON or is a JSON value other than a string or [null], and the
    error of the second step when the content is not valid JSON (as for
    the input [null], which leaves the string empty) or is refused by the
    destination. *)
Theorem UnmarshalDataString_decodes_twice :
  (forall (T : Type) (store : value -> T -> result T) (data : RawMessage) (dest : T),
     let decoded := @UnmarshalDataString T (decode_with store) data dest in
     (forall v, decoded = inr v <->
        exists s content,
          parse (raw_bytes data) = Some (JString s) /\ parse s = Some content /\
          store content dest = Ok v) /\
     (parse (raw_bytes data) = None ->
        decoded = inl (ErrUnmarshalToString SyntaxError)) /\
     (forall j, parse (raw_bytes data) = Some j -> j <> JNull -> (forall s, j <> JString s) ->
        decoded = inl (ErrUnmarshalToString (UnmarshalTypeError (kind j) "string"))) /\
     (parse (raw_bytes data) = Some JNull ->
        decoded = inl (ErrUnmarshalToDestination SyntaxError)) /\
     (forall s, parse (raw_bytes data) = Some (JString s) -> parse s = None ->
        decoded = inl (ErrUnmarshalToDestination SyntaxError)) /\
     (forall s content e,
        parse (raw_bytes data) = Some (JString s) -> parse s = Some content ->
        store content dest = Err e ->
        decoded = inl (ErrUnmarshalToDestination e))) /\
  (forall (data : RawMessage) (dest : any),
     (exists v, UnmarshalDataString data dest = inr v) <->
     exists s content,
       parse (raw_bytes data) = Some (JString s) /\ parse s = Some content /\
       numbers_fit content = true) /\
  (forall (data : RawMessage) (dest : gmap string any),
     (exists v, UnmarshalDataString data dest = inr v) <->
     exists s content,
       parse (raw_bytes data) = Some (JString s) /\ parse s = Some content /\
       ((content = JNull \/ exists fields, content = JObject fields) /\
        numbers_fit content = true)) /\
  (forall (data : RawMessage) (dest : string),
     (exists v, UnmarshalDataString data dest = inr v) <->
     exists s content,
       parse (raw_bytes data) = Some (JString s) /\ parse s = Some content /\
       (content = JNull \/ exists t, content = JString t)) /\
  UnmarshalDataString (Raw (text "'{\'foo\':\'A\',\'bar\':1}'")) (∅ : gmap string any)
  = inr {[ "foo" := GoString "A"; "bar" := GoFloat64 (float64_of_Z 1) ]}.
Proof.
  split; [|split; [|split; [|split]]].
  - intros T store data dest decoded. split; [apply UnmarshalDataString_inr|].
    unfold decoded. rewrite UnmarshalDataString_cases.
    split; [by intros ->|]. split; [|split; [by intros ->|split]].
    + intros j -> Hnull Hstr. destruct j; try reflexivity; [done|by destruct (Hstr s)].
    + by intros s -> ->.
    + by intros s content e -> -> ->.
  - intros data dest.
    apply (UnmarshalDataString_succeeds (fun v _ => to_any v) (fun c => numbers_fit c = true)).
    intros content. apply accepts_Ok, to_any_fits.
  - intros data dest.
    apply (UnmarshalDataString_succeeds into_map
             (fun c => (c = JNull \/ exists fields, c = JObject fields) /\ numbers_fit c = true)).
    intros content. apply into_map_accepts.
  - intros data dest.
    apply (UnmarshalDataString_succeeds into_string
             (fun c => c = JNull \/ exists t, c = JString t)).
    intros content. apply into_string_accepts.
  - vm_compute. reflexivity.
Qed.

(** The connection data of the handshake test is decoded; an input that
    is an object, and a string whose content is not JSON, are refused. *)
Lemma UnmarshalDataString_witness :
  UnmarshalDataString
    (Raw (text "'{\'socket_id\':\'foo\',\'activity_timeout\':1234}'"))
    {| SocketID := ""; ActivityTimeout := 0 |}
  = inr {| SocketID := "foo"; ActivityTimeout := 1234 |} /\
  UnmarshalDataString (Raw "{}") GoNil
  = inl (ErrUnmarshalToString (UnmarshalTypeError "object" "string")) /\
  UnmarshalDataString (Raw (text "'oops'")) GoNil = inl (ErrUnmarshalToDestination SyntaxError) /\
  exists v, UnmarshalDataString (Raw (text "'[1, {\'a\': null}]'")) GoNil = inr v.
Proof.
  destruct UnmarshalDataString_decodes_twice as (Hgen & Hany & _).
  split; [|split; [|split]].
  - apply (proj1 (Hgen _ (into_struct "pusher.connectionData" set_SocketID) _ _)).
    exists (text "{'socket_id':'foo','activity_timeout':1234}"). eexists.
    split; [vm_compute; reflexivity|]. split; [vm_compute; reflexivity|reflexivity].
  - apply (proj1 (proj2 (proj2 (Hgen _ (fun v _ => to_any v) (Raw "{}") GoNil))) (JObject []));
      [reflexivity|discriminate|discriminate].
  - apply (proj1 (proj2 (proj2 (proj2 (proj2 (Hgen _ (fun v _ => to_any v)
             (Raw (text "'oops'")) GoNil))))) "oops"); reflexivity.
  - apply Hany. exists (text "[1, {'a': null}]"). eexists.
    split; [vm_compute; reflexivity|]. split; [vm_compute; reflexivity|]. vm_compute. reflexivity.
Defined.

(** A JSON string whose content is valid JSON is refused when the content
    does not fit the destination.  The content [1] is valid JSON and is
    refused by a [string] destination; the content [1e400] is valid JSON
    and is refused by an [interface{}] destination, being out of the range
    of [float64]. *)
Lemma UnmarshalDataString_valid_content_refused_counterexample :
  (parse (text "'1'") = Some (JString "1") /\ valid "1" = true /\
   UnmarshalDataString (Raw (text "'1'")) ""
   = inl (ErrUnmarshalToDestination (UnmarshalTypeError "number" "string"))) /\
  (parse (text "'1e400'") = Some (JString "1e400") /\ valid "1e400" = true /\
   UnmarshalDataString (Raw (text "'1e400'")) GoNil
   = inl (ErrUnmarshalToDestination (UnmarshalTypeError "number 1e400" "float64"))).
Proof. repeat split; vm_compute; reflexivity. Qed.
(** ** Sending an event *)

Lemma websocket_JSON_Send_client (p : option nat) (e : Event) :
  stable client (websocket_JSON_Send p e).
Proof.
  intros w. unfold websocket_JSON_Send, deref_ws. rewrite bind_unfold.
  destruct p as [h|]; [|done].
  destruct (conns w !! h) as [conn|]; [|done].
  destruct (0 <? closes conn)%nat; [done|].
  by destruct (writeErr conn).
Qed.

(** When the write reports an error, no connection has changed. *)
Lemma websocket_JSON_Send_fails (p : option nat) (e : Event) (w w' : World) (err : error) :
  websocket_JSON_Send p e w = Returns (Some err) w' -> w' = w.
Proof.
  unfold websocket_JSON_Send, deref_ws. rewrite bind_unfold.
  destruct p as [h|]; [|done].
  destruct (conns w !! h) as [conn|]; [|done].
  destruct (0 <? closes conn)%nat; simpl; [by intros [= _ <-]|].
  destruct (writeErr conn); simpl; [by intros [= _ <-]|done].
Qed.

(** C10. When the data cannot be marshalled, [SendEvent] returns the
    marshalling error and leaves the whole world as it was: no frame is
    written and no reset is requested.  When marshalling succeeds, the
    reset is requested first and the frame is written in the world that
    results, so that whatever becomes of the write (an error, a panic on a
    nil connection) the client is the one [resetActivityTimer] left; a write
    that reports an error has written nothing. *)
Theorem SendEvent_marshal_error_and_reset_order :
  forall (T : Type) (Mar : Marshaler T) (event : string) (data : T) (channelName : string)
         (w : World),
    (forall e, marshal data = Err e ->
       SendEvent event data channelName w = Returns (Some (ErrJSON e)) w) /\
    (forall dataJSON, marshal data = Ok dataJSON ->
       exists w1,
         resetActivityTimer w = Returns tt w1 /\
         SendEvent event data channelName w =
           websocket_JSON_Send (ws (client w1))
             {| evEvent := event; evData := Raw dataJSON; evChannel := channelName |} w1 /\
         client (final (SendEvent event data channelName w)) = client w1 /\
         (forall err w2, SendEvent event data channelName w = Returns (Some err) w2 ->
            w2 = w1)).
Proof.
  intros T Mar event data channelName w. split.
  - intros e He. unfold SendEvent. by rewrite He.
  - intros dataJSON Hd. unfold SendEvent. rewrite Hd.
    rewrite resetActivityTimer_spec.
    eexists; split; [reflexivity|].
    rewrite bind_unfold, resetActivityTimer_spec. simpl.
    split; [done|]. split.
    + apply websocket_JSON_Send_client.
    + intros err w2. apply websocket_JSON_Send_fails.
Qed.

(** A raw message that is not JSON cannot be marshalled; valid data sent
    over a connection whose writes fail still requests the reset. *)
Lemma SendEvent_witness :
  let conn := {| incoming := []; outgoing := []; writeErr := Some ErrEOF; closes := 0;
                 closeErr := None |} in
  let c := set_ws (Some 0%nat) (set_activityTimerReset (Some (make 1)) zeroClient) in
  let w := {| client := c; conns := [conn]; network := []; heap := []; goroutines := [];
              slept := []; authReplies := [] |} in
  SendEvent "bar" (Raw "{") "foo" w = Returns (Some (ErrJSON (MarshalerError "json.RawMessage"))) w /\
  SendEvent "bar" (Raw (text "{'bar':1,'foo':'A'}")) "foo" w =
    Returns (Some ErrEOF) (with_client (set_activityTimerReset (Some (put (make 1) tt)) c) w).
Proof.
  intros conn c w. split.
  - exact (proj1 (SendEvent_marshal_error_and_reset_order _ _ "bar" (Raw "{") "foo" w) _ eq_refl).
  - destruct (proj2 (SendEvent_marshal_error_and_reset_order _ _ "bar"
                       (Raw (text "{'bar':1,'foo':'A'}")) "foo" w) _ eq_refl)
      as (w1 & H1 & H2 & _).
    rewrite H2. rewrite resetActivityTimer_spec in H1. injection H1 as <-. reflexivity.
Defined.

(** ** Disconnect *)

Lemma Disconnect_not_connected (w : World) :
  connected (client w) = false -> Disconnect w = Returns None w.
Proof.
  intros H. unfold Disconnect. run. by rewrite H.
Qed.

Lemma client_eta_done (c : Client) : set_done (done c) c = c.
Proof. by destruct c. Qed.

Lemma closeDone_open (w : World) :
  done (client w) <> Some Closed ->
  closeDone w =
  Returns tt (with_client
                (set_done (if done (client w) is Some _ then Some Closed else None) (client w)) w).
Proof.
  intros Hd. unfold closeDone. run.
  destruct (done (client w)) as [[|]|] eqn:E; run; try done.
  by rewrite <- E, client_eta_done, world_eta_client.
Qed.

Lemma Disconnect_connected (w : World) (h : nat) (conn : Conn) :
  connected (client w) = true ->
  ws (client w) = Some h ->
  conns w !! h = Some conn ->
  done (client w) <> Some Closed ->
  Disconnect w =
  Returns (closeResult conn)
    (with_conns (<[h := closedOnce conn]> (conns w))
       (with_client
          (set_connected false
             (set_done (if done (client w) is Some _ then Some Closed else None) (client w))) w)).
Proof.
  intros Hc Hw Hh Hd. unfold Disconnect. run. rewrite Hc. run.
  rewrite closeDone_open by done. run.
  unfold ws_Close, deref_ws. run. rewrite Hw. run. by rewrite Hh.
Qed.

(** C7. On a connected client (whose connection is dialled and whose
    cancellation signal, if allocated, is still open) [Disconnect] closes
    the cancellation signal, marks the client disconnected, calls [Close] on
    the transport exactly once and returns what that call returned.  Every
    later [Disconnect], and any [Disconnect] on a client that is not
    connected, returns nil and changes nothing: the transport is not closed
    again. *)
Theorem Disconnect_idempotent :
  (forall (w : World) (h : nat) (conn : Conn),
      connected (client w) = true ->
      ws (client w) = Some h ->
      conns w !! h = Some conn ->
      done (client w) <> Some Closed ->
      exists w1,
        Disconnect w = Returns (closeResult conn) w1 /\
        connected (client w1) = false /\
        done (client w1) = (if done (client w) is Some _ then Some Closed else None) /\
        conns w1 = <[h := closedOnce conn]> (conns w) /\
        closes (closedOnce conn) = S (closes conn) /\
        (forall n, forEach (replicate n tt) (fun _ => Disconnect ;; mret tt) w1 = Returns tt w1) /\
        Disconnect w1 = Returns None w1) /\
  (forall w, connected (client w) = false -> Disconnect w = Returns None w).
Proof.
  split; [|apply Disconnect_not_connected].
  intros w h conn Hc Hw Hh Hd.
  rewrite (Disconnect_connected w h conn) by done.
  eexists. simpl.
  do 5 (split; [reflexivity|]). split.
  - induction n as [|n IH]; simpl; [done|].
    rewrite bind_unfold, bind_unfold, Disconnect_not_connected by done. simpl. apply IH.
  - by apply Disconnect_not_connected.
Qed.

(** The client of the disconnect test: connected, with a dialled
    connection and no cancellation signal. *)
Lemma Disconnect_witness :
  let conn := {| incoming := []; outgoing := []; writeErr := None; closes := 0;
                 closeErr := None |} in
  let w := {| client := set_ws (Some 0%nat) (set_connected true zeroClient); conns := [conn];
              network := []; heap := []; goroutines := []; slept := []; authReplies := [] |} in
  exists w1, Disconnect w = Returns None w1 /\ connected (client w1) = false /\
             conns w1 = [closedOnce conn] /\ Disconnect w1 = Returns None w1.
Proof.
  intros conn w.
  destruct (proj1 Disconnect_idempotent w 0%nat conn eq_refl eq_refl eq_refl)
    as (w1 & H1 & H2 & _ & H4 & _ & _ & H7); [discriminate|].
  exists w1. repeat split; assumption.
Defined.

(** ** What the channel methods leave alone *)

Lemma returnsTo_bind {A B} (m : M A) (k : A -> M B) (w : World)
      (Q1 : A -> World -> Prop) (Q : B -> World -> Prop) :
  returnsTo m w Q1 ->
  (forall a w', Q1 a w' -> returnsTo (k a) w' Q) ->
  returnsTo (m ≫= k) w Q.
Proof.
  intros (a & w' & Hm & HQ) Hk. unfold returnsTo. rewrite (bind_returns _ _ _ _ _ Hm).
  by apply Hk.
Qed.

Lemma returnsTo_ret {A} (a : A) (w : World) (Q : A -> World -> Prop) :
  Q a w -> returnsTo (mret a) w Q.
Proof. intros H. by exists a, w. Qed.

Lemma returnsTo_weaken {A} (m : M A) (w : World) (Q Q' : A -> World -> Prop) :
  returnsTo m w Q -> (forall a w', Q a w' -> Q' a w') -> returnsTo m w Q'.
Proof. intros (a & w' & Hm & HQ) H. exists a, w'. auto. Qed.

Lemma keeps_refl (w : World) : keeps w w.
Proof. by repeat split. Qed.

Lemma keeps_trans (w1 w2 w3 : World) : keeps w1 w2 -> keeps w2 w3 -> keeps w1 w3.
Proof.
  intros (A1 & A2 & A3 & A4 & A5 & A6 & A7) (B1 & B2 & B3 & B4 & B5 & B6 & B7).
  repeat split; congruence.
Qed.

(** Under [keeps], every field of the client but the reset channel is
    unchanged. *)
Lemma keeps_field {X} (f : Client -> X) (w w' : World) :
  (forall c, f (set_activityTimerReset None c) = f c) ->
  keeps w w' -> f (client w') = f (client w).
Proof.
  intros Hf (H & _). rewrite <- (Hf (client w')), <- (Hf (client w)). by rewrite H.
Qed.

Lemma keeps_dialled (w w' : World) : keeps w w' -> dialled w -> dialled w'.
Proof.
  intros Hk (h & Hw & Hh). exists h.
  rewrite (keeps_field ws w w') by done.
  destruct Hk as (_ & _ & -> & _). done.
Qed.

Lemma keeps_wfRegistry (w w' : World) : keeps w w' -> wfRegistry w -> wfRegistry w'.
Proof.
  intros Hk Hwf m n l Hm Hl.
  rewrite (keeps_field subscribedChannels w w') in Hm by done.
  destruct Hk as (_ & _ & _ & -> & _). eauto.
Qed.

Lemma resetActivityTimer_keeps (w : World) :
  returnsTo resetActivityTimer w (fun _ w' => keeps w w' /\ heap w' = heap w /\ conns w' = conns w
                                              /\ authReplies w' = authReplies w).
Proof.
  unfold returnsTo. rewrite resetActivityTimer_spec. apply returnsTo_ret.
  unfold try_send. destruct (activityTimerReset (client w)) as [ch|] eqn:E.
  - destruct (can_send ch).
    + repeat split; simpl; try done. rewrite E. simpl. unfold put.
      by destruct (pending ch <? cap ch)%nat.
    + split; [apply keeps_refl|done].
  - split; [apply keeps_refl|done].
Qed.

Lemma websocket_JSON_Send_keeps (e : Event) (w : World) :
  dialled w ->
  returnsTo (websocket_JSON_Send (ws (client w)) e) w
            (fun _ w' => keeps w w' /\ heap w' = heap w /\ authReplies w' = authReplies w).
Proof.
  intros (h & Hw & Hh). rewrite Hw. unfold returnsTo, websocket_JSON_Send, deref_ws. run.
  destruct (lookup_lt_is_Some_2 _ _ Hh) as [conn Hc]. rewrite Hc. run.
  destruct (0 <? closes conn)%nat.
  - apply returnsTo_ret. split; [apply keeps_refl|done].
  - destruct (writeErr conn).
    + apply returnsTo_ret. split; [apply keeps_refl|done].
    + run. apply returnsTo_ret. repeat split; simpl; try done. by rewrite length_insert.
Qed.

Lemma SendEvent_keeps {T} `{Marshaler T} (event : string) (data : T) (channelName : string)
      (w : World) :
  dialled w ->
  returnsTo (SendEvent event data channelName) w
            (fun _ w' => keeps w w' /\ heap w' = heap w /\ authReplies w' = authReplies w).
Proof.
  intros Hd. unfold SendEvent. destruct (marshal data).
  - eapply returnsTo_bind; [apply resetActivityTimer_keeps|].
    intros [] w1 (Hk & Hh & Hc & Ha). simpl.
    unfold returnsTo. rewrite bind_unfold. simpl.
    eapply returnsTo_weaken; [apply websocket_JSON_Send_keeps; by eapply keeps_dialled|].
    intros r w2 (Hk2 & Hh2 & Ha2). simpl in *.
    split; [by eapply keeps_trans|]. split; congruence.
  - apply returnsTo_ret. split; [apply keeps_refl|done].
Qed.

Lemma channel_Subscribe_keeps (l : nat) (opts : list SubscribeOption) (w : World) :
  dialled w -> (l < length (heap w))%nat ->
  returnsTo (channel_Subscribe l opts) w (fun _ w' => keeps w w' /\ heap w' = heap w).
Proof.
  intros Hd Hl. unfold returnsTo at 1. unfold channel_Subscribe, deref_channel. rewrite bind_unfold.
  destruct (lookup_lt_is_Some_2 _ _ Hl) as [ch Hc]. rewrite Hc.
  assert (Hauth : forall b : channel,
    returnsTo
      (authorize ≫= fun r : AuthReply =>
         match r with
         | AuthOk members =>
             SendEvent pusherSubscribe (JObject (("channel", JString (name b)) :: members)) ""
         | AuthFails reason => mret (Some (ErrAuth reason))
         end) w (fun _ w' => keeps w w' /\ heap w' = heap w)).
  { intros b. unfold returnsTo, authorize. rewrite bind_unfold.
    destruct (authReplies w) as [|[members|reason] rest].
    - apply returnsTo_ret. split; [apply keeps_refl|done].
    - eapply returnsTo_weaken; [apply SendEvent_keeps; by destruct Hd as (h & ? & ?); exists h|].
      intros r w' (Hk & Hh & _). split; [|done].
      destruct Hk as (? & ? & ? & ? & ? & ? & ?). by repeat split.
    - apply returnsTo_ret. by repeat split. }
  destruct ch as [b|b|b]; [|apply Hauth..].
  eapply returnsTo_weaken; [by apply SendEvent_keeps|]. by intros r w' (? & ? & _).
Qed.

Lemma ResetSubscriptionState_keeps (l : nat) (w : World) :
  (l < length (heap w))%nat ->
  returnsTo (ResetSubscriptionState l) w (fun _ w' => keeps w w').
Proof.
  intros Hl. unfold returnsTo, ResetSubscriptionState.
  destruct (lookup_lt_is_Some_2 _ _ Hl) as [ch Hc]. rewrite Hc.
  apply returnsTo_ret. repeat split; simpl; try done. by rewrite length_insert.
Qed.

(** A loop whose every step returns and keeps an invariant. *)
Lemma forEach_keeps {A} (I : World -> Prop) (l : list A) (body : A -> M unit) :
  (forall x w, x ∈ l -> I w -> returnsTo (body x) w (fun _ w' => keeps w w' /\ I w')) ->
  forall w, I w -> returnsTo (forEach l body) w (fun _ w' => keeps w w' /\ I w').
Proof.
  induction l as [|x l IH]; intros Hb w Hw; simpl.
  - apply returnsTo_ret. split; [apply keeps_refl|done].
  - eapply returnsTo_bind; [apply Hb; [left|done]|].
    intros [] w1 (Hk1 & HI1). simpl.
    eapply returnsTo_weaken.
    + apply IH; [|done]. intros y w2 Hy. apply Hb. by right.
    + intros [] w2 (Hk2 & HI2). split; [by eapply keeps_trans|done].
Qed.

(** ** The handshake *)

Create HintDb stable.

Ltac stab :=
  repeat first
    [ apply stable_ret
    | solve [eauto with stable]
    | apply stable_bind; [|intros ?]
    | apply stable_forEach; intros ?
    | match goal with
      | |- stable _ (match ?x with _ => _ end) => destruct x
      | |- stable _ (if ?x then _ else _) => destruct x
      end
    | progress simpl ].

Lemma loopObs_Dial : stable loopObs websocket_Dial.
Proof. intros w. unfold websocket_Dial. by repeat case_match. Qed.

Lemma loopObs_deref_ws p : stable loopObs (deref_ws p).
Proof. intros w. unfold deref_ws. by repeat case_match. Qed.

Lemma loopObs_store_ws h conn : stable loopObs (store_ws h conn).
Proof. by intros w. Qed.

Lemma loopObs_getClient : stable loopObs getClient.
Proof. by intros w. Qed.

Lemma loopObs_update (f : Client -> Client) :
  (forall c, ReconnectDelay (f c) = ReconnectDelay c) ->
  (forall c, pongFailures (f c) = pongFailures c) ->
  (forall c, Errors (f c) = Errors c) ->
  stable loopObs (update f).
Proof. intros H1 H2 H3 w. unfold loopObs. simpl. by rewrite H1, H2, H3. Qed.

Lemma loopObs_go t : stable loopObs (go t).
Proof. by intros w. Qed.

Lemma loopObs_authorize : stable loopObs authorize.
Proof. intros w. unfold authorize. by repeat case_match. Qed.

Lemma loopObs_deref_channel l : stable loopObs (deref_channel l).
Proof. intros w. unfold deref_channel. by repeat case_match. Qed.

Lemma loopObs_ResetSubscriptionState l : stable loopObs (ResetSubscriptionState l).
Proof. intros w. unfold ResetSubscriptionState. by repeat case_match. Qed.

Lemma loopObs_new ch : stable loopObs (new ch).
Proof. by intros w. Qed.

Lemma loopObs_panic {A} why : stable loopObs (panic (A := A) why).
Proof. by intros w. Qed.

#[local] Hint Resolve loopObs_Dial loopObs_deref_ws loopObs_store_ws loopObs_getClient
  loopObs_go loopObs_authorize loopObs_deref_channel loopObs_ResetSubscriptionState
  loopObs_new loopObs_panic : stable.

Lemma loopObs_resetActivityTimer : stable loopObs resetActivityTimer.
Proof. intros w. rewrite resetActivityTimer_spec. by case_match. Qed.

#[local] Hint Resolve loopObs_resetActivityTimer : stable.

Lemma loopObs_Receive p : stable loopObs (websocket_JSON_Receive p).
Proof. unfold websocket_JSON_Receive. stab. Qed.

Lemma loopObs_Send p e : stable loopObs (websocket_JSON_Send p e).
Proof. unfold websocket_JSON_Send. stab. Qed.

Lemma loopObs_ws_Close p : stable loopObs (ws_Close p).
Proof. unfold ws_Close. stab. Qed.

#[local] Hint Resolve loopObs_Receive loopObs_Send loopObs_ws_Close : stable.

Lemma loopObs_SendEvent {T} `{Marshaler T} event (data : T) channelName :
  stable loopObs (SendEvent event data channelName).
Proof. unfold SendEvent. stab. Qed.

#[local] Hint Resolve loopObs_SendEvent : stable.

Lemma loopObs_channel_Subscribe l opts : stable loopObs (channel_Subscribe l opts).
Proof. unfold channel_Subscribe. stab. Qed.

#[local] Hint Resolve loopObs_channel_Subscribe : stable.

Lemma establish_ReconnectDelay cd c : ReconnectDelay (establish cd c) = ReconnectDelay c.
Proof. unfold establish. by repeat case_match. Qed.

Lemma establish_pongFailures cd c : pongFailures (establish cd c) = pongFailures c.
Proof. unfold establish. by repeat case_match. Qed.

Lemma establish_Errors cd c : Errors (establish cd c) = Errors c.
Proof. unfold establish. by repeat case_match. Qed.

(** The handshake, however it ends, leaves the delay, the pong failure
    count, the error sink and the sleep log as they were. *)
Lemma loopObs_connectInternal : stable loopObs connectInternal.
Proof.
  unfold connectInternal, firstEvent. stab.
  all: try (apply loopObs_update; intros; reflexivity).
  all: try (apply loopObs_update; intros;
            [apply establish_ReconnectDelay | apply establish_pongFailures | apply establish_Errors]).
Qed.

Lemma connectInternal_refused (w : World) :
  network w = [] ->
  connectInternal w =
  Returns (Some (ErrDial "connection refused")) (with_client (set_ws None (client w)) w).
Proof. intros H. unfold connectInternal, websocket_Dial. run. by rewrite H. Qed.

Lemma connectInternal_dial_fails (w : World) (err : error) (rest : list Attempt) :
  network w = DialFails err :: rest ->
  connectInternal w =
  Returns (Some err) (with_client (set_ws None (client w)) (with_network rest w)).
Proof. intros H. unfold connectInternal, websocket_Dial. run. by rewrite H. Qed.

Lemma insert_last {A} (l : list A) (x y : A) : <[length l := y]> (l ++ [x]) = l ++ [y].
Proof. rewrite insert_app_r_alt by lia. by rewrite Nat.sub_diag. Qed.

Lemma lookup_last {A} (l : list A) (x : A) : (l ++ [x]) !! length l = Some x.
Proof. by rewrite list_lookup_middle. Qed.

(** Up to its [switch], the handshake dials, stores the connection and
    consumes the first frame. *)
Lemma connectInternal_firstFrame (w : World) (event : Event) (conn : Conn) :
  firstFrame w event conn ->
  connectInternal w = firstEvent event (afterFirstFrame w conn).
Proof.
  intros (rest & more & Hn & Hc & Hi).
  unfold connectInternal, websocket_Dial. run. rewrite Hn. run.
  unfold websocket_JSON_Receive, deref_ws. run.
  rewrite lookup_last. run. rewrite Hc, Hi. run.
  f_equal. unfold afterFirstFrame, with_conns, with_client, with_network. simpl.
  rewrite insert_last, Hn, Hi, ?Hc. reflexivity.
Qed.

Lemma firstEvent_pusherError (event : Event) (w : World) :
  evEvent event = pusherError ->
  firstEvent event w = Returns (Some (extractEventError event)) w.
Proof. intros H. unfold firstEvent. by rewrite H. Qed.

Lemma firstEvent_undecodable (event : Event) (w : World) (err : error) :
  evEvent event = pusherConnEstablished ->
  UnmarshalDataString (evData event) zeroConnData = inl err ->
  firstEvent event w = Returns (Some err) w.
Proof. intros H Hd. unfold firstEvent. rewrite H. simpl. unfold zeroConnData in Hd. by rewrite Hd. Qed.

Lemma firstEvent_unknown (event : Event) (w : World) :
  evEvent event <> pusherError ->
  evEvent event <> pusherConnEstablished ->
  firstEvent event w = Returns (Some (ErrUnknownEventType (evEvent event))) w.
Proof.
  intros H1 H2. unfold firstEvent.
  apply String.eqb_neq in H1, H2. by rewrite H1, H2.
Qed.

Lemma establish_registry cd c :
  subscribedChannels (establish cd c) =
  Some (default ∅ (subscribedChannels c)).
Proof. by destruct c as [? ? ? ? ? ? ? ? ? ? ? ? ? [?|] [?|] ?]. Qed.

Lemma establish_ws cd c : ws (establish cd c) = ws c.
Proof. by destruct c as [? ? ? ? ? ? ? ? ? ? ? ? ? [?|] [?|] ?]. Qed.

Lemma establish_connected cd c : connected (establish cd c) = true.
Proof. by destruct c as [? ? ? ? ? ? ? ? ? ? ? ? ? [?|] [?|] ?]. Qed.

Lemma establish_socketID cd c : socketID (establish cd c) = SocketID cd.
Proof. by destruct c as [? ? ? ? ? ? ? ? ? ? ? ? ? [?|] [?|] ?]. Qed.

Lemma establish_activityTimeout cd c :
  activityTimeout (establish cd c) = Time.mul (ActivityTimeout cd) Time.Second.
Proof. by destruct c as [? ? ? ? ? ? ? ? ? ? ? ? ? [?|] [?|] ?]. Qed.

Lemma establish_activityTimer cd c :
  activityTimer (establish cd c)
  = Some (Time.NewTimer (Time.mul (ActivityTimeout cd) Time.Second)).
Proof. by destruct c as [? ? ? ? ? ? ? ? ? ? ? ? ? [?|] [?|] ?]. Qed.

Lemma establish_pongTimer cd c :
  pongTimer (establish cd c)
  = Some {| Time.timer_d := pongTimeout c; Time.timer_active := false |}.
Proof. by destruct c as [? ? ? ? ? ? ? ? ? ? ? ? ? [?|] [?|] ?]. Qed.

Lemma establish_activityTimerReset cd c :
  activityTimerReset (establish cd c) = Some (make 1).
Proof. by destruct c as [? ? ? ? ? ? ? ? ? ? ? ? ? [?|] [?|] ?]. Qed.

Lemma establish_boundEvents cd c :
  boundEvents (establish cd c) = Some (default ∅ (boundEvents c)).
Proof. by destruct c as [? ? ? ? ? ? ? ? ? ? ? ? ? [?|] [?|] ?]. Qed.

Lemma establish_done cd c : done (establish cd c) = Some Open.
Proof. by destruct c as [? ? ? ? ? ? ? ? ? ? ? ? ? [?|] [?|] ?]. Qed.

Opaque establish.

Lemma client_started (g : list Task) (c : Client) (w : World) :
  client (with_goroutines g (with_client c w)) = c.
Proof. reflexivity. Qed.

Lemma keeps_with_goroutines (w w' : World) (g : list Task) :
  keeps w w' -> keeps (with_goroutines g w) (with_goroutines g w').
Proof. intros (? & ? & ? & ? & ? & ? & ?). by repeat split. Qed.

(** On a decodable [pusher:connection_established] the handshake assigns
    the session fields, starts the two goroutines and resubscribes; all of
    it returns, and the resubscription changes nothing of the client but the
    content of the reset channel. *)
Lemma firstEvent_established (event : Event) (w : World) (cd : connectionData) :
  evEvent event = pusherConnEstablished ->
  UnmarshalDataString (evData event) zeroConnData = inr cd ->
  dialled w -> wfRegistry w ->
  returnsTo (firstEvent event) w (fun r w' =>
    r = None /\
    keeps (with_goroutines (goroutines w ++ [heartbeat; listen])
             (with_client (establish cd (client w)) w)) w').
Proof.
  intros He Hd Hdial Hwf. unfold returnsTo at 1. unfold firstEvent. rewrite He. simpl.
  unfold zeroConnData in Hd. rewrite Hd.
  rewrite bind_update, bind_getClient.
  set (w0 := with_client (establish cd (client w)) w).
  set (m := default ∅ (subscribedChannels (client w))).
  assert (Hm0 : subscribedChannels (client w0) = Some m) by apply establish_registry.
  assert (Hreg : registry (client w0) = map_to_list m).
  { unfold registry. by rewrite Hm0. }
  rewrite Hreg.
  pose (I := fun w1 : World =>
               dialled w1 /\ subscribedChannels (client w1) = Some m /\
               forall n l, m !! n = Some l -> (l < length (heap w1))%nat).
  assert (HI0 : I w0).
  { split; [|split; [done|]].
    - destruct Hdial as (h & ? & ?). exists h. split; [|done].
      unfold w0. change (ws (establish cd (client w)) = Some h). by rewrite establish_ws.
    - intros n l Hl. unfold m in Hl.
      destruct (subscribedChannels (client w)) as [m'|] eqn:E; [|done].
      by eapply (Hwf m' n l). }
  assert (Hkeep : forall w1 w2, keeps w1 w2 -> I w1 -> I w2).
  { intros w1 w2 Hk (H1 & H2 & H3). split; [by eapply keeps_dialled|]. split.
    - by rewrite (keeps_field subscribedChannels w1 w2).
    - intros n l Hl. destruct Hk as (_ & _ & _ & -> & _). eauto. }
  eapply returnsTo_bind.
  { apply (forEach_keeps I); [|exact HI0].
    intros [n l] w1 Hin (H1 & H2 & H3).
    eapply returnsTo_weaken; [apply ResetSubscriptionState_keeps|].
    - apply (H3 n). by apply elem_of_map_to_list in Hin.
    - intros [] w2 Hk. split; [done|]. by eapply Hkeep. }
  intros [] w1 (Hk1 & HI1). unfold returnsTo. rewrite bind_go, bind_go.
  set (w1' := with_goroutines _ _).
  assert (Hk1' : keeps (with_goroutines (goroutines w ++ [heartbeat; listen]) w0) w1').
  { destruct Hk1 as (K1 & K2 & K3 & K4 & K5 & K6 & K7).
    unfold w1'. repeat split; try assumption.
    change (goroutines w0) with (goroutines w) in K5.
    change ((goroutines w1 ++ [heartbeat]) ++ [listen] = goroutines w ++ [heartbeat; listen]).
    rewrite K5. by rewrite <- app_assoc. }
  assert (HI1' : I w1').
  { destruct HI1 as ((h & ? & ?) & ? & ?). split; [by exists h|]. done. }
  eapply returnsTo_bind.
  { apply (forEach_keeps I); [|exact HI1'].
    intros n w2 Hin (H1 & H2 & H3). unfold returnsTo. rewrite bind_getClient, H2.
    change (Some m ≫= lookup n) with (m !! n).
    destruct (m !! n) as [l|] eqn:El.
    - eapply returnsTo_bind; [apply channel_Subscribe_keeps; eauto|].
      intros r w3 (Hk & _). apply returnsTo_ret. split; [done|]. by eapply Hkeep.
    - apply returnsTo_ret. split; [apply keeps_refl|done]. }
  intros [] w2 (Hk2 & _). apply returnsTo_ret. split; [done|].
  by eapply keeps_trans.
Qed.

(** ** Connect *)

Lemma Connect_prepared (appKey : string) (w : World) :
  Connect appKey w = connectInternal (prepared appKey w).
Proof. unfold Connect. run. reflexivity. Qed.

Lemma wrap64_small (z : Z) :
  Time.minInt64 <= z <= Time.maxInt64 -> Time.wrap64 z = z.
Proof.
  unfold Time.minInt64, Time.maxInt64, Time.wrap64. intros H.
  rewrite Z.mod_small; lia.
Qed.

Lemma seconds_exact (t : Z) :
  -9223372036 <= t <= 9223372036 -> Time.mul t Time.Second = t * Time.Second.
Proof.
  intros H. unfold Time.mul. apply wrap64_small.
  unfold Time.minInt64, Time.maxInt64, Time.Second. lia.
Qed.

Lemma dialled_afterFirstFrame (w : World) (conn : Conn) : dialled (afterFirstFrame w conn).
Proof.
  exists (length (conns w)). split; [done|]. simpl. rewrite length_app. simpl. lia.
Qed.

Lemma wfRegistry_afterFirstFrame (w : World) (conn : Conn) :
  wfRegistry w -> wfRegistry (afterFirstFrame w conn).
Proof. intros H m n l Hm Hl. simpl in *. eapply H; [|done]. by destruct (client w). Qed.

Lemma firstFrame_prepared (appKey : string) (w : World) (event : Event) (conn : Conn) :
  firstFrame w event conn -> firstFrame (prepared appKey w) event conn.
Proof. done. Qed.

(** The state a successful handshake leaves, whoever runs it. *)
Lemma connectInternal_established (w : World) (event : Event) (conn : Conn) (cd : connectionData) :
  firstFrame w event conn ->
  evEvent event = pusherConnEstablished ->
  UnmarshalDataString (evData event) zeroConnData = inr cd ->
  wfRegistry w ->
  returnsTo connectInternal w (fun r w' =>
    r = None /\
    keeps (with_goroutines (goroutines w ++ [heartbeat; listen])
             (with_client (establish cd (set_ws (Some (length (conns w))) (client w)))
                (afterFirstFrame w conn))) w').
Proof.
  intros Hf He Hd Hwf. unfold returnsTo. rewrite (connectInternal_firstFrame w event conn Hf).
  apply (firstEvent_established event (afterFirstFrame w conn) cd He Hd).
  - apply dialled_afterFirstFrame.
  - by apply wfRegistry_afterFirstFrame.
Qed.

(** The session fields after a successful handshake. *)
Lemma established_fields (c0 : Client) (w0 w' : World) (s : string) (t : Z) :
  keeps (with_goroutines (goroutines w0 ++ [heartbeat; listen])
             (with_client (establish {| SocketID := s; ActivityTimeout := t |} c0) w0)) w' ->
      connected (client w') = true /\
      socketID (client w') = s /\
      activityTimeout (client w') = Time.mul t Time.Second /\
      activityTimer (client w') = Some (Time.NewTimer (Time.mul t Time.Second)) /\
      pongTimer (client w')
        = Some {| Time.timer_d := pongTimeout c0; Time.timer_active := false |} /\
      (exists ch, activityTimerReset (client w') = Some ch /\ cap ch = 1%nat) /\
      boundEvents (client w') <> None /\
      subscribedChannels (client w') <> None.
Proof.
  intros Hk.
  pose proof (keeps_field connected _ _ (fun _ => eq_refl) Hk) as H1.
  pose proof (keeps_field socketID _ _ (fun _ => eq_refl) Hk) as H2.
  pose proof (keeps_field activityTimeout _ _ (fun _ => eq_refl) Hk) as H3.
  pose proof (keeps_field activityTimer _ _ (fun _ => eq_refl) Hk) as H4.
  pose proof (keeps_field pongTimer _ _ (fun _ => eq_refl) Hk) as H5.
  pose proof (keeps_field boundEvents _ _ (fun _ => eq_refl) Hk) as H6.
  pose proof (keeps_field subscribedChannels _ _ (fun _ => eq_refl) Hk) as H7.
  destruct Hk as (_ & Hcap & _).
  rewrite client_started in *.
  rewrite H1, H2, H3, H4, H5, H6, H7. clear H1 H2 H3 H4 H5 H6 H7.
  rewrite establish_connected, establish_socketID, establish_activityTimeout,
    establish_activityTimer, establish_pongTimer, establish_boundEvents, establish_registry.
  rewrite establish_activityTimerReset in Hcap.
  repeat split; try done.
  destruct (activityTimerReset _) as [ch|]; [|done].
  exists ch. split; [done|]. injection Hcap as Hcap. exact Hcap.
Qed.

(** What a successful [Connect] leaves in the client. *)
Lemma Connect_established_state :
  forall (appKey : string) (w : World) (event : Event) (conn : Conn) (s : string) (t : Z),
    firstFrame w event conn ->
    evEvent event = pusherConnEstablished ->
    UnmarshalDataString (evData event) zeroConnData
      = inr {| SocketID := s; ActivityTimeout := t |} ->
    wfRegistry w ->
    exists w',
      Connect appKey w = Returns None w' /\
      connected (client w') = true /\
      socketID (client w') = s /\
      activityTimeout (client w') = Time.mul t Time.Second /\
      (-9223372036 <= t <= 9223372036 -> activityTimeout (client w') = t * Time.Second) /\
      activityTimer (client w') = Some (Time.NewTimer (Time.mul t Time.Second)) /\
      pongTimer (client w')
        = Some {| Time.timer_d := defaultPongTimeout; Time.timer_active := false |} /\
      (exists ch, activityTimerReset (client w') = Some ch /\ cap ch = 1%nat) /\
      boundEvents (client w') <> None /\
      subscribedChannels (client w') <> None.
Proof.
  intros appKey w event conn s t Hf He Hd Hwf.
  rewrite Connect_prepared.
  destruct (connectInternal_established (prepared appKey w) event conn _
              (firstFrame_prepared appKey w event conn Hf) He Hd Hwf)
    as (r & w' & Hrun & -> & Hk).
  exists w'. split; [exact Hrun|].
  destruct (established_fields _ _ _ _ _ Hk) as (F1 & F2 & F3 & F4 & F5 & F6 & F7 & F8).
  repeat split; try assumption.
  intros Ht. rewrite F3. by apply seconds_exact.
Qed.

(** C4 (amended). When the first frame is [pusher:connection_established]
    and its double-encoded data decodes to [{socket_id: s, activity_timeout:
    t}], [Connect] returns without error and afterwards the connected flag
    is true, [socketID] is [s], [activityTimeout] is
    [time.Duration(t) * time.Second] computed in 64 bits, which is [t]
    seconds whenever [t] seconds fit a [time.Duration] (at most 9223372036
    seconds either way), the activity timer is armed with it, the pong timer
    is allocated and stopped, the reset channel is allocated with capacity
    1, and the bindings map and the registry are not nil. *)
Theorem Connect_established_sets_state :
  forall (appKey : string) (w : World) (event : Event) (conn : Conn) (s : string) (t : Z),
    firstFrame w event conn ->
    evEvent event = pusherConnEstablished ->
    UnmarshalDataString (evData event) zeroConnData
      = inr {| SocketID := s; ActivityTimeout := t |} ->
    wfRegistry w ->
    exists w',
      Connect appKey w = Returns None w' /\
      connected (client w') = true /\
      socketID (client w') = s /\
      activityTimeout (client w') = Time.mul t Time.Second /\
      (-9223372036 <= t <= 9223372036 -> activityTimeout (client w') = t * Time.Second) /\
      activityTimer (client w') = Some (Time.NewTimer (Time.mul t Time.Second)) /\
      pongTimer (client w')
        = Some {| Time.timer_d := defaultPongTimeout; Time.timer_active := false |} /\
      (exists ch, activityTimerReset (client w') = Some ch /\ cap ch = 1%nat) /\
      boundEvents (client w') <> None /\
      subscribedChannels (client w') <> None.
Proof. exact Connect_established_state. Qed.

(** The handshake of the connect test: socket id ["foo"], activity timeout
    1234 seconds. *)
Lemma Connect_established_witness :
  exists w',
    Connect ""
      (fresh [DialOk (serving [established
                (text "'{\'socket_id\':\'foo\',\'activity_timeout\':1234}'")])])
      = Returns None w' /\
    connected (client w') = true /\
    socketID (client w') = "foo" /\
    activityTimeout (client w') = 1234 * Time.Second.
Proof.
  destruct (Connect_established_sets_state ""
              (fresh [DialOk (serving [established
                 (text "'{\'socket_id\':\'foo\',\'activity_timeout\':1234}'")])])
              _ _ "foo" 1234
              (ex_intro _ [] (ex_intro _ [] (conj eq_refl (conj eq_refl eq_refl))))
              eq_refl eq_refl)
    as (w' & H1 & H2 & H3 & _ & H5 & _).
  - intros m n l Hm. discriminate Hm.
  - exists w'. repeat split; try assumption. apply H5. lia.
Defined.

(** An activity timeout of ten thousand million seconds decodes, but does
    not fit a [time.Duration]: the product wraps round to a negative
    duration. *)
Lemma Connect_activityTimeout_counterexample :
  let data := (text "'{\'socket_id\':\'foo\',\'activity_timeout\':10000000000}'") in
  UnmarshalDataString (Raw data) zeroConnData
    = inr {| SocketID := "foo"; ActivityTimeout := 10000000000 |} /\
  exists w',
    Connect "" (fresh [DialOk (serving [established data])]) = Returns None w' /\
    activityTimeout (client w') = -8446744073709551616 /\
    activityTimeout (client w') <> 10000000000 * Time.Second.
Proof.
  split; [reflexivity|].
  eexists. split; [vm_compute; reflexivity|]. split; [reflexivity|]. by vm_compute.
Qed.

Lemma connected_afterFirstFrame (appKey : string) (w : World) (conn : Conn) :
  connected (client (afterFirstFrame (prepared appKey w) conn)) = connected (client w).
Proof. reflexivity. Qed.

(** C5 (amended). [Connect]'s result is decided by the first frame
    received after dialling.  If its event is [pusher:error], [Connect]
    returns what [extractEventError] makes of the frame, which is the
    [EventError] decoded from its data; if it is
    [pusher:connection_established] and its double-encoded data decodes,
    [Connect] returns no error and the client is connected; if it is
    [pusher:connection_established] and the data does not decode, [Connect]
    returns the decoding error; for any other event name it returns the
    unknown-event error.  In each failing case the call does not mark the
    client connected: the flag is what it was. *)
Theorem Connect_result_by_first_frame :
  forall (appKey : string) (w : World) (event : Event) (conn : Conn),
    firstFrame w event conn ->
    (evEvent event = pusherError ->
       (exists w', Connect appKey w = Returns (Some (extractEventError event)) w' /\
                   connected (client w') = connected (client w)) /\
       (forall e, unmarshal (raw_bytes (evData event)) zeroEventError = Ok e ->
                  extractEventError event = ErrEvent e)) /\
    (evEvent event = pusherConnEstablished ->
       (forall cd, UnmarshalDataString (evData event) zeroConnData = inr cd ->
          wfRegistry w ->
          exists w', Connect appKey w = Returns None w' /\ connected (client w') = true) /\
       (forall err, UnmarshalDataString (evData event) zeroConnData = inl err ->
          exists w', Connect appKey w = Returns (Some err) w' /\
                     connected (client w') = connected (client w))) /\
    (evEvent event <> pusherError -> evEvent event <> pusherConnEstablished ->
       exists w', Connect appKey w = Returns (Some (ErrUnknownEventType (evEvent event))) w' /\
                  connected (client w') = connected (client w)).
Proof.
  intros appKey w event conn Hf.
  pose proof (connectInternal_firstFrame _ _ _ (firstFrame_prepared appKey w event conn Hf)) as Hci.
  split; [|split].
  - intros He. split.
    + eexists. rewrite Connect_prepared, Hci, firstEvent_pusherError by done.
      split; [reflexivity|]. apply connected_afterFirstFrame.
    + intros e Hd. unfold extractEventError. unfold zeroEventError in Hd. by rewrite Hd.
  - intros He. split.
    + intros [s t] Hd Hwf.
      destruct (Connect_established_state appKey w event conn s t Hf He Hd Hwf)
        as (w' & H1 & H2 & _).
      by exists w'.
    + intros err Hd. eexists.
      rewrite Connect_prepared, Hci, (firstEvent_undecodable _ _ err) by done.
      split; [reflexivity|]. apply connected_afterFirstFrame.
  - intros H1 H2. eexists.
    rewrite Connect_prepared, Hci, firstEvent_unknown by done.
    split; [reflexivity|]. apply connected_afterFirstFrame.
Qed.

(** The error handshake of the connect test: code 1234, message ["foo"]. *)
Lemma Connect_result_witness :
  let event := {| evEvent := pusherError; evData := Raw (text "{'code':1234,'message':'foo'}");
                  evChannel := "" |} in
  (exists w', Connect "" (fresh [DialOk (serving [RecvEvent event])])
              = Returns (Some (extractEventError event)) w' /\
              connected (client w') = false) /\
  extractEventError event = ErrEvent {| Code := 1234; Message := "foo" |}.
Proof.
  intros event.
  destruct (Connect_result_by_first_frame "" (fresh [DialOk (serving [RecvEvent event])])
              event (serving [RecvEvent event])
              (ex_intro _ [] (ex_intro _ [] (conj eq_refl (conj eq_refl eq_refl)))))
    as (H & _).
  destruct (H eq_refl) as (H1 & H2). split.
  - exact H1.
  - exact (H2 _ eq_refl).
Defined.

(** A first frame named [pusher:connection_established] whose data is not
    a JSON string: [Connect] returns an error and the client is not
    connected. *)
Lemma Connect_established_undecodable_counterexample :
  exists w',
    Connect "" (fresh [DialOk (serving [established "{}"])])
      = Returns (Some (ErrUnmarshalToString (UnmarshalTypeError "object" "string"))) w' /\
    connected (client w') = false.
Proof. eexists. split; [vm_compute; reflexivity|reflexivity]. Qed.

(** ** The back-off loop *)

Lemma reconnectLoop_step (n : nat) (w : World) :
  reconnectLoop (S n) w =
  (connectInternal ≫= fun err =>
     match err with
     | None => sendError ErrReconnectionSuccessful
     | Some err => sendError (ErrReconnectionFailed err) ;; reconnectLoop n
     end) (attempted w).
Proof.
  simpl. run. rewrite sendError_spec. simpl. unfold attempted, backoff. simpl.
  by destruct (try_send _ _).
Qed.

Lemma attempted_network (w : World) : network (attempted w) = network w.
Proof. unfold attempted. simpl. by destruct (try_send _ _). Qed.

Lemma attempted_ReconnectDelay (w : World) :
  ReconnectDelay (client (attempted w)) = backoff (ReconnectDelay (client w)).
Proof. unfold attempted. simpl. by destruct (try_send _ _). Qed.

Lemma attempted_pongFailures (w : World) :
  pongFailures (client (attempted w)) = pongFailures (client w).
Proof. unfold attempted. simpl. by destruct (try_send _ _). Qed.

Lemma attempted_slept (w : World) :
  slept (attempted w) = slept w ++ [ReconnectDelay (client w)].
Proof. unfold attempted. simpl. by destruct (try_send _ _). Qed.

Lemma attempted_wfRegistry (w : World) : wfRegistry w -> wfRegistry (attempted w).
Proof.
  intros H m n l Hm Hl. unfold attempted in *. simpl in *.
  destruct (try_send _ _); simpl in *; eapply H; try done; by destruct (client w).
Qed.

(** A handshake over a failing attempt returns an error and uses the
    attempt up. *)
Lemma connectInternal_fails (w : World) :
  forallb handshakeFails (take 1 (network w)) = true ->
  exists err w', connectInternal w = Returns (Some err) w' /\
                 network w' = tail (network w) /\
                 connected (client w') = connected (client w).
Proof.
  destruct (network w) as [|[err|conn] rest] eqn:Hn; simpl.
  - intros _. rewrite connectInternal_refused by done. eauto.
  - intros _. rewrite (connectInternal_dial_fails _ _ _ Hn). eauto.
  - rewrite andb_true_r. intros Hf.
    destruct (closes conn) as [|k] eqn:Hc; simpl in Hf.
    + destruct (incoming conn) as [|[event|err] more] eqn:Hi.
      * unfold connectInternal, websocket_Dial. run. rewrite Hn. run.
        unfold websocket_JSON_Receive, deref_ws. run. rewrite lookup_last. run.
        rewrite Hc, Hi. run. eauto.
      * assert (Hff : firstFrame w event conn) by (by exists rest, more).
        rewrite (connectInternal_firstFrame _ _ _ Hff).
        assert (Hnet : network (afterFirstFrame w conn) = rest) by (simpl; by rewrite Hn).
        destruct (String.eqb (evEvent event) pusherError) eqn:E1.
        { apply String.eqb_eq in E1. rewrite firstEvent_pusherError by done. eauto. }
        destruct (String.eqb (evEvent event) pusherConnEstablished) eqn:E2.
        { apply String.eqb_eq in E2.
          destruct (UnmarshalDataString (evData event) zeroConnData) as [err|cd] eqn:Ed; [|done].
          rewrite (firstEvent_undecodable _ _ err) by done. eauto. }
        apply String.eqb_neq in E1, E2. rewrite firstEvent_unknown by done. eauto.
      * unfold connectInternal, websocket_Dial. run. rewrite Hn. run.
        unfold websocket_JSON_Receive, deref_ws. run. rewrite lookup_last. run.
        rewrite Hc, Hi. run. eauto.
    + unfold connectInternal, websocket_Dial. run. rewrite Hn. run.
      unfold websocket_JSON_Receive, deref_ws. run. rewrite lookup_last. run.
      rewrite Hc. run. eauto.
Qed.

Lemma forallb_tail {A} (p : A -> bool) (l : list A) :
  forallb p l = true -> forallb p (tail l) = true.
Proof. destruct l; simpl; [done|]. by intros [_ ?]%andb_true_iff. Qed.

Lemma forallb_take {A} (p : A -> bool) (l : list A) (k : nat) :
  forallb p l = true -> forallb p (take k l) = true.
Proof.
  revert k. induction l as [|x l IH]; intros [|k]; simpl; try done.
  intros [-> ?]%andb_true_iff. simpl. by apply IH.
Qed.

(** Under sustained failure the loop is still running after any number of
    iterations, and has slept the successive delays. *)
Lemma reconnectLoop_sustained_failure (n : nat) (w : World) :
  forallb handshakeFails (network w) = true ->
  exists w', reconnectLoop n w = Running w' /\
             slept w' = slept w ++ delays (ReconnectDelay (client w)) n /\
             ReconnectDelay (client w') = Nat.iter n backoff (ReconnectDelay (client w)).
Proof.
  revert w. induction n as [|n IH]; intros w Hf.
  - exists w. simpl. by rewrite app_nil_r.
  - rewrite reconnectLoop_step.
    destruct (connectInternal_fails (attempted w)) as (err & w1 & Hc & Hn & _).
    { rewrite attempted_network. by apply forallb_take. }
    rewrite (bind_returns _ _ _ _ _ Hc). rewrite bind_unfold, sendError_spec.
    pose proof (loopObs_connectInternal (attempted w)) as Hobs.
    rewrite Hc in Hobs. unfold final, loopObs in Hobs.
    pose proof (f_equal (fun x => fst (fst (fst x))) Hobs) as Hrd.
    pose proof (f_equal snd Hobs) as Hsl. cbn [fst snd] in Hrd, Hsl. clear Hobs.
    set (w2 := match try_send _ _ with Some _ => _ | None => _ end).
    assert (H2 : network w2 = tail (network w) /\ slept w2 = slept w1 /\
                 ReconnectDelay (client w2) = ReconnectDelay (client w1)).
    { unfold w2. rewrite attempted_network in Hn.
      destruct (try_send (Errors (client w1)) _); simpl; by rewrite Hn. }
    destruct H2 as (Hn2 & Hs2 & Hr2).
    destruct (IH w2) as (w' & Hrun & Hs & Hr).
    { rewrite Hn2. by apply forallb_tail. }
    exists w'. split; [exact Hrun|].
    rewrite Hs, Hr, Hs2, Hr2, Hsl, Hrd, attempted_slept, attempted_ReconnectDelay.
    simpl. split.
    + by rewrite <- app_assoc.
    + by rewrite Nat.iter_swap.
Qed.

(** A handshake that succeeds inside the loop ends it: the client is
    connected again, and the delay stays doubled and the pong failure count
    stays what it was. *)
Lemma reconnectLoop_success (n : nat) (w : World) (event : Event) (conn : Conn)
      (cd : connectionData) :
  firstFrame w event conn ->
  evEvent event = pusherConnEstablished ->
  UnmarshalDataString (evData event) zeroConnData = inr cd ->
  wfRegistry w ->
  exists w', reconnectLoop (S n) w = Returns tt w' /\
             connected (client w') = true /\
             socketID (client w') = SocketID cd /\
             ReconnectDelay (client w') = backoff (ReconnectDelay (client w)) /\
             pongFailures (client w') = pongFailures (client w) /\
             slept w' = slept w ++ [ReconnectDelay (client w)].
Proof.
  intros Hff He Hd Hwf. rewrite reconnectLoop_step.
  assert (Hff' : firstFrame (attempted w) event conn).
  { destruct Hff as (rest & more & ? & ? & ?). exists rest, more.
    by rewrite attempted_network. }
  destruct (connectInternal_established (attempted w) event conn cd Hff' He Hd
              (attempted_wfRegistry w Hwf)) as (r & w1 & Hc & -> & Hk).
  rewrite (bind_returns _ _ _ _ _ Hc). rewrite sendError_spec.
  pose proof (loopObs_connectInternal (attempted w)) as Hobs.
  rewrite Hc in Hobs. unfold final, loopObs in Hobs.
  pose proof (f_equal (fun x => fst (fst (fst x))) Hobs) as Hrd.
  pose proof (f_equal (fun x => snd (fst (fst x))) Hobs) as Hpf.
  pose proof (f_equal snd Hobs) as Hsl. cbn [fst snd] in Hrd, Hpf, Hsl. clear Hobs.
  pose proof (keeps_field connected _ _ (fun _ => eq_refl) Hk) as H1.
  pose proof (keeps_field socketID _ _ (fun _ => eq_refl) Hk) as H2.
  rewrite client_started in H1, H2.
  rewrite establish_connected in H1. rewrite establish_socketID in H2.
  eexists. split; [reflexivity|].
  rewrite <- (attempted_ReconnectDelay w), <- (attempted_pongFailures w), <- (attempted_slept w).
  rewrite <- Hrd, <- Hpf, <- Hsl.
  destruct (try_send (Errors (client w1)) _); simpl; by rewrite H1, H2.
Qed.

(** ** Where the delay and the pong failure count are reset *)

Lemma backoffObs_connectInternal : stable backoffObs connectInternal.
Proof.
  intros w. pose proof (loopObs_connectInternal w) as H.
  unfold loopObs in H. unfold backoffObs. congruence.
Qed.

(** C1 (amended). [Connect] sets [ReconnectDelay] to the initial value
    (1 s) and [pongFailures] to 0 before it starts the handshake, and they
    have these values when it returns, whatever the handshake gave.  The
    handshake itself, [connectInternal], leaves both as it finds them, so
    after a handshake performed by the reconnection loop the delay is the
    doubled delay of that loop and the count is what it was.  Both are
    set back to 1 s and 0 when a pong arrives. *)
Theorem reconnectDelay_and_pongFailures_reset :
  (forall appKey w,
      ReconnectDelay (client (final (Connect appKey w))) = initialReconnectDelay /\
      pongFailures (client (final (Connect appKey w))) = 0) /\
  (forall appKey w w',
      Connect appKey w = Returns None w' ->
      ReconnectDelay (client w') = 1 * Time.Second /\ pongFailures (client w') = 0) /\
  (forall w,
      ReconnectDelay (client (final (connectInternal w))) = ReconnectDelay (client w) /\
      pongFailures (client (final (connectInternal w))) = pongFailures (client w)) /\
  (forall n w event conn cd,
      firstFrame w event conn ->
      evEvent event = pusherConnEstablished ->
      UnmarshalDataString (evData event) zeroConnData = inr cd ->
      wfRegistry w ->
      exists w', reconnectLoop (S n) w = Returns tt w' /\
                 connected (client w') = true /\
                 ReconnectDelay (client w') = backoff (ReconnectDelay (client w)) /\
                 pongFailures (client w') = pongFailures (client w)) /\
  (forall fuel w,
      exists w', pongWaiter fuel pongArrived w = Returns tt w' /\
                 ReconnectDelay (client w') = initialReconnectDelay /\
                 pongFailures (client w') = 0).
Proof.
  assert (HC : forall appKey w,
      ReconnectDelay (client (final (Connect appKey w))) = initialReconnectDelay /\
      pongFailures (client (final (Connect appKey w))) = 0).
  { intros appKey w. rewrite Connect_prepared.
    pose proof (backoffObs_connectInternal (prepared appKey w)) as H.
    unfold backoffObs in H. simpl in H. by injection H as -> ->. }
  split; [exact HC|]. split; [|split; [|split]].
  - intros appKey w w' H. specialize (HC appKey w). rewrite H in HC. exact HC.
  - intros w. pose proof (backoffObs_connectInternal w) as H.
    unfold backoffObs in H. by injection H as -> ->.
  - intros n w event conn cd Hf He Hd Hwf.
    destruct (reconnectLoop_success n w event conn cd Hf He Hd Hwf)
      as (w' & H1 & H2 & _ & H4 & H5 & _).
    by exists w'.
  - intros fuel w. eexists. split; [reflexivity|]. done.
Qed.

(** A client whose dial is answered by a decodable
    [pusher:connection_established]: [Connect] leaves 1 s and 0; a
    reconnection entered with a delay of 1 s leaves 2 s. *)
Lemma reconnectDelay_reset_witness :
  let data := (text "'{\'socket_id\':\'foo\',\'activity_timeout\':1234}'") in
  let w := fresh [DialOk (serving [established data])] in
  (forall w', Connect "" w = Returns None w' ->
              ReconnectDelay (client w') = 1 * Time.Second /\ pongFailures (client w') = 0) /\
  exists w', reconnectLoop 1 (prepared "" w) = Returns tt w' /\
             connected (client w') = true /\
             ReconnectDelay (client w') = 2 * Time.Second /\
             pongFailures (client w') = 0.
Proof.
  intros data w. split.
  - exact (proj1 (proj2 reconnectDelay_and_pongFailures_reset) "" w).
  - destruct (proj1 (proj2 (proj2 (proj2 reconnectDelay_and_pongFailures_reset)))
                0%nat (prepared "" w) _ (serving [established data])
                {| SocketID := "foo"; ActivityTimeout := 1234 |}
                (ex_intro _ [] (ex_intro _ [] (conj eq_refl (conj eq_refl eq_refl))))
                eq_refl eq_refl)
      as (w' & H1 & H2 & H3 & H4).
    + intros m n l Hm. discriminate Hm.
    + exists w'. repeat split; assumption.
Defined.

(** A session that misses two pongs and reconnects at the first attempt:
    the handshake of the reconnection loop succeeds, and the delay is 2 s
    and the failure count 2 when it returns. *)
Lemma reconnect_handshake_no_reset_counterexample :
  let first := (text "'{\'socket_id\':\'socket-1\',\'activity_timeout\':120}'") in
  let second := (text "'{\'socket_id\':\'socket-2\',\'activity_timeout\':120}'") in
  let w := fresh [DialOk (serving [established first]); DialOk (serving [established second])] in
  exists w',
    (Connect "app" ;; pongWaiter 1 pongTimedOut ;; pongWaiter 1 pongTimedOut) w
      = Returns tt w' /\
    connected (client w') = true /\
    socketID (client w') = "socket-2" /\
    ReconnectDelay (client w') = 2 * Time.Second /\
    pongFailures (client w') = 2 /\
    ~ (ReconnectDelay (client w') = initialReconnectDelay /\ pongFailures (client w') = 0).
Proof.
  intros first second w. eexists. split; [vm_compute; reflexivity|].
  repeat split. intros [H _]. discriminate H.
Qed.

(** ** The sequence of delays *)

Lemma backoff_in_range (d : Z) :
  0 <= d <= maxReconnectDelay ->
  backoff d = Z.min (2 * d) (60 * Time.Second) /\ d <= backoff d <= maxReconnectDelay.
Proof.
  unfold backoff, min, maxReconnectDelay, Time.mul, Time.Second. intros H.
  rewrite wrap64_small by (unfold Time.minInt64, Time.maxInt64; lia).
  destruct (Z.ltb_spec (d * 2) (60 * 1000000000)); lia.
Qed.

Lemma backoff_cap : backoff maxReconnectDelay = maxReconnectDelay.
Proof. reflexivity. Qed.

Lemma delays_le_max (n : nat) (d : Z) :
  0 <= d <= maxReconnectDelay -> Forall (fun x => 0 <= x <= 60 * Time.Second) (delays d n).
Proof.
  revert d. induction n as [|n IH]; intros d Hd; simpl; constructor.
  - exact Hd.
  - apply IH. destruct (backoff_in_range d Hd). lia.
Qed.

Lemma claimedDelay_range (n : nat) : 1 * Time.Second <= claimedDelay n <= 60 * Time.Second.
Proof. induction n as [|n IH]; simpl; unfold Time.Second in *; lia. Qed.

Lemma claimedDelay_capped (n : nat) : (6 <= n)%nat -> claimedDelay n = 60 * Time.Second.
Proof.
  intros H. induction H as [|n H IH]; [reflexivity|].
  simpl. rewrite IH. unfold Time.Second. lia.
Qed.

Lemma delays_claimed (n k : nat) :
  delays (claimedDelay k) n = map claimedDelay (seq k n).
Proof.
  revert k. induction n as [|n IH]; intros k; simpl; [done|].
  f_equal. rewrite <- IH. f_equal.
  pose proof (claimedDelay_range k).
  destruct (backoff_in_range (claimedDelay k)) as [-> _]; [|done].
  unfold maxReconnectDelay, Time.Second in *. lia.
Qed.

Lemma delays_at_cap (n : nat) : delays maxReconnectDelay n = replicate n maxReconnectDelay.
Proof. induction n as [|n IH]; simpl; [done|]. by rewrite backoff_cap, IH. Qed.

(** C2 (amended). Under sustained failure the back-off loop never
    returns, and the delays it sleeps are [d_0], the value of
    [ReconnectDelay] when the loop is entered, and [d_{n+1} = min(2 * d_n,
    60 s)] (the doubling computed in 64 bits).  [d_0] is 1 s when the loop
    is entered after [Connect] or after a pong, and then the delays are
    exactly the sequence [1 s, 2 s, 4 s, ...] capped at 60 s; when [d_0] lies
    between 0 and 60 s the doubling is exact and every delay is at most
    60 s; once the delay is 60 s it stays 60 s for ever. *)
Theorem backoff_delay_sequence :
  (forall n w,
      forallb handshakeFails (network w) = true ->
      exists w', reconnectLoop n w = Running w' /\
                 slept w' = slept w ++ delays (ReconnectDelay (client w)) n) /\
  (forall d n, delays d (S n) = d :: delays (min (Time.mul d 2) maxReconnectDelay) n) /\
  (forall d, 0 <= d <= 60 * Time.Second ->
      min (Time.mul d 2) maxReconnectDelay = Z.min (2 * d) (60 * Time.Second)) /\
  (forall d n, 0 <= d <= 60 * Time.Second ->
      Forall (fun x => 0 <= x <= 60 * Time.Second) (delays d n)) /\
  (forall n w,
      ReconnectDelay (client w) = initialReconnectDelay ->
      forallb handshakeFails (network w) = true ->
      exists w', reconnectLoop n w = Running w' /\
                 slept w' = slept w ++ map claimedDelay (seq 0 n)) /\
  (forall n, (6 <= n)%nat -> claimedDelay n = 60 * Time.Second) /\
  (forall n, delays (60 * Time.Second) n = replicate n (60 * Time.Second)) /\
  (forall appKey w fuel, exists w',
      pongWaiter fuel pongArrived w = Returns tt w' /\
      ReconnectDelay (client w') = 1 * Time.Second /\
      ReconnectDelay (client (final (Connect appKey w))) = 1 * Time.Second).
Proof.
  repeat split.
  - intros n w Hf. destruct (reconnectLoop_sustained_failure n w Hf) as (w' & H1 & H2 & _).
    by exists w'.
  - intros d Hd. by destruct (backoff_in_range d Hd).
  - intros d n Hd. by apply delays_le_max.
  - intros n w Hd Hf. destruct (reconnectLoop_sustained_failure n w Hf) as (w' & H1 & H2 & _).
    exists w'. split; [done|]. rewrite H2, Hd. f_equal. apply (delays_claimed n 0).
  - apply claimedDelay_capped.
  - apply delays_at_cap.
  - intros appKey w fuel. eexists. split; [reflexivity|]. split; [reflexivity|].
    rewrite Connect_prepared.
    pose proof (backoffObs_connectInternal (prepared appKey w)) as H.
    unfold backoffObs in H. simpl in H. by injection H as -> _.
Qed.

(** Nobody answers the dials: entered with 1 s, the loop sleeps
    1, 2, 4, 8, 16, 32, 60, 60 seconds and is still running. *)
Lemma backoff_delay_witness :
  exists w',
    reconnectLoop 8 (prepared "" (fresh [])) = Running w' /\
    slept w' = map (fun s => s * Time.Second) [1; 2; 4; 8; 16; 32; 60; 60].
Proof.
  destruct (proj1 (proj2 (proj2 (proj2 (proj2 backoff_delay_sequence)))) 8%nat
              (prepared "" (fresh [])) eq_refl eq_refl) as (w' & H1 & H2).
  exists w'. split; [exact H1|]. rewrite H2. reflexivity.
Defined.

(** A reconnection that succeeds at its first attempt leaves the delay at
    2 s; when the connection drops again before any pong, the next back-off
    loop starts from 2 s, not from 1 s. *)
Lemma backoff_first_delay_counterexample :
  let data := (text "'{\'socket_id\':\'foo\',\'activity_timeout\':120}'") in
  let w := fresh [DialOk (serving [established data]); DialOk (serving [established data])] in
  exists w1 w2,
    (Connect "app" ;; attemptReconnect 1) w = Returns tt w1 /\
    connected (client w1) = true /\
    slept w1 = [1 * Time.Second] /\
    forallb handshakeFails (network w1) = true /\
    attemptReconnect 3 w1 = Running w2 /\
    slept w2 = slept w1 ++ [2 * Time.Second; 4 * Time.Second; 8 * Time.Second] /\
    nth 0 (drop (length (slept w1)) (slept w2)) 0 <> claimedDelay 0.
Proof.
  intros data w. eexists _, _.
  split; [vm_compute; reflexivity|].
  split; [reflexivity|]. split; [reflexivity|]. split; [reflexivity|].
  split; [vm_compute; reflexivity|].
  split; [reflexivity|]. by vm_compute.
Qed.

(** ** The channel registry *)

Lemma typedRegistry_wf (w : World) : typedRegistry w -> wfRegistry w.
Proof.
  intros H m n l Hm Hl. destruct (H m n l Hm Hl) as (ch & Hch & _).
  by eapply lookup_lt_Some.
Qed.

Lemma presence_not_private (channelName : string) :
  String.prefix "presence-" channelName = true ->
  String.prefix "private-" channelName = false.
Proof.
  destruct channelName as [|c0 [|c1 [|c2 r]]]; cbn -[ascii_dec]; try done;
    repeat match goal with
           | |- context [ascii_dec ?a ?b] => destruct (ascii_dec a b); try done; subst
           end.
Qed.

Lemma newChannel_presence (channelName : string) :
  String.prefix "presence-" channelName = true ->
  newChannel channelName = presenceChannel {| name := channelName; subscribed := false |}.
Proof.
  intros H. unfold newChannel. by rewrite (presence_not_private _ H), H.
Qed.

Lemma Subscribe_existing (channelName : string) (opts : list SubscribeOption) (w : World)
      (m : gmap string nat) (l : nat) :
  subscribedChannels (client w) = Some m -> m !! channelName = Some l ->
  dialled w -> (l < length (heap w))%nat ->
  exists err w', Subscribe channelName opts w = Returns (l, err) w' /\
                 keeps w w' /\ heap w' = heap w.
Proof.
  intros Hm Hl Hd Hlt. unfold Subscribe. run. rewrite Hm. simpl. rewrite Hl. run.
  destruct (channel_Subscribe_keeps l opts w Hd Hlt) as (err & w' & -> & Hk & Hh).
  by exists err, w'.
Qed.

Lemma Subscribe_new (channelName : string) (opts : list SubscribeOption) (w : World)
      (m : gmap string nat) :
  subscribedChannels (client w) = Some m -> m !! channelName = None ->
  dialled w ->
  exists err w',
    Subscribe channelName opts w = Returns (length (heap w), err) w' /\
    keeps (with_client
             (set_subscribedChannels (Some (<[channelName := length (heap w)]> m)) (client w))
             (with_heap (heap w ++ [newChannel channelName]) w)) w' /\
    heap w' = heap w ++ [newChannel channelName].
Proof.
  intros Hm Hl Hd. unfold Subscribe. run. rewrite Hm. simpl. rewrite Hl. run.
  unfold register. run. rewrite Hm. run.
  set (w1 := with_client _ _).
  destruct (channel_Subscribe_keeps (length (heap w)) opts w1) as (err & w' & -> & Hk & Hh).
  - destruct Hd as (h & ? & ?). by exists h.
  - simpl. rewrite length_app. simpl. lia.
  - by exists err, w'.
Qed.

Lemma typedRegistry_keeps (w w' : World) :
  keeps w w' -> heap w' = heap w -> typedRegistry w -> typedRegistry w'.
Proof.
  intros Hk Hh Ht m n l Hm Hl.
  rewrite (keeps_field subscribedChannels w w') in Hm by done. rewrite Hh. eauto.
Qed.

Lemma sameVariant_refl (ch : internalChannel) : sameVariant ch ch = true.
Proof. by destruct ch. Qed.

(** [Subscribe] keeps the registry typed: it is an invariant of every
    registry that starts empty. *)
Lemma Subscribe_typedRegistry (channelName : string) (opts : list SubscribeOption)
      (w : World) (m : gmap string nat) :
  subscribedChannels (client w) = Some m -> dialled w -> typedRegistry w ->
  exists r w', Subscribe channelName opts w = Returns r w' /\ typedRegistry w' /\ dialled w'.
Proof.
  intros Hm Hd Ht. destruct (m !! channelName) as [l|] eqn:Hl.
  - destruct (Subscribe_existing channelName opts w m l Hm Hl Hd) as (err & w' & H & Hk & Hh).
    { by eapply (typedRegistry_wf w Ht). }
    exists (l, err), w'. split; [done|]. split; [by eapply typedRegistry_keeps|].
    by eapply keeps_dialled.
  - destruct (Subscribe_new channelName opts w m Hm Hl Hd) as (err & w' & H & Hk & Hh).
    eexists _, w'. split; [exact H|]. split.
    + eapply typedRegistry_keeps; [exact Hk|by rewrite Hh|].
      intros m' n l. simpl. intros [= <-] Hn.
      destruct (decide (channelName = n)) as [->|Hne].
      * rewrite lookup_insert_eq in Hn. injection Hn as <-.
        exists (newChannel n). rewrite lookup_last. split; [done|apply sameVariant_refl].
      * rewrite lookup_insert_ne in Hn by done.
        destruct (Ht m n l Hm Hn) as (ch & Hch & Hv). exists ch. split; [|done].
        rewrite lookup_app_l; [done|]. by eapply lookup_lt_Some.
    + eapply keeps_dialled; [exact Hk|]. destruct Hd as (h & ? & ?). by exists h.
Qed.

(** C6. [Subscribe] is idempotent per channel name.  For a name present
    in the registry it returns the object the registry holds and leaves the
    registry and the channel objects as they are.  For an absent name it
    creates exactly one object, of the variant the prefix of the name
    calls for (["private-"] private, ["presence-"] presence, anything else
    public), registers it under the name and returns it; a second
    [Subscribe] of that name returns the same object and creates nothing.
    In both cases a channel object is returned whatever the error is.
    [SubscribePresence] returns an invalid-name error and no channel for a
    name that does not start with ["presence-"], and otherwise returns what
    [Subscribe] returns. *)
Theorem Subscribe_idempotent_per_name :
  forall (channelName : string) (opts : list SubscribeOption) (w : World) (m : gmap string nat),
    subscribedChannels (client w) = Some m ->
    dialled w ->
    typedRegistry w ->
    (forall l, m !! channelName = Some l ->
       exists err w',
         Subscribe channelName opts w = Returns (l, err) w' /\
         subscribedChannels (client w') = Some m /\
         heap w' = heap w /\
         is_Some (heap w' !! l)) /\
    (m !! channelName = None ->
       exists err w',
         Subscribe channelName opts w = Returns (length (heap w), err) w' /\
         subscribedChannels (client w') = Some (<[channelName := length (heap w)]> m) /\
         heap w' = heap w ++ [newChannel channelName] /\
         heap w' !! length (heap w) = Some (newChannel channelName) /\
         exists err2 w2,
           Subscribe channelName opts w' = Returns (length (heap w), err2) w2 /\
           subscribedChannels (client w2) = subscribedChannels (client w') /\
           heap w2 = heap w') /\
    (let base := {| name := channelName; subscribed := false |} in
     (String.prefix "private-" channelName = true ->
        newChannel channelName = privateChannel base) /\
     (String.prefix "presence-" channelName = true ->
        newChannel channelName = presenceChannel base) /\
     (String.prefix "private-" channelName = false ->
      String.prefix "presence-" channelName = false ->
        newChannel channelName = publicChannel base)) /\
    (String.prefix "presence-" channelName = false ->
       SubscribePresence channelName opts w
         = Returns (None, Some (ErrInvalidPresenceChannelName channelName)) w) /\
    (String.prefix "presence-" channelName = true ->
       exists l err w',
         Subscribe channelName opts w = Returns (l, err) w' /\
         SubscribePresence channelName opts w = Returns (Some l, err) w').
Proof.
  intros channelName opts w m Hm Hd Ht.
  pose proof (typedRegistry_wf w Ht) as Hwf.
  assert (Hex : forall l, m !! channelName = Some l ->
       exists err w',
         Subscribe channelName opts w = Returns (l, err) w' /\
         subscribedChannels (client w') = Some m /\
         heap w' = heap w /\
         is_Some (heap w' !! l)).
  { intros l Hl.
    destruct (Subscribe_existing channelName opts w m l Hm Hl Hd) as (err & w' & H & Hk & Hh).
    { by eapply Hwf. }
    exists err, w'. split; [done|]. split; [|split; [done|]].
    - by rewrite (keeps_field subscribedChannels w w').
    - rewrite Hh. apply lookup_lt_is_Some_2. by eapply Hwf. }
  assert (Hnew : m !! channelName = None ->
       exists err w',
         Subscribe channelName opts w = Returns (length (heap w), err) w' /\
         subscribedChannels (client w') = Some (<[channelName := length (heap w)]> m) /\
         heap w' = heap w ++ [newChannel channelName] /\
         dialled w').
  { intros Hl.
    destruct (Subscribe_new channelName opts w m Hm Hl Hd) as (err & w' & H & Hk & Hh).
    exists err, w'. split; [done|]. split; [|split; [done|]].
    - by rewrite (keeps_field subscribedChannels _ w' (fun _ => eq_refl) Hk).
    - eapply keeps_dialled; [exact Hk|]. destruct Hd as (h & ? & ?). by exists h. }
  split; [exact Hex|]. split; [|split; [|split]].
  - intros Hl. destruct (Hnew Hl) as (err & w' & H & Hr & Hh & Hd').
    exists err, w'. split; [done|]. split; [done|]. split; [done|].
    split; [rewrite Hh; apply lookup_last|].
    destruct (Subscribe_existing channelName opts w' _ (length (heap w)) Hr) as (e2 & w2 & H2 & Hk2 & Hh2).
    + apply lookup_insert_eq.
    + done.
    + rewrite Hh, length_app. simpl. lia.
    + exists e2, w2. split; [done|]. split; [|done].
      by rewrite (keeps_field subscribedChannels w' w2).
  - simpl. unfold newChannel. split; [by intros ->|]. split.
    + intros H. by rewrite (presence_not_private _ H), H.
    + by intros -> ->.
  - intros Hp. unfold SubscribePresence. by rewrite Hp.
  - intros Hp. unfold SubscribePresence. rewrite Hp. simpl.
    destruct (m !! channelName) as [l|] eqn:Hl.
    + destruct (Hex l eq_refl) as (err & w' & H & _ & Hh & _).
      exists l, err, w'. split; [done|]. run. rewrite H. run.
      unfold deref_channel. rewrite Hh.
      destruct (Ht m channelName l Hm Hl) as (ch & -> & Hv).
      rewrite (newChannel_presence _ Hp) in Hv. by destruct ch.
    + destruct (Hnew eq_refl) as (err & w' & H & _ & Hh & _).
      exists (length (heap w)), err, w'. split; [done|]. run. rewrite H. run.
      unfold deref_channel. rewrite Hh, lookup_last.
      by rewrite (newChannel_presence _ Hp).
Qed.

(** A connected client with an empty registry: ["presence-foo"] is
    created as a presence channel and found again; ["foo"] is refused by
    [SubscribePresence]. *)
Lemma Subscribe_witness :
  let c := set_subscribedChannels (Some ∅) (set_ws (Some 0%nat) (set_connected true zeroClient)) in
  let w := {| client := c; conns := [serving []]; network := []; heap := []; goroutines := [];
              slept := []; authReplies := [AuthOk [("auth", JString "key:sig")]] |} in
  (exists err w',
      Subscribe "presence-foo" [] w = Returns (0%nat, err) w' /\
      heap w' = [presenceChannel {| name := "presence-foo"; subscribed := false |}] /\
      exists err2 w2, Subscribe "presence-foo" [] w' = Returns (0%nat, err2) w2 /\ heap w2 = heap w') /\
  SubscribePresence "foo" [] w = Returns (None, Some (ErrInvalidPresenceChannelName "foo")) w.
Proof.
  intros c w.
  assert (Hd : dialled w) by (exists 0%nat; split; [reflexivity|simpl; lia]).
  assert (Ht : typedRegistry w).
  { intros m n l Hm Hl. injection Hm as <-. rewrite lookup_empty in Hl. discriminate Hl. }
  destruct (Subscribe_idempotent_per_name "presence-foo" [] w ∅ eq_refl Hd Ht)
    as (_ & Hnew & _).
  destruct (Hnew (lookup_empty _)) as (err & w' & H1 & _ & H3 & _ & (err2 & w2 & H5 & _ & H7)).
  split.
  - exists err, w'. split; [exact H1|]. split; [exact H3|]. by exists err2, w2.
  - exact (proj1 (proj2 (proj2 (proj2 (Subscribe_idempotent_per_name "foo" [] w ∅ eq_refl Hd Ht))))
             eq_refl).
Defined.

(** * More of [client.go] *)

(** ** The back-off loop keeps the delay in range *)

Lemma backoff_le_cap (d : Z) : backoff d <= maxReconnectDelay.
Proof.
  unfold backoff, min. destruct (Z.ltb_spec (Time.mul d 2) maxReconnectDelay); lia.
Qed.

Lemma backoffObs_sendError (err : error) : stable backoffObs (sendError err).
Proof. intros w. rewrite sendError_spec. simpl. by destruct (try_send _ _). Qed.

Lemma reconnectLoop_final_delay (fuel : nat) (w : World) :
  exists k, (k <= fuel)%nat /\
    ReconnectDelay (client (final (reconnectLoop fuel w)))
      = Nat.iter k backoff (ReconnectDelay (client w)).
Proof.
  revert w. induction fuel as [|n IH]; intros w.
  - exists 0%nat. split; [lia|done].
  - rewrite reconnectLoop_step, bind_unfold.
    pose proof (backoffObs_connectInternal (attempted w)) as Hobs.
    unfold backoffObs in Hobs. apply (f_equal fst) in Hobs. cbn [fst] in Hobs.
    rewrite attempted_ReconnectDelay in Hobs.
    destruct (connectInternal (attempted w)) as [[err|] w1|why w1|w1|w1]; unfold final in Hobs.
    + rewrite bind_unfold, sendError_spec.
      set (w2 := match try_send _ _ with Some _ => _ | None => _ end).
      assert (H2 : ReconnectDelay (client w2) = ReconnectDelay (client w1)).
      { unfold w2. by destruct (try_send (Errors (client w1)) _). }
      destruct (IH w2) as (k & Hk & Hf). exists (S k). split; [lia|].
      rewrite Hf, H2, Hobs. simpl. by rewrite Nat.iter_swap.
    + exists 1%nat. split; [lia|].
      pose proof (backoffObs_sendError ErrReconnectionSuccessful w1) as Hs.
      unfold backoffObs in Hs. apply (f_equal fst) in Hs. cbn [fst] in Hs.
      rewrite Hs. exact Hobs.
    + exists 1%nat. split; [lia|]. exact Hobs.
    + exists 1%nat. split; [lia|]. exact Hobs.
    + exists 1%nat. split; [lia|]. exact Hobs.
Qed.

Lemma iter_backoff_range (k : nat) (d : Z) :
  initialReconnectDelay <= d <= maxReconnectDelay ->
  initialReconnectDelay <= Nat.iter k backoff d <= maxReconnectDelay.
Proof.
  intros Hd. induction k as [|k IH]; simpl; [done|].
  destruct (backoff_in_range (Nat.iter k backoff d)) as [_ H].
  - unfold initialReconnectDelay, Time.Second in *. lia.
  - lia.
Qed.

(** X1. The stored delay never exceeds the cap after a back-off step,
    whatever it was before (also when the doubling overflows 64 bits); and
    a back-off loop entered with a delay between 1 s and 60 s leaves a
    delay between 1 s and 60 s, however many attempts it makes and however
    it ends. *)
Theorem reconnectLoop_keeps_delay_in_range :
  (forall d, min (Time.mul d 2) maxReconnectDelay <= 60 * Time.Second) /\
  (forall fuel w,
      1 * Time.Second <= ReconnectDelay (client w) <= 60 * Time.Second ->
      1 * Time.Second <= ReconnectDelay (client (final (reconnectLoop fuel w)))
        <= 60 * Time.Second).
Proof.
  split.
  - apply backoff_le_cap.
  - intros fuel w Hd. destruct (reconnectLoop_final_delay fuel w) as (k & _ & ->).
    by apply iter_backoff_range.
Qed.

(** Entered with 1 s and with nobody answering, the loop holds 60 s after
    ten attempts. *)
Lemma reconnectLoop_keeps_delay_witness :
  1 * Time.Second <= ReconnectDelay (client (final (reconnectLoop 10 (prepared "" (fresh [])))))
    <= 60 * Time.Second.
Proof.
  apply (proj2 reconnectLoop_keeps_delay_in_range 10%nat (prepared "" (fresh []))).
  vm_compute. split; discriminate.
Defined.

(** ** No reconnection on a disconnected client *)

Lemma attemptReconnect_disconnected (fuel : nat) (w : World) :
  connected (client w) = false -> attemptReconnect fuel w = Returns tt w.
Proof. intros H. unfold attemptReconnect. rewrite bind_getClient. by rewrite H. Qed.

(** X2. [attemptReconnect] on a client that is not connected returns at
    once and changes nothing: no dial, no sleep, no close.  In particular,
    after [Disconnect] on a connected client a reconnection asked for by
    the reader or the heartbeat does nothing. *)
Theorem attemptReconnect_does_nothing_when_disconnected :
  (forall fuel w, connected (client w) = false -> attemptReconnect fuel w = Returns tt w) /\
  (forall fuel w h conn,
      connected (client w) = true ->
      ws (client w) = Some h ->
      conns w !! h = Some conn ->
      done (client w) <> Some Closed ->
      exists w1, Disconnect w = Returns (closeResult conn) w1 /\
                 attemptReconnect fuel w1 = Returns tt w1 /\
                 (Disconnect ;; attemptReconnect fuel) w = Returns tt w1).
Proof.
  split; [apply attemptReconnect_disconnected|].
  intros fuel w h conn Hc Hw Hh Hd.
  eexists. split; [by apply Disconnect_connected|]. split.
  - by apply attemptReconnect_disconnected.
  - rewrite bind_unfold, (Disconnect_connected w h conn) by done.
    by apply attemptReconnect_disconnected.
Qed.

(** A connected client with a dialled connection. *)
Lemma attemptReconnect_does_nothing_witness :
  let w := {| client := set_ws (Some 0%nat) (set_connected true zeroClient);
              conns := [serving []]; network := [DialOk (serving [])]; heap := [];
              goroutines := []; slept := []; authReplies := [] |} in
  exists w1, (Disconnect ;; attemptReconnect 5) w = Returns tt w1 /\
             slept w1 = [] /\ network w1 = network w.
Proof.
  intros w.
  destruct (proj2 attemptReconnect_does_nothing_when_disconnected 5%nat w 0%nat (serving [])
              eq_refl eq_refl eq_refl) as (w1 & H1 & _ & H3); [discriminate|].
  exists w1. split; [exact H3|].
  rewrite (Disconnect_connected w 0%nat (serving [])) in H1 by (reflexivity || discriminate).
  injection H1 as <-. split; reflexivity.
Defined.

(** ** The pong waiter *)

(** X3. When a pong times out the failure count goes up by one and the
    time-out is reported to the error sink.  Below [maxPongFailures] (2)
    nothing else happens: the client stays as connected as it was, and no
    connection is touched, no sleep taken and no dial made.  From the
    second consecutive time-out on, the reaching of the limit is reported
    too and [attemptReconnect] runs. *)
Theorem pongWaiter_timeout_counts_then_reconnects :
  forall fuel w,
    Time.minInt64 <= pongFailures (client w) < Time.maxInt64 ->
    let n := pongFailures (client w) + 1 in
    let counted := with_client (set_pongFailures n (client w)) w in
    exists reported,
      sendError (ErrPongTimeout n) counted = Returns tt reported /\
      pongFailures (client reported) = n /\
      (n < maxPongFailures ->
         pongWaiter fuel pongTimedOut w = Returns tt reported /\
         connected (client reported) = connected (client w) /\
         conns reported = conns w /\ slept reported = slept w /\
         network reported = network w) /\
      (maxPongFailures <= n ->
         pongWaiter fuel pongTimedOut w
           = (sendError ErrMaxPongFailures ;; attemptReconnect fuel) reported).
Proof.
  intros fuel w Hn n counted.
  assert (Hw : Time.wrap64 (pongFailures (client w) + 1) = n).
  { apply wrap64_small. unfold n. lia. }
  rewrite sendError_spec. eexists. split; [reflexivity|].
  set (reported := match try_send _ _ with Some _ => _ | None => _ end).
  assert (Hp : pongFailures (client reported) = n).
  { unfold reported. by destruct (try_send (Errors (client counted)) _). }
  split; [exact Hp|].
  assert (Hrun : pongWaiter fuel pongTimedOut w =
                 (if maxPongFailures <=? n
                  then sendError ErrMaxPongFailures ;; attemptReconnect fuel
                  else mret tt) reported).
  { unfold pongWaiter. rewrite bind_getClient, bind_update, Hw, bind_getClient.
    fold counted. rewrite bind_unfold, sendError_spec.
    change (pongFailures (client counted)) with n. reflexivity. }
  split.
  - intros Hlt. rewrite Hrun.
    destruct (Z.leb_spec maxPongFailures n); [lia|].
    split; [reflexivity|].
    unfold reported. by destruct (try_send (Errors (client counted)) _).
  - intros Hge. rewrite Hrun.
    destruct (Z.leb_spec maxPongFailures n); [reflexivity|lia].
Qed.

(** A session with no missed pong: the first time-out only counts. *)
Lemma pongWaiter_timeout_witness :
  let w := {| client := set_ws (Some 0%nat) (set_connected true zeroClient);
              conns := [serving []]; network := []; heap := []; goroutines := [];
              slept := []; authReplies := [] |} in
  exists w', pongWaiter 3 pongTimedOut w = Returns tt w' /\
             pongFailures (client w') = 1 /\ connected (client w') = true /\ slept w' = [].
Proof.
  intros w.
  destruct (pongWaiter_timeout_counts_then_reconnects 3%nat w) as (w' & _ & H2 & H3 & _).
  - vm_compute. split; [discriminate|reflexivity].
  - destruct H3 as (H3 & H4 & _ & H6 & _); [reflexivity|].
    exists w'. repeat split; assumption.
Defined.

(** ** Failed and successful handshakes *)

Lemma wires_Receive p : stable wires (websocket_JSON_Receive p).
Proof.
  intros w. unfold websocket_JSON_Receive, deref_ws. rewrite bind_unfold.
  destruct p as [h|]; [|done].
  destruct (conns w !! h) as [conn|] eqn:E; [|done].
  destruct (0 <? closes conn)%nat; [done|].
  destruct (incoming conn) as [|r rest]; [done|].
  unfold store_ws. rewrite bind_unfold. unfold wires. simpl.
  rewrite list_fmap_insert. apply list_insert_id. by rewrite list_lookup_fmap, E.
Qed.

Lemma wires_Send p e : stable wires (websocket_JSON_Send p e).
Proof.
  intros w. unfold websocket_JSON_Send, deref_ws. rewrite bind_unfold.
  destruct p as [h|]; [|done].
  destruct (conns w !! h) as [conn|] eqn:E; [|done].
  destruct (0 <? closes conn)%nat; [done|].
  destruct (writeErr conn) eqn:Ew; [done|].
  unfold store_ws. rewrite bind_unfold. unfold wires. simpl.
  rewrite list_fmap_insert. apply list_insert_id. rewrite list_lookup_fmap, E. simpl.
  by rewrite Ew.
Qed.

Lemma wires_getClient : stable wires getClient.
Proof. by intros w. Qed.

Lemma wires_update f : stable wires (update f).
Proof. by intros w. Qed.

Lemma wires_go t : stable wires (go t).
Proof. by intros w. Qed.

Lemma wires_authorize : stable wires authorize.
Proof. intros w. unfold authorize. by repeat case_match. Qed.

Lemma wires_deref_channel l : stable wires (deref_channel l).
Proof. intros w. unfold deref_channel. by repeat case_match. Qed.

Lemma wires_ResetSubscriptionState l : stable wires (ResetSubscriptionState l).
Proof. intros w. unfold ResetSubscriptionState. by repeat case_match. Qed.

Lemma wires_resetActivityTimer : stable wires resetActivityTimer.
Proof. intros w. rewrite resetActivityTimer_spec. by case_match. Qed.

Lemma wires_sendError err : stable wires (sendError err).
Proof. intros w. rewrite sendError_spec. by case_match. Qed.

#[local] Hint Resolve wires_Receive wires_Send wires_getClient wires_update wires_go
  wires_authorize wires_deref_channel wires_ResetSubscriptionState wires_resetActivityTimer
  wires_sendError : stable.

Lemma wires_SendEvent {T} `{Marshaler T} event (data : T) channelName :
  stable wires (SendEvent event data channelName).
Proof. unfold SendEvent. stab. Qed.

#[local] Hint Resolve wires_SendEvent : stable.

Lemma wires_channel_Subscribe l opts : stable wires (channel_Subscribe l opts).
Proof. unfold channel_Subscribe. stab. Qed.

#[local] Hint Resolve wires_channel_Subscribe : stable.

Lemma wires_firstEvent event : stable wires (firstEvent event).
Proof. unfold firstEvent. stab. Qed.

Lemma wires_afterFirstFrame (w : World) (conn : Conn) :
  wires (afterFirstFrame w conn) = wires w ++ [(closes conn, closeErr conn, writeErr conn)].
Proof. unfold wires, afterFirstFrame. cbn [conns]. by rewrite fmap_app. Qed.

(** What every successful handshake leaves, whether [Connect] or the
    back-off loop runs it. *)
Lemma connectInternal_session (w : World) (event : Event) (conn : Conn) (cd : connectionData) :
  firstFrame w event conn ->
  evEvent event = pusherConnEstablished ->
  UnmarshalDataString (evData event) zeroConnData = inr cd ->
  wfRegistry w ->
  exists w',
    connectInternal w = Returns None w' /\
    connected (client w') = true /\
    ws (client w') = Some (length (conns w)) /\
    done (client w') = Some Open /\
    boundEvents (client w') = Some (default ∅ (boundEvents (client w))) /\
    subscribedChannels (client w') = Some (default ∅ (subscribedChannels (client w))) /\
    goroutines w' = goroutines w ++ [heartbeat; listen] /\
    wires w' = wires w ++ [(0%nat, closeErr conn, writeErr conn)] /\
    length (heap w') = length (heap w) /\
    slept w' = slept w.
Proof.
  intros Hf He Hd Hwf.
  destruct (connectInternal_established w event conn cd Hf He Hd Hwf)
    as (r & w' & Hrun & -> & Hk).
  exists w'. split; [exact Hrun|].
  pose proof (keeps_field connected _ _ (fun _ => eq_refl) Hk) as H1.
  pose proof (keeps_field ws _ _ (fun _ => eq_refl) Hk) as H2.
  pose proof (keeps_field done _ _ (fun _ => eq_refl) Hk) as H3.
  pose proof (keeps_field boundEvents _ _ (fun _ => eq_refl) Hk) as H4.
  pose proof (keeps_field subscribedChannels _ _ (fun _ => eq_refl) Hk) as H5.
  rewrite client_started in H1, H2, H3, H4, H5.
  rewrite establish_connected in H1. rewrite establish_ws in H2. rewrite establish_done in H3.
  rewrite establish_boundEvents in H4. rewrite establish_registry in H5.
  destruct Hk as (_ & _ & _ & Hheap & Hgo & Hsl & _).
  pose proof (wires_firstEvent event (afterFirstFrame w conn)) as Hwire.
  rewrite <- (connectInternal_firstFrame w event conn Hf), Hrun in Hwire.
  unfold final in Hwire. rewrite wires_afterFirstFrame in Hwire.
  destruct Hf as (rest & more & _ & Hc & _). rewrite Hc in Hwire.
  repeat split; assumption.
Qed.

(** X4. When the dial fails, [Connect] returns the dial error, leaves
    [c.ws] nil, starts no goroutine, adds no connection and does not change
    the connected flag; a [SendEvent] on the client in that state panics on
    the nil connection. *)
Theorem Connect_dial_failure :
  forall appKey w err rest,
    network w = DialFails err :: rest ->
    exists w',
      Connect appKey w = Returns (Some err) w' /\
      ws (client w') = None /\
      connected (client w') = connected (client w) /\
      conns w' = conns w /\
      goroutines w' = goroutines w /\
      forall event (data : value) channelName,
        exists w'', SendEvent event data channelName w' = Panics nilPointer w''.
Proof.
  intros appKey w err rest Hn. rewrite Connect_prepared.
  rewrite (connectInternal_dial_fails (prepared appKey w) err rest Hn).
  eexists. split; [reflexivity|]. do 4 (split; [reflexivity|]).
  intros event data channelName. unfold SendEvent. cbn [marshal marshal_any].
  rewrite bind_unfold, resetActivityTimer_spec.
  rewrite bind_getClient. unfold websocket_JSON_Send, deref_ws. rewrite bind_unfold.
  destruct (try_send _ _); eexists; reflexivity.
Qed.

(** The server refuses the connection. *)
Lemma Connect_dial_failure_witness :
  exists w', Connect "app" (fresh [DialFails (ErrDial "refused")])
             = Returns (Some (ErrDial "refused")) w' /\
             ws (client w') = None /\ connected (client w') = false /\
             exists w'', SendEvent "event" JNull "" w' = Panics nilPointer w''.
Proof.
  destruct (Connect_dial_failure "app" (fresh [DialFails (ErrDial "refused")])
              (ErrDial "refused") [] eq_refl) as (w' & H1 & H2 & H3 & _ & _ & H6).
  exists w'. split; [exact H1|]. split; [exact H2|]. split; [exact H3|].
  exact (H6 "event" JNull "").
Defined.

Lemma connectInternal_fails_after_dial (w : World) (conn : Conn) (rest : list Attempt) :
  network w = DialOk conn :: rest ->
  handshakeFails (DialOk conn) = true ->
  exists err w' conn',
    connectInternal w = Returns (Some err) w' /\
    client w' = set_ws (Some (length (conns w))) (client w) /\
    conns w' = conns w ++ [conn'] /\
    closes conn' = closes conn /\
    goroutines w' = goroutines w.
Proof.
  intros Hn Hf. cbn [handshakeFails] in Hf.
  assert (Hrecv : forall err, (closes conn <> 0%nat \/ incoming conn = []
                               \/ exists more, incoming conn = RecvErr err :: more) ->
            exists e w', connectInternal w = Returns (Some e) w' /\
              client w' = set_ws (Some (length (conns w))) (client w) /\
              (exists conn', conns w' = conns w ++ [conn'] /\ closes conn' = closes conn) /\
              goroutines w' = goroutines w).
  { intros err Hcase. unfold connectInternal, websocket_Dial. rewrite bind_unfold, Hn.
    rewrite bind_update. unfold websocket_JSON_Receive, deref_ws.
    rewrite bind_unfold, bind_unfold. cbn [conns with_conns with_client with_network].
    rewrite lookup_last.
    destruct (closes conn) as [|k] eqn:Hc; cbn [Nat.ltb Nat.leb].
    - destruct Hcase as [Hcase|[Hi|(more & Hi)]]; [done|..]; rewrite Hi.
      + eexists _, _. split; [reflexivity|]. split; [reflexivity|]. split; [|reflexivity].
        exists conn. by split.
      + unfold store_ws. rewrite bind_unfold. cbn [conns with_conns with_client with_network].
        rewrite insert_last.
        eexists _, _. split; [reflexivity|].
        split; [reflexivity|]. split; [|reflexivity].
        eexists. split; reflexivity.
    - eexists _, _. split; [reflexivity|]. split; [reflexivity|]. split; [|reflexivity].
      exists conn. by split. }
  destruct (closes conn) as [|k] eqn:Hc.
  - destruct (incoming conn) as [|[event|err] more] eqn:Hi.
    + destruct (Hrecv ErrEOF) as (e & w' & H1 & H2 & (conn' & H3 & H4) & H5); [by right; left|].
      by exists e, w', conn'.
    + assert (Hff : firstFrame w event conn) by (by exists rest, more).
      rewrite (connectInternal_firstFrame _ _ _ Hff).
      assert (Hres : exists e, firstEvent event (afterFirstFrame w conn)
                               = Returns (Some e) (afterFirstFrame w conn)).
      { simpl in Hf. destruct (String.eqb (evEvent event) pusherError) eqn:E1.
        { apply String.eqb_eq in E1. rewrite firstEvent_pusherError by done. eauto. }
        destruct (String.eqb (evEvent event) pusherConnEstablished) eqn:E2.
        { apply String.eqb_eq in E2.
          destruct (UnmarshalDataString (evData event) zeroConnData) as [e|cd] eqn:Ed; [|done].
          rewrite (firstEvent_undecodable _ _ e) by done. eauto. }
        apply String.eqb_neq in E1, E2. rewrite firstEvent_unknown by done. eauto. }
      destruct Hres as (e & ->). eexists e, _, _. split; [reflexivity|].
      split; [reflexivity|]. split; [reflexivity|]. split; [exact Hc|reflexivity].
    + destruct (Hrecv err) as (e & w' & H1 & H2 & (conn' & H3 & H4) & H5);
        [right; right; by exists more|].
      by exists e, w', conn'.
  - destruct (Hrecv ErrEOF) as (e & w' & H1 & H2 & (conn' & H3 & H4) & H5); [left; lia|].
    by exists e, w', conn'.
Qed.

(** X5. When the dial succeeds and the handshake then fails, [Connect]
    returns the error with [c.ws] holding the new connection, which it has
    not closed; the client is not connected, so a [Disconnect] that follows
    returns nil and does not close it either. *)
Theorem Connect_failed_handshake_leaves_connection_open :
  forall appKey w conn rest,
    network w = DialOk conn :: rest ->
    handshakeFails (DialOk conn) = true ->
    connected (client w) = false ->
    exists err w' conn',
      Connect appKey w = Returns (Some err) w' /\
      ws (client w') = Some (length (conns w)) /\
      conns w' = conns w ++ [conn'] /\
      closes conn' = closes conn /\
      goroutines w' = goroutines w /\
      (Connect appKey ;; Disconnect) w = Returns None w'.
Proof.
  intros appKey w conn rest Hn Hf Hc. rewrite Connect_prepared.
  destruct (connectInternal_fails_after_dial (prepared appKey w) conn rest Hn Hf)
    as (err & w' & conn' & H1 & H2 & H3 & H4 & H5).
  exists err, w', conn'. split; [exact H1|]. split; [by rewrite H2|].
  split; [exact H3|]. split; [exact H4|]. split; [exact H5|].
  rewrite bind_unfold, Connect_prepared, H1. apply Disconnect_not_connected.
  by rewrite H2.
Qed.

(** The server answers with an event the client does not know. *)
Lemma Connect_failed_handshake_witness :
  let frame := RecvEvent {| evEvent := "hello"; evData := Raw ""; evChannel := "" |} in
  exists err w' conn',
    Connect "app" (fresh [DialOk (serving [frame])]) = Returns (Some err) w' /\
    conns w' = [conn'] /\ closes conn' = 0%nat /\
    (Connect "app" ;; Disconnect) (fresh [DialOk (serving [frame])]) = Returns None w'.
Proof.
  intros frame.
  destruct (Connect_failed_handshake_leaves_connection_open "app"
              (fresh [DialOk (serving [frame])]) (serving [frame]) [] eq_refl eq_refl eq_refl)
    as (err & w' & conn' & H1 & _ & H3 & H4 & _ & H6).
  by exists err, w', conn'.
Defined.

(** X6. Every successful handshake, run by [Connect] or by the back-off
    loop, stores the new connection in [c.ws], allocates a new open
    cancellation signal, keeps the bindings and the registry the client
    had (making empty maps of nil ones), starts exactly the two goroutines
    [heartbeat] and [listen], in this order, creates no channel object and
    sleeps no time. *)
Theorem handshake_keeps_maps_and_starts_two_goroutines :
  forall w event conn cd,
    firstFrame w event conn ->
    evEvent event = pusherConnEstablished ->
    UnmarshalDataString (evData event) zeroConnData = inr cd ->
    wfRegistry w ->
    exists w',
      connectInternal w = Returns None w' /\
      ws (client w') = Some (length (conns w)) /\
      length (conns w') = S (length (conns w)) /\
      done (client w') = Some Open /\
      boundEvents (client w') = Some (default ∅ (boundEvents (client w))) /\
      subscribedChannels (client w') = Some (default ∅ (subscribedChannels (client w))) /\
      goroutines w' = goroutines w ++ [heartbeat; listen] /\
      length (heap w') = length (heap w) /\
      slept w' = slept w.
Proof.
  intros w event conn cd Hf He Hd Hwf.
  destruct (connectInternal_session w event conn cd Hf He Hd Hwf)
    as (w' & H1 & H2 & H3 & H4 & H5 & H6 & H7 & H8 & H9 & H10).
  exists w'. repeat split; try assumption.
  apply (f_equal length) in H8. unfold wires in H8.
  rewrite length_app, !length_fmap in H8. simpl in H8. lia.
Qed.

(** A first handshake of a client made by [&Client{}]. *)
Lemma handshake_keeps_maps_witness :
  exists w',
    connectInternal (fresh [DialOk (serving [established
        (text "'{\'socket_id\':\'foo\',\'activity_timeout\':120}'")])]) = Returns None w' /\
    boundEvents (client w') = Some ∅ /\
    subscribedChannels (client w') = Some ∅ /\
    goroutines w' = [heartbeat; listen].
Proof.
  destruct (handshake_keeps_maps_and_starts_two_goroutines
              (fresh [DialOk (serving [established
                 (text "'{\'socket_id\':\'foo\',\'activity_timeout\':120}'")])])
              _ _ {| SocketID := "foo"; ActivityTimeout := 120 |}
              (ex_intro _ [] (ex_intro _ [] (conj eq_refl (conj eq_refl eq_refl))))
              eq_refl eq_refl)
    as (w' & H1 & _ & _ & _ & H5 & H6 & H7 & _).
  - intros m n l Hm. discriminate Hm.
  - by exists w'.
Defined.

(** X7. After a successful [Connect], [Disconnect] returns (it does not
    panic), closes the connection of the session exactly once, returns
    what that close returned, closes the cancellation signal and marks the
    client disconnected; a second [Disconnect] changes nothing. *)
Theorem Connect_then_Disconnect :
  forall appKey w event conn cd,
    firstFrame w event conn ->
    evEvent event = pusherConnEstablished ->
    UnmarshalDataString (evData event) zeroConnData = inr cd ->
    wfRegistry w ->
    exists w1 w2 conn',
      Connect appKey w = Returns None w1 /\
      Disconnect w1 = Returns (closeErr conn) w2 /\
      connected (client w2) = false /\
      done (client w2) = Some Closed /\
      conns w2 !! length (conns w) = Some conn' /\
      closes conn' = 1%nat /\
      Disconnect w2 = Returns None w2.
Proof.
  intros appKey w event conn cd Hf He Hd Hwf. rewrite Connect_prepared.
  destruct (connectInternal_session (prepared appKey w) event conn cd
              (firstFrame_prepared appKey w event conn Hf) He Hd Hwf)
    as (w1 & H1 & H2 & H3 & H4 & _ & _ & _ & H8 & _).
  change (conns (prepared appKey w)) with (conns w) in *.
  change (wires (prepared appKey w)) with (wires w) in *.
  assert (Hlook : exists c1, conns w1 !! length (conns w) = Some c1 /\
                             closes c1 = 0%nat /\ closeErr c1 = closeErr conn).
  { assert (Hl : wires w1 !! length (conns w) = Some (0%nat, closeErr conn, writeErr conn)).
    { rewrite H8. unfold wires at 1.
      replace (length (conns w)) with (length ((fun conn : Conn =>
        (closes conn, closeErr conn, writeErr conn)) <$> conns w)) by apply length_fmap.
      apply lookup_last. }
    unfold wires in Hl. rewrite list_lookup_fmap in Hl.
    destruct (conns w1 !! length (conns w)) as [c1|]; [|done].
    exists c1. simpl in Hl. injection Hl as -> -> _. done. }
  destruct Hlook as (c1 & Hc1 & Hz & Hce).
  exists w1. eexists. exists (closedOnce c1). split; [exact H1|].
  rewrite (Disconnect_connected w1 (length (conns w)) c1) by (done || by rewrite H4).
  unfold closeResult. rewrite Hz, Hce. split; [reflexivity|].
  split; [reflexivity|]. split; [cbn; by rewrite H4|].
  split; [cbn [conns with_conns with_client]; apply list_lookup_insert_eq;
          by eapply lookup_lt_Some|].
  split; [cbn; by rewrite Hz|].
  by apply Disconnect_not_connected.
Qed.

(** The session of the connect test, closed again. *)
Lemma Connect_then_Disconnect_witness :
  exists w1 w2,
    Connect "" (fresh [DialOk (serving [established
        (text "'{\'socket_id\':\'foo\',\'activity_timeout\':1234}'")])]) = Returns None w1 /\
    Disconnect w1 = Returns None w2 /\
    connected (client w2) = false /\
    Disconnect w2 = Returns None w2.
Proof.
  destruct (Connect_then_Disconnect ""
              (fresh [DialOk (serving [established
                 (text "'{\'socket_id\':\'foo\',\'activity_timeout\':1234}'")])])
              _ _ {| SocketID := "foo"; ActivityTimeout := 1234 |}
              (ex_intro _ [] (ex_intro _ [] (conj eq_refl (conj eq_refl eq_refl))))
              eq_refl eq_refl)
    as (w1 & w2 & conn' & H1 & H2 & H3 & _ & _ & _ & H7).
  - intros m n l Hm. discriminate Hm.
  - by exists w1, w2.
Defined.

(** ** Writing frames *)

Lemma resetActivityTimer_resetRequested (w : World) :
  resetActivityTimer w = Returns tt (resetRequested w).
Proof. apply resetActivityTimer_spec. Qed.

Lemma sendError_errorSent (err : error) (w : World) :
  sendError err w = Returns tt (errorSent err w).
Proof. apply sendError_spec. Qed.

Lemma resetRequested_field {X} (f : Client -> X) (w : World) :
  (forall v c, f (set_activityTimerReset v c) = f c) ->
  f (client (resetRequested w)) = f (client w).
Proof. intros Hf. unfold resetRequested. destruct (try_send _ _); [apply Hf|done]. Qed.

Lemma resetRequested_conns (w : World) : conns (resetRequested w) = conns w.
Proof. unfold resetRequested. by destruct (try_send _ _). Qed.

Lemma resetRequested_heap (w : World) : heap (resetRequested w) = heap w.
Proof. unfold resetRequested. by destruct (try_send _ _). Qed.

Lemma websocket_JSON_Send_open (e : Event) (w : World) (h : nat) (conn : Conn) :
  conns w !! h = Some conn -> closes conn = 0%nat -> writeErr conn = None ->
  websocket_JSON_Send (Some h) e w
  = Returns None (with_conns (<[h := sent e conn]> (conns w)) w).
Proof.
  intros Hc Hz Hw. unfold websocket_JSON_Send, deref_ws, sent. rewrite bind_unfold, Hc.
  cbn beta iota. rewrite Hz, Hw. reflexivity.
Qed.

Lemma websocket_JSON_Send_closed (e : Event) (w : World) (h : nat) (conn : Conn) :
  conns w !! h = Some conn -> closes conn <> 0%nat ->
  websocket_JSON_Send (Some h) e w = Returns (Some closedConn) w.
Proof.
  intros Hc Hz. unfold websocket_JSON_Send, deref_ws. rewrite bind_unfold, Hc.
  cbn beta iota. destruct (closes conn); [done|reflexivity].
Qed.

Lemma websocket_JSON_Send_writeErr (e : Event) (w : World) (h : nat) (conn : Conn) (err : error) :
  conns w !! h = Some conn -> closes conn = 0%nat -> writeErr conn = Some err ->
  websocket_JSON_Send (Some h) e w = Returns (Some err) w.
Proof.
  intros Hc Hz Hw. unfold websocket_JSON_Send, deref_ws. rewrite bind_unfold, Hc.
  cbn beta iota. rewrite Hz, Hw. reflexivity.
Qed.

Lemma SendEvent_unfold {T} `{Marshaler T} (event : string) (data : T) (channelName dataJSON : string)
      (w : World) :
  marshal data = Ok dataJSON ->
  SendEvent event data channelName w
  = websocket_JSON_Send (ws (client w))
      {| evEvent := event; evData := Raw dataJSON; evChannel := channelName |} (resetRequested w).
Proof.
  intros Hm. unfold SendEvent. rewrite Hm, bind_unfold, resetActivityTimer_resetRequested.
  rewrite bind_getClient. by rewrite (resetRequested_field ws).
Qed.

(** X8. [SendEvent] on a client whose connection is open and whose writes
    succeed returns nil and appends exactly one frame, carrying the event
    name, the marshalled data and the channel name, to the frames written
    on that connection; every other connection is as it was.  On a
    connection that was closed it returns an error, and on one whose
    writes fail it returns the error of the write; in both cases no
    connection has changed. *)
Theorem SendEvent_writes_exactly_one_frame :
  forall (T : Type) (Mar : Marshaler T) (event : string) (data : T) (channelName dataJSON : string)
         (w : World) (h : nat) (conn : Conn),
    marshal data = Ok dataJSON ->
    ws (client w) = Some h ->
    conns w !! h = Some conn ->
    let e := {| evEvent := event; evData := Raw dataJSON; evChannel := channelName |} in
    (closes conn = 0%nat -> writeErr conn = None ->
       exists w', SendEvent event data channelName w = Returns None w' /\
                  conns w' !! h = Some (sent e conn) /\
                  outgoing (sent e conn) = outgoing conn ++ [e] /\
                  length (conns w') = length (conns w) /\
                  forall h', h' <> h -> conns w' !! h' = conns w !! h') /\
    (closes conn <> 0%nat ->
       exists w', SendEvent event data channelName w = Returns (Some closedConn) w' /\
                  conns w' = conns w) /\
    (closes conn = 0%nat -> forall err, writeErr conn = Some err ->
       exists w', SendEvent event data channelName w = Returns (Some err) w' /\
                  conns w' = conns w).
Proof.
  intros T Mar event data channelName dataJSON w h conn Hm Hw Hc e.
  rewrite (SendEvent_unfold event data channelName dataJSON w Hm), Hw.
  assert (Hc' : conns (resetRequested w) !! h = Some conn) by by rewrite resetRequested_conns.
  split; [|split].
  - intros Hz He. rewrite (websocket_JSON_Send_open _ _ h conn Hc' Hz He).
    eexists. split; [reflexivity|]. cbn [conns with_conns]. rewrite resetRequested_conns.
    split; [apply list_lookup_insert_eq; by eapply lookup_lt_Some|].
    split; [reflexivity|]. split; [apply length_insert|].
    intros h' Hne. by apply list_lookup_insert_ne.
  - intros Hz. rewrite (websocket_JSON_Send_closed _ _ h conn Hc' Hz).
    eexists. split; [reflexivity|apply resetRequested_conns].
  - intros Hz err He. rewrite (websocket_JSON_Send_writeErr _ _ h conn err Hc' Hz He).
    eexists. split; [reflexivity|apply resetRequested_conns].
Qed.

(** The frame of the send test, on an open connection. *)
Lemma SendEvent_writes_witness :
  let c := set_ws (Some 0%nat) zeroClient in
  let w := {| client := c; conns := [serving []]; network := []; heap := []; goroutines := [];
              slept := []; authReplies := [] |} in
  exists w', SendEvent "bar" (JString "baz") "foo" w = Returns None w' /\
             conns w' !! 0%nat
             = Some (sent {| evEvent := "bar"; evData := Raw (text "'baz'"); evChannel := "foo" |}
                          (serving [])).
Proof.
  intros c w.
  destruct (SendEvent_writes_exactly_one_frame value _ "bar" (JString "baz") "foo" (text "'baz'")
              w 0%nat (serving []) eq_refl eq_refl eq_refl) as (H & _).
  destruct (H eq_refl eq_refl) as (w' & H1 & H2 & _).
  by exists w'.
Defined.

(** ** Unsubscribe *)

Lemma channels_getClient : stable channels getClient.
Proof. by intros w. Qed.

Lemma channels_resetActivityTimer : stable channels resetActivityTimer.
Proof. intros w. rewrite resetActivityTimer_spec. by case_match. Qed.

Lemma channels_Send p e : stable channels (websocket_JSON_Send p e).
Proof.
  intros w. unfold websocket_JSON_Send, deref_ws. rewrite bind_unfold.
  destruct p as [h|]; [|done].
  destruct (conns w !! h) as [conn|]; [|done].
  destruct (0 <? closes conn)%nat; [done|].
  by destruct (writeErr conn).
Qed.

Lemma channels_deref_channel l : stable channels (deref_channel l).
Proof. intros w. unfold deref_channel. by case_match. Qed.

#[local] Hint Resolve channels_getClient channels_resetActivityTimer channels_Send
  channels_deref_channel : stable.

Lemma channels_SendEvent {T} `{Marshaler T} event (data : T) channelName :
  stable channels (SendEvent event data channelName).
Proof. unfold SendEvent. stab. Qed.

#[local] Hint Resolve channels_SendEvent : stable.

Lemma channels_channel_Unsubscribe l : stable channels (channel_Unsubscribe l).
Proof. unfold channel_Unsubscribe. stab. Qed.

Lemma Unsubscribe_absent (channelName : string) (w : World) :
  subscribedChannels (client w) ≫= (.!! channelName) = None ->
  Unsubscribe channelName w = Returns None w.
Proof. intros H. unfold Unsubscribe. rewrite bind_getClient. by rewrite H. Qed.

Lemma Unsubscribe_present (channelName : string) (w : World) (m : gmap string nat) (l : nat) :
  subscribedChannels (client w) = Some m -> m !! channelName = Some l ->
  Unsubscribe channelName w
  = channel_Unsubscribe l
      (with_client (set_subscribedChannels (Some (delete channelName m)) (client w)) w).
Proof.
  intros Hm Hl. unfold Unsubscribe. rewrite bind_getClient, Hm.
  change (Some m ≫= lookup channelName) with (m !! channelName). rewrite Hl.
  rewrite bind_update. by rewrite Hm.
Qed.

Lemma channel_Unsubscribe_keeps (l : nat) (w : World) :
  dialled w -> (l < length (heap w))%nat ->
  returnsTo (channel_Unsubscribe l) w (fun _ w' => keeps w w' /\ heap w' = heap w).
Proof.
  intros Hd Hl. unfold returnsTo at 1. unfold channel_Unsubscribe, deref_channel.
  rewrite bind_unfold.
  destruct (lookup_lt_is_Some_2 _ _ Hl) as [ch Hc]. rewrite Hc.
  eapply returnsTo_weaken; [by apply SendEvent_keeps|]. by intros r w' (? & ? & _).
Qed.

Lemma channel_Unsubscribe_Send (l : nat) (w : World) (ch : internalChannel) :
  heap w !! l = Some ch ->
  channel_Unsubscribe l w
  = websocket_JSON_Send (ws (client w)) (unsubscribeFrame ch) (resetRequested w).
Proof.
  intros Hl. unfold channel_Unsubscribe, deref_channel. rewrite bind_unfold, Hl.
  by rewrite (SendEvent_unfold _ _ _ (encode (JObject [("channel", JString (name (base_of ch)))]))).
Qed.

(** X9. [Unsubscribe] of a name the registry does not hold (also when
    the registry is nil) returns nil and changes nothing.  For a name the
    registry holds, the entry is deleted before anything is sent, so it is
    gone however the call ends, the other entries and the channel objects
    being as they were; on an open connection the call returns nil having
    written one [pusher:unsubscribe] frame that names the channel, and when
    the write fails it returns the error of the write, the entry being
    deleted all the same. *)
Theorem Unsubscribe_deletes_entry_before_sending :
  forall (channelName : string) (w : World),
    (subscribedChannels (client w) ≫= (.!! channelName) = None ->
       Unsubscribe channelName w = Returns None w) /\
    (forall m l,
       subscribedChannels (client w) = Some m -> m !! channelName = Some l ->
       channels (final (Unsubscribe channelName w)) = (Some (delete channelName m), heap w) /\
       (forall ch h conn,
          heap w !! l = Some ch -> ws (client w) = Some h -> conns w !! h = Some conn ->
          closes conn = 0%nat ->
          (writeErr conn = None ->
             exists w', Unsubscribe channelName w = Returns None w' /\
                        conns w' !! h = Some (sent (unsubscribeFrame ch) conn)) /\
          (forall err, writeErr conn = Some err ->
             exists w', Unsubscribe channelName w = Returns (Some err) w' /\
                        conns w' = conns w /\
                        subscribedChannels (client w') = Some (delete channelName m)))).
Proof.
  intros channelName w. split; [apply Unsubscribe_absent|].
  intros m l Hm Hl. rewrite (Unsubscribe_present channelName w m l Hm Hl).
  set (w1 := with_client _ w).
  pose proof (channels_channel_Unsubscribe l w1) as Hst.
  split; [exact Hst|].
  intros ch h conn Hch Hw Hc Hz.
  rewrite (channel_Unsubscribe_Send l w1 ch Hch).
  change (ws (client w1)) with (ws (client w)). rewrite Hw.
  assert (Hc' : conns (resetRequested w1) !! h = Some conn) by by rewrite resetRequested_conns.
  split.
  - intros He. rewrite (websocket_JSON_Send_open _ _ h conn Hc' Hz He).
    eexists. split; [reflexivity|]. cbn [conns with_conns].
    apply list_lookup_insert_eq. by eapply lookup_lt_Some.
  - intros err He. rewrite (websocket_JSON_Send_writeErr _ _ h conn err Hc' Hz He).
    eexists. split; [reflexivity|]. split; [by rewrite resetRequested_conns|].
    by rewrite (resetRequested_field subscribedChannels).
Qed.

(** The client of the unsubscribe test: one registered channel. *)
Lemma Unsubscribe_deletes_entry_witness :
  let c := set_subscribedChannels (Some {[ "foo" := 0%nat ]})
             (set_ws (Some 0%nat) (set_connected true zeroClient)) in
  let ch := publicChannel {| name := "foo"; subscribed := true |} in
  let w := {| client := c; conns := [serving []]; network := []; heap := [ch]; goroutines := [];
              slept := []; authReplies := [] |} in
  Unsubscribe "bar" w = Returns None w /\
  exists w', Unsubscribe "foo" w = Returns None w' /\
             channels w' = (Some ∅, [ch]) /\
             outgoing <$> conns w' !! 0%nat
             = Some [ {| evEvent := "pusher:unsubscribe";
                         evData := Raw (text "{'channel':'foo'}"); evChannel := "" |} ].
Proof.
  intros c ch w.
  destruct (Unsubscribe_deletes_entry_before_sending "bar" w) as (Habs & _).
  destruct (Unsubscribe_deletes_entry_before_sending "foo" w) as (_ & Hpres).
  split; [exact (Habs eq_refl)|].
  destruct (Hpres {[ "foo" := 0%nat ]} 0%nat eq_refl eq_refl) as (Hch & Hsend).
  destruct (Hsend ch 0%nat (serving []) eq_refl eq_refl eq_refl eq_refl) as (Hok & _).
  destruct (Hok eq_refl) as (w' & H1 & H2).
  exists w'. split; [exact H1|]. rewrite H1 in Hch. split.
  - unfold final in Hch. rewrite Hch. by f_equal.
  - rewrite H2. reflexivity.
Defined.

(** X10. [Subscribe] of a new name followed by [Unsubscribe] of that name
    leaves the registry exactly as it was before the two calls, whatever
    the two sends gave.  The channel object [Subscribe] created stays
    allocated but is no longer registered: a later [Subscribe] of the name
    creates a second object instead of returning the first. *)
Theorem Subscribe_then_Unsubscribe_restores_registry :
  forall (channelName : string) (opts : list SubscribeOption) (w : World) (m : gmap string nat),
    subscribedChannels (client w) = Some m ->
    m !! channelName = None ->
    dialled w ->
    exists err1 err2 w1 w2,
      Subscribe channelName opts w = Returns (length (heap w), err1) w1 /\
      Unsubscribe channelName w1 = Returns err2 w2 /\
      subscribedChannels (client w2) = Some m /\
      heap w2 = heap w ++ [newChannel channelName] /\
      exists err3 w3,
        Subscribe channelName opts w2 = Returns (S (length (heap w)), err3) w3 /\
        heap w3 = heap w ++ [newChannel channelName; newChannel channelName].
Proof.
  intros channelName opts w m Hm Hl Hd.
  destruct (Subscribe_new channelName opts w m Hm Hl Hd) as (err1 & w1 & H1 & Hk1 & Hh1).
  pose proof (keeps_field subscribedChannels _ w1 (fun _ => eq_refl) Hk1) as Hr1.
  cbn in Hr1.
  assert (Hd1 : dialled w1).
  { eapply keeps_dialled; [exact Hk1|]. destruct Hd as (h & ? & ?). by exists h. }
  pose proof (Unsubscribe_present channelName w1 _ (length (heap w)) Hr1
                (lookup_insert_eq _ _ _)) as Hu.
  rewrite delete_insert_id in Hu by done.
  set (w1' := with_client _ w1) in Hu.
  destruct (channel_Unsubscribe_keeps (length (heap w)) w1') as (err2 & w2 & H2 & Hk2 & Hh2).
  { destruct Hd1 as (h & ? & ?). by exists h. }
  { change (heap w1') with (heap w1). rewrite Hh1, length_app. simpl. lia. }
  rewrite H2 in Hu.
  pose proof (keeps_field subscribedChannels _ w2 (fun _ => eq_refl) Hk2) as Hr2.
  cbn in Hr2. change (heap w1') with (heap w1) in Hh2.
  assert (Hd2 : dialled w2).
  { eapply keeps_dialled; [exact Hk2|]. destruct Hd1 as (h & ? & ?). by exists h. }
  exists err1, err2, w1, w2. split; [exact H1|]. split; [exact Hu|]. split; [exact Hr2|].
  split; [by rewrite Hh2|].
  destruct (Subscribe_new channelName opts w2 m Hr2 Hl Hd2) as (err3 & w3 & H3 & _ & Hh3).
  exists err3, w3. rewrite Hh2, Hh1 in H3, Hh3. rewrite length_app in H3. simpl in H3.
  rewrite Nat.add_1_r in H3. split; [exact H3|]. by rewrite Hh3, <- app_assoc.
Qed.

(** A connected client with an empty registry. *)
Lemma Subscribe_then_Unsubscribe_witness :
  let c := set_subscribedChannels (Some ∅) (set_ws (Some 0%nat) (set_connected true zeroClient)) in
  let w := {| client := c; conns := [serving []]; network := []; heap := []; goroutines := [];
              slept := []; authReplies := [] |} in
  exists err1 err2 w1 w2,
    Subscribe "foo" [] w = Returns (0%nat, err1) w1 /\
    Unsubscribe "foo" w1 = Returns err2 w2 /\
    subscribedChannels (client w2) = Some ∅.
Proof.
  intros c w.
  assert (Hd : dialled w) by (exists 0%nat; split; [reflexivity|simpl; lia]).
  destruct (Subscribe_then_Unsubscribe_restores_registry "foo" [] w ∅ eq_refl (lookup_empty _) Hd)
    as (err1 & err2 & w1 & w2 & H1 & H2 & H3 & _).
  by exists err1, err2, w1, w2.
Defined.

Lemma Subscribe_registered (channelName : string) (opts : list SubscribeOption)
      (w : World) (m : gmap string nat) :
  subscribedChannels (client w) = Some m -> dialled w -> typedRegistry w ->
  exists l err w' m',
    Subscribe channelName opts w = Returns (l, err) w' /\
    subscribedChannels (client w') = Some m' /\ m' !! channelName = Some l /\
    typedRegistry w' /\ dialled w'.
Proof.
  intros Hm Hd Ht.
  destruct (Subscribe_typedRegistry channelName opts w m Hm Hd Ht) as (r & w' & Hr & Ht' & Hd').
  destruct (m !! channelName) as [l|] eqn:Hl.
  - destruct (Subscribe_existing channelName opts w m l Hm Hl Hd) as (err & w2 & H & Hk & Hh).
    { by eapply (typedRegistry_wf w Ht). }
    rewrite H in Hr. injection Hr as <- <-.
    exists l, err, w2, m. split; [done|].
    split; [by rewrite (keeps_field subscribedChannels w w2)|done].
  - destruct (Subscribe_new channelName opts w m Hm Hl Hd) as (err & w2 & H & Hk & Hh).
    rewrite H in Hr. injection Hr as <- <-.
    exists (length (heap w)), err, w2, (<[channelName := length (heap w)]> m).
    split; [done|].
    split; [by rewrite (keeps_field subscribedChannels _ w2 (fun _ => eq_refl) Hk)|].
    split; [apply lookup_insert_eq|done].
Qed.

Lemma SubscribePresence_typedRegistry (channelName : string) (opts : list SubscribeOption)
      (w : World) (m : gmap string nat) :
  subscribedChannels (client w) = Some m -> dialled w -> typedRegistry w ->
  exists r w', SubscribePresence channelName opts w = Returns r w' /\
               typedRegistry w' /\ dialled w' /\ is_Some (subscribedChannels (client w')).
Proof.
  intros Hm Hd Ht. unfold SubscribePresence.
  destruct (String.prefix "presence-" channelName) eqn:Hp; cbn [negb].
  - destruct (Subscribe_registered channelName opts w m Hm Hd Ht)
      as (l & err & w' & m' & H & Hm' & Hl' & Ht' & Hd').
    rewrite bind_unfold, H. cbn beta iota. unfold deref_channel. rewrite bind_unfold.
    destruct (Ht' m' channelName l Hm' Hl') as (ch & -> & Hv).
    rewrite (newChannel_presence _ Hp) in Hv.
    destruct ch; try discriminate Hv.
    eexists _, w'. split; [reflexivity|]. by rewrite Hm'.
  - eexists _, w. split; [reflexivity|]. by rewrite Hm.
Qed.

Lemma Unsubscribe_typedRegistry (channelName : string) (w : World) (m : gmap string nat) :
  subscribedChannels (client w) = Some m -> dialled w -> typedRegistry w ->
  exists err w', Unsubscribe channelName w = Returns err w' /\
                 typedRegistry w' /\ dialled w' /\ is_Some (subscribedChannels (client w')).
Proof.
  intros Hm Hd Ht. destruct (m !! channelName) as [l|] eqn:Hl.
  - rewrite (Unsubscribe_present channelName w m l Hm Hl).
    set (w1 := with_client _ w).
    assert (Hd1 : dialled w1) by (destruct Hd as (h & ? & ?); by exists h).
    assert (Ht1 : typedRegistry w1).
    { intros m' n l'. cbn. intros [= <-] Hn. apply lookup_delete_Some in Hn as [_ Hn].
      exact (Ht m n l' Hm Hn). }
    destruct (channel_Unsubscribe_keeps l w1 Hd1) as (err & w' & H & Hk & Hh).
    { by eapply (typedRegistry_wf w Ht). }
    exists err, w'. split; [exact H|]. split; [by eapply typedRegistry_keeps|].
    split; [by eapply keeps_dialled|].
    by rewrite (keeps_field subscribedChannels _ w' (fun _ => eq_refl) Hk).
  - rewrite Unsubscribe_absent by (rewrite Hm; exact Hl).
    exists None, w. by rewrite Hm.
Qed.

(** X11. On a connected client whose registry entries were made by
    [Subscribe] (an empty registry, as the first handshake leaves it, is
    one), no sequence of [Subscribe], [SubscribePresence] and [Unsubscribe]
    calls panics or blocks: every call returns, whatever the sends and the
    auth endpoint give, and the registry keeps pointing to objects of the
    variant the names call for, so the type assertion of
    [SubscribePresence] never fails. *)
Theorem registry_calls_never_panic :
  forall (calls : list registryCall) (w : World),
    is_Some (subscribedChannels (client w)) ->
    dialled w ->
    typedRegistry w ->
    exists w', forEach calls runCall w = Returns tt w' /\
               typedRegistry w' /\ dialled w' /\ is_Some (subscribedChannels (client w')).
Proof.
  induction calls as [|call calls IH]; intros w Hm Hd Ht.
  - by exists w.
  - destruct Hm as [m Hm].
    assert (Hstep : exists w1, runCall call w = Returns tt w1 /\ typedRegistry w1 /\ dialled w1
                               /\ is_Some (subscribedChannels (client w1))).
    { destruct call as [n o|n o|n]; unfold runCall; rewrite bind_unfold.
      - destruct (Subscribe_registered n o w m Hm Hd Ht) as (l & e & w1 & m1 & -> & H1 & _ & ? & ?).
        exists w1. by rewrite H1.
      - destruct (SubscribePresence_typedRegistry n o w m Hm Hd Ht) as (r & w1 & -> & ? & ? & ?).
        by exists w1.
      - destruct (Unsubscribe_typedRegistry n w m Hm Hd Ht) as (r & w1 & -> & ? & ? & ?).
        by exists w1. }
    destruct Hstep as (w1 & H1 & Ht1 & Hd1 & Hm1).
    destruct (IH w1 Hm1 Hd1 Ht1) as (w' & H' & ?).
    exists w'. split; [|done].
    cbn [forEach]. by rewrite bind_unfold, H1.
Qed.

(** Four calls on a connected client with an empty registry. *)
Lemma registry_calls_witness :
  let c := set_subscribedChannels (Some ∅) (set_ws (Some 0%nat) (set_connected true zeroClient)) in
  let w := {| client := c; conns := [serving []]; network := []; heap := []; goroutines := [];
              slept := []; authReplies := [] |} in
  exists w',
    forEach [callSubscribe "private-foo" []; callSubscribePresence "presence-bar" [];
             callUnsubscribe "private-foo"; callSubscribePresence "foo" []] runCall w
    = Returns tt w'.
Proof.
  intros c w.
  assert (Hd : dialled w) by (exists 0%nat; split; [reflexivity|simpl; lia]).
  assert (Ht : typedRegistry w).
  { intros m n l Hm Hl. injection Hm as <-. rewrite lookup_empty in Hl. discriminate Hl. }
  destruct (registry_calls_never_panic
              [callSubscribe "private-foo" []; callSubscribePresence "presence-bar" [];
               callUnsubscribe "private-foo"; callSubscribePresence "foo" []] w
              (ex_intro _ ∅ eq_refl) Hd Ht) as (w' & H & _).
  by exists w'.
Defined.

Lemma Subscribe_nil_registry (channelName : string) (opts : list SubscribeOption) (w : World) :
  subscribedChannels (client w) = None ->
  Subscribe channelName opts w
  = Panics "assignment to entry in nil map" (with_heap (heap w ++ [newChannel channelName]) w).
Proof.
  intros Hm. unfold Subscribe. rewrite bind_getClient, Hm.
  rewrite bind_unfold. cbn [mbind option_bind]. unfold new. rewrite !bind_unfold.
  unfold register. rewrite bind_getClient. cbn [client with_heap]. by rewrite Hm.
Qed.

(** X12. On a client whose registry is nil, as it is before the first
    successful handshake, [Subscribe] panics on the assignment to the nil
    map, for every name; so does [SubscribePresence] for a name with the
    presence prefix, while for any other name it returns the invalid-name
    error.  In particular [Subscribe] panics after a [Connect] that failed
    at the dial. *)
Theorem Subscribe_before_handshake_panics :
  forall (channelName : string) (opts : list SubscribeOption) (w : World),
    subscribedChannels (client w) = None ->
    (exists w', Subscribe channelName opts w = Panics "assignment to entry in nil map" w') /\
    (String.prefix "presence-" channelName = true ->
       exists w', SubscribePresence channelName opts w
                  = Panics "assignment to entry in nil map" w') /\
    (String.prefix "presence-" channelName = false ->
       SubscribePresence channelName opts w
       = Returns (None, Some (ErrInvalidPresenceChannelName channelName)) w) /\
    (forall appKey err rest,
       network w = DialFails err :: rest ->
       exists w1 w2,
         Connect appKey w = Returns (Some err) w1 /\
         Subscribe channelName opts w1 = Panics "assignment to entry in nil map" w2).
Proof.
  intros channelName opts w Hm. split; [|split; [|split]].
  - rewrite Subscribe_nil_registry by done. by eexists.
  - intros Hp. unfold SubscribePresence. rewrite Hp. cbn [negb].
    rewrite bind_unfold, Subscribe_nil_registry by done. by eexists.
  - intros Hp. unfold SubscribePresence. by rewrite Hp.
  - intros appKey err rest Hn. rewrite Connect_prepared.
    rewrite (connectInternal_dial_fails (prepared appKey w) err rest Hn).
    eexists _, _. split; [reflexivity|]. by rewrite Subscribe_nil_registry.
Qed.

(** A client made by [&Client{}] whose dial is refused. *)
Lemma Subscribe_before_handshake_witness :
  exists w1 w2,
    Connect "app" (fresh [DialFails (ErrDial "refused")]) = Returns (Some (ErrDial "refused")) w1 /\
    Subscribe "foo" [] w1 = Panics "assignment to entry in nil map" w2.
Proof.
  destruct (Subscribe_before_handshake_panics "foo" [] (fresh [DialFails (ErrDial "refused")])
              eq_refl) as (_ & _ & _ & H).
  exact (H "app" (ErrDial "refused") [] eq_refl).
Defined.

(** ** Bindings *)

Lemma Bind_bound (event : string) (boundChan : nat) (w : World) (m : gmap string (gset nat)) :
  boundEvents (client w) = Some m ->
  Bind event boundChan w
  = Returns boundChan
      (with_client
         (set_boundEvents (Some (<[event := {[boundChan]} ∪ default ∅ (m !! event)]> m))
                          (client w)) w).
Proof.
  intros Hm. unfold Bind. rewrite bind_getClient, Hm.
  destruct (m !! event) as [s|] eqn:He; rewrite bind_update; cbn [default].
  - replace (alter (fun chans => {[boundChan]} ∪ chans) event m)
      with (<[event := {[boundChan]} ∪ s]> m); [done|].
    apply map_eq. intros e. destruct (decide (e = event)) as [->|Hne].
    + by rewrite lookup_insert_eq, lookup_alter_eq, He.
    + by rewrite lookup_insert_ne, lookup_alter_ne.
  - by rewrite alter_insert_eq.
Qed.

Lemma boundTo_insert (w : World) (m : gmap string (gset nat)) (event e : string) (s : gset nat) :
  boundTo (with_client (set_boundEvents (Some (<[event := s]> m)) (client w)) w) e
  = if decide (e = event) then s else default ∅ (m !! e).
Proof.
  unfold boundTo. cbn. destruct (decide (e = event)) as [->|Hne].
  - by rewrite lookup_insert_eq.
  - by rewrite lookup_insert_ne.
Qed.

Lemma unbindChans_difference (chans : list nat) (s : gset nat) :
  unbindChans chans s = s ∖ list_to_set chans.
Proof.
  unfold unbindChans. revert s. induction chans as [|x chans IH]; intros s; cbn [fold_left].
  - rewrite list_to_set_nil. by rewrite difference_empty_L.
  - rewrite IH, list_to_set_cons. apply difference_difference_l_L.
Qed.

Lemma Unbind_all (event : string) (w : World) :
  Unbind event [] w
  = Returns tt (with_client (set_boundEvents (delete event <$> boundEvents (client w)) (client w)) w).
Proof. reflexivity. Qed.

Lemma Unbind_some (event : string) (boundChan : nat) (chans : list nat) (w : World) :
  Unbind event (boundChan :: chans) w
  = Returns tt (with_client
                  (set_boundEvents (alter (unbindChans (boundChan :: chans)) event
                                      <$> boundEvents (client w)) (client w)) w).
Proof. reflexivity. Qed.

Lemma Unbind_boundTo (event : string) (chans : list nat) (w : World) :
  exists w', Unbind event chans w = Returns tt w' /\
    (forall e, boundTo w' e =
               if decide (e = event)
               then (if chans is [] then ∅ else boundTo w event ∖ list_to_set chans)
               else boundTo w e) /\
    channels w' = channels w /\ conns w' = conns w /\
    (boundEvents (client w') = None <-> boundEvents (client w) = None).
Proof.
  destruct chans as [|x chans].
  - rewrite Unbind_all. eexists. split; [reflexivity|]. split; [|split; [done|split; [done|]]].
    + intros e. unfold boundTo. cbn. destruct (boundEvents (client w)) as [m|]; cbn.
      * destruct (decide (e = event)) as [->|Hne].
        -- by rewrite lookup_delete_eq.
        -- by rewrite lookup_delete_ne.
      * by destruct (decide (e = event)).
    + cbn. by destruct (boundEvents (client w)).
  - rewrite Unbind_some. eexists. split; [reflexivity|]. split; [|split; [done|split; [done|]]].
    + intros e. unfold boundTo. cbn. destruct (boundEvents (client w)) as [m|]; cbn.
      * destruct (decide (e = event)) as [->|Hne].
        -- rewrite lookup_alter_eq.
           destruct (m !! event) as [s|]; cbn [fmap option_fmap option_map default];
             [by rewrite unbindChans_difference|clear; set_unfold; tauto].
        -- by rewrite lookup_alter_ne.
      * destruct (decide (e = event)); [clear; set_unfold; tauto|done].
    + cbn. by destruct (boundEvents (client w)).
Qed.

(** X13. [Bind] on a client whose bindings map is allocated returns the
    channel it made and binds it to the event: the channels bound to that
    event are the ones bound before and the new one, the bindings of every
    other event are as they were, and neither the registry nor a
    connection is touched.  On a nil bindings map (a client that was never
    connected) [Bind] panics. *)
Theorem Bind_adds_one_binding :
  forall (event : string) (boundChan : nat) (w : World),
    (is_Some (boundEvents (client w)) ->
       exists w', Bind event boundChan w = Returns boundChan w' /\
                  boundTo w' event = {[boundChan]} ∪ boundTo w event /\
                  (forall e, e <> event -> boundTo w' e = boundTo w e) /\
                  is_Some (boundEvents (client w')) /\
                  channels w' = channels w /\ conns w' = conns w) /\
    (boundEvents (client w) = None ->
       Bind event boundChan w = Panics "assignment to entry in nil map" w).
Proof.
  intros event boundChan w. split.
  - intros [m Hm]. rewrite (Bind_bound event boundChan w m Hm).
    eexists. split; [reflexivity|]. split; [|split; [|done]].
    + rewrite boundTo_insert, decide_True by done. unfold boundTo. by rewrite Hm.
    + intros e Hne. rewrite boundTo_insert, decide_False by done. unfold boundTo. by rewrite Hm.
  - intros Hm. unfold Bind. rewrite bind_getClient. by rewrite Hm.
Qed.

(** A second binding of an event that has one. *)
Lemma Bind_adds_one_binding_witness :
  let c := set_boundEvents (Some {[ "foo" := {[ 1%nat ]} ]}) zeroClient in
  let w := {| client := c; conns := []; network := []; heap := []; goroutines := [];
              slept := []; authReplies := [] |} in
  (exists w', Bind "foo" 2%nat w = Returns 2%nat w' /\
              boundTo w' "foo" = {[ 2%nat ]} ∪ {[ 1%nat ]}) /\
  Bind "foo" 2%nat (fresh []) = Panics "assignment to entry in nil map" (fresh []).
Proof.
  intros c w. split.
  - destruct (proj1 (Bind_adds_one_binding "foo" 2%nat w) (ex_intro _ _ eq_refl))
      as (w' & H1 & H2 & _).
    by exists w'.
  - exact (proj2 (Bind_adds_one_binding "foo" 2%nat (fresh [])) eq_refl).
Defined.

(** X14. [Unbind] never panics, also on a nil bindings map, which it
    leaves nil.  Without channels it removes every binding of the event;
    with channels it removes exactly those from the bindings of the event
    (channels that were not bound are ignored).  The bindings of every
    other event, the registry and the connections are as they were. *)
Theorem Unbind_removes_bindings :
  forall (event : string) (chans : list nat) (w : World),
    exists w', Unbind event chans w = Returns tt w' /\
      boundTo w' event = (if chans is [] then ∅ else boundTo w event ∖ list_to_set chans) /\
      (forall boundChan, boundChan ∈ chans -> boundChan ∉ boundTo w' event) /\
      (forall e, e <> event -> boundTo w' e = boundTo w e) /\
      channels w' = channels w /\ conns w' = conns w /\
      (boundEvents (client w') = None <-> boundEvents (client w) = None).
Proof.
  intros event chans w.
  destruct (Unbind_boundTo event chans w) as (w' & H1 & H2 & H3 & H4 & H5).
  exists w'. split; [exact H1|].
  pose proof (H2 event) as He. rewrite decide_True in He by done.
  split; [exact He|]. split; [|split; [|done]].
  - intros boundChan Hin. rewrite He. destruct chans; [by apply elem_of_nil in Hin|].
    clear -Hin. set_unfold. tauto.
  - intros e Hne. by rewrite H2, decide_False.
Qed.

(** X15. A channel made by [Bind] and handed back to [Unbind] leaves the
    channels bound to every event as they were before the two calls;
    [Unbind] of the event without channels then leaves it with no
    binding. *)
Theorem Bind_then_Unbind_restores_bindings :
  forall (event : string) (boundChan : nat) (w : World),
    is_Some (boundEvents (client w)) ->
    boundChan ∉ boundTo w event ->
    exists w1 w2 w3,
      Bind event boundChan w = Returns boundChan w1 /\
      boundChan ∈ boundTo w1 event /\
      Unbind event [boundChan] w1 = Returns tt w2 /\
      (forall e, boundTo w2 e = boundTo w e) /\
      Unbind event [] w2 = Returns tt w3 /\
      boundTo w3 event = ∅.
Proof.
  intros event boundChan w [m Hm] Hnew.
  rewrite (Bind_bound event boundChan w m Hm). set (w1 := with_client _ w).
  assert (Hb1 : forall e, boundTo w1 e
                          = if decide (e = event) then {[boundChan]} ∪ boundTo w event
                            else boundTo w e).
  { intros e. unfold w1. rewrite boundTo_insert. unfold boundTo. by rewrite Hm. }
  destruct (Unbind_boundTo event [boundChan] w1) as (w2 & H2 & Hb2 & _).
  destruct (Unbind_boundTo event [] w2) as (w3 & H3 & Hb3 & _).
  exists w1, w2, w3. split; [reflexivity|].
  split; [rewrite Hb1, decide_True by done; clear; set_unfold; tauto|].
  split; [exact H2|]. split; [|split; [exact H3|]].
  - intros e. rewrite Hb2. destruct (decide (e = event)) as [->|Hne].
    + rewrite Hb1, decide_True by done. clear -Hnew. set_unfold. intros x.
      split; [intros [[Hx|Hx] Hn]; [exfalso; apply Hn; by left|done]
             |intros Hx; split; [by right|intros [->|[]]; by apply Hnew]].
    + by rewrite Hb1, decide_False.
  - by rewrite Hb3, decide_True.
Qed.

(** A connected client with no binding yet. *)
Lemma Bind_then_Unbind_witness :
  let c := set_boundEvents (Some ∅) zeroClient in
  let w := {| client := c; conns := []; network := []; heap := []; goroutines := [];
              slept := []; authReplies := [] |} in
  exists w1 w2,
    Bind "foo" 0%nat w = Returns 0%nat w1 /\
    Unbind "foo" [0%nat] w1 = Returns tt w2 /\
    boundTo w2 "foo" = ∅.
Proof.
  intros c w.
  destruct (Bind_then_Unbind_restores_bindings "foo" 0%nat w (ex_intro _ _ eq_refl))
    as (w1 & w2 & w3 & H1 & _ & H3 & H4 & _).
  - unfold boundTo. cbn. rewrite lookup_empty. cbn. apply not_elem_of_empty.
  - exists w1, w2. split; [exact H1|]. split; [exact H3|]. by rewrite H4.
Defined.

(** ** One turn of [listen] *)

Lemma websocket_JSON_Receive_next (w : World) (h : nat) (conn : Conn)
      (r : Received) (rest : list Received) :
  conns w !! h = Some conn -> closes conn = 0%nat -> incoming conn = r :: rest ->
  websocket_JSON_Receive (Some h) w
  = Returns (match r with RecvEvent e => inr e | RecvErr err => inl err end)
            (with_conns (<[h := received conn]> (conns w)) w).
Proof.
  intros Hc Hz Hi. unfold websocket_JSON_Receive, deref_ws, received.
  rewrite bind_unfold, Hc. cbn beta iota. rewrite Hz, Hi. reflexivity.
Qed.

Lemma websocket_JSON_Receive_EOF (w : World) (h : nat) (conn : Conn) :
  conns w !! h = Some conn -> closes conn = 0%nat -> incoming conn = [] ->
  websocket_JSON_Receive (Some h) w = Returns (inl ErrEOF) w.
Proof.
  intros Hc Hz Hi. unfold websocket_JSON_Receive, deref_ws.
  rewrite bind_unfold, Hc. cbn beta iota. rewrite Hz, Hi. reflexivity.
Qed.

Lemma websocket_JSON_Receive_closed (w : World) (h : nat) (conn : Conn) :
  conns w !! h = Some conn -> closes conn <> 0%nat ->
  websocket_JSON_Receive (Some h) w = Returns (inl closedConn) w.
Proof.
  intros Hc Hz. unfold websocket_JSON_Receive, deref_ws.
  rewrite bind_unfold, Hc. cbn beta iota. destruct (closes conn); [done|reflexivity].
Qed.

Lemma errorSent_field {X} (f : Client -> X) (err : error) (w : World) :
  (forall v c, f (set_Errors v c) = f c) ->
  f (client (errorSent err w)) = f (client w).
Proof. intros Hf. unfold errorSent. destruct (try_send _ _); [apply Hf|done]. Qed.

Lemma errorSent_rest (err : error) (w : World) :
  conns (errorSent err w) = conns w /\ network (errorSent err w) = network w /\
  heap (errorSent err w) = heap w /\ goroutines (errorSent err w) = goroutines w /\
  slept (errorSent err w) = slept w.
Proof. unfold errorSent. by destruct (try_send _ _). Qed.

Lemma frameTaken_field {X} (f : Client -> X) (h : nat) (conn : Conn) (w : World) :
  (forall v c, f (set_activityTimerReset v c) = f c) ->
  f (client (frameTaken h conn w)) = f (client w).
Proof. intros Hf. unfold frameTaken. by rewrite resetRequested_field. Qed.

Lemma frameTaken_conns (h : nat) (conn : Conn) (w : World) :
  conns (frameTaken h conn w) = <[h := received conn]> (conns w).
Proof. unfold frameTaken. by rewrite resetRequested_conns. Qed.

Lemma frameTaken_channels (h : nat) (conn : Conn) (w : World) :
  channels (frameTaken h conn w) = channels w.
Proof.
  unfold channels, frameTaken. by rewrite (resetRequested_field subscribedChannels),
    resetRequested_heap.
Qed.

Lemma frameTaken_boundTo (h : nat) (conn : Conn) (w : World) (e : string) :
  boundTo (frameTaken h conn w) e = boundTo w e.
Proof. unfold boundTo. by rewrite (frameTaken_field boundEvents). Qed.

(** A turn that finds the client disconnected or the session cancelled. *)
Lemma listenTurn_stopped handleEvent meanwhile fuel (w : World) :
  connected (client w) = false \/ done (client w) = Some Closed ->
  listenTurn handleEvent meanwhile fuel w = Returns returns w.
Proof.
  intros H. unfold listenTurn. rewrite bind_getClient.
  destruct (connected (client w)); [|done]. destruct H as [H|H]; [done|]. by rewrite H.
Qed.

(** Up to the receive, a turn lets the other goroutines run. *)
Lemma listenTurn_frame handleEvent meanwhile fuel (w w1 : World) (h : nat) (conn : Conn)
      (event : Event) (rest : list Received) :
  awaits meanwhile w w1 h conn ->
  incoming conn = RecvEvent event :: rest ->
  listenTurn handleEvent meanwhile fuel w = listenEvent handleEvent event (frameTaken h conn w1).
Proof.
  intros (Hc & Hd & Hm & Hw & Hconn & Hz) Hi. unfold listenTurn.
  rewrite bind_getClient, Hc. cbn [negb].
  assert (Hgo : forall (A : Type) (a b : A),
             (if done (client w) is Some Closed then a else b) = b).
  { intros A a b. by destruct (done (client w)) as [[|]|]. }
  rewrite Hgo. rewrite bind_unfold, Hm, bind_getClient, Hw.
  rewrite bind_unfold, (websocket_JSON_Receive_next w1 h conn _ rest Hconn Hz Hi).
  cbn beta iota. by rewrite bind_unfold, resetActivityTimer_resetRequested.
Qed.

Lemma listenTurn_error handleEvent meanwhile fuel (w w1 : World) (h : nat) (conn : Conn)
      (err : error) (rest : list Received) :
  awaits meanwhile w w1 h conn ->
  incoming conn = RecvErr err :: rest ->
  listenTurn handleEvent meanwhile fuel w
  = (let w2 := with_conns (<[h := received conn]> (conns w1)) w1 in
     if negb (connected (client w1)) then Returns returns w2
     else (if isEOF err then attemptReconnect fuel ;; mret returns else mret (goesOn []))
            (errorSent err w2)).
Proof.
  intros (Hc & Hd & Hm & Hw & Hconn & Hz) Hi. unfold listenTurn.
  rewrite bind_getClient, Hc. cbn [negb].
  assert (Hgo : forall (A : Type) (a b : A),
             (if done (client w) is Some Closed then a else b) = b).
  { intros A a b. by destruct (done (client w)) as [[|]|]. }
  rewrite Hgo. rewrite bind_unfold, Hm, bind_getClient, Hw.
  rewrite bind_unfold, (websocket_JSON_Receive_next w1 h conn _ rest Hconn Hz Hi).
  cbn beta iota zeta. rewrite bind_getClient. cbn [client with_conns].
  destruct (connected (client w1)); cbn [negb]; [|done].
  by rewrite bind_unfold, sendError_errorSent.
Qed.

Lemma listenTurn_EOF handleEvent meanwhile fuel (w w1 : World) (h : nat) (conn : Conn) :
  awaits meanwhile w w1 h conn ->
  incoming conn = [] ->
  connected (client w1) = true ->
  listenTurn handleEvent meanwhile fuel w
  = (attemptReconnect fuel ;; mret returns) (errorSent ErrEOF w1).
Proof.
  intros (Hc & Hd & Hm & Hw & Hconn & Hz) Hi Hc1. unfold listenTurn.
  rewrite bind_getClient, Hc. cbn [negb].
  assert (Hgo : forall (A : Type) (a b : A),
             (if done (client w) is Some Closed then a else b) = b).
  { intros A a b. by destruct (done (client w)) as [[|]|]. }
  rewrite Hgo. rewrite bind_unfold, Hm, bind_getClient, Hw.
  rewrite bind_unfold, (websocket_JSON_Receive_EOF w1 h conn Hconn Hz Hi).
  cbn beta iota. rewrite bind_getClient, Hc1. cbn [negb].
  by rewrite bind_unfold, sendError_errorSent.
Qed.

Lemma awaits_frameTaken meanwhile (w w1 : World) (h : nat) (conn : Conn) :
  awaits meanwhile w w1 h conn ->
  ws (client (frameTaken h conn w1)) = Some h /\
  conns (frameTaken h conn w1) !! h = Some (received conn).
Proof.
  intros (_ & _ & _ & Hw & Hconn & _). split.
  - by rewrite (frameTaken_field ws).
  - rewrite frameTaken_conns. apply list_lookup_insert_eq. by eapply lookup_lt_Some.
Qed.

Lemma listenEvent_protocol handleEvent (event : Event) (h : nat) (conn : Conn) (w : World) :
  applicationEvent event = false ->
  ws (client w) = Some h -> conns w !! h = Some conn -> closes conn = 0%nat ->
  listenEvent handleEvent event w
  = Returns (goesOn [])
      (if String.eqb (evEvent event) pusherPing then pingAnswered h w
       else if String.eqb (evEvent event) pusherPong then pongSignalled w
       else errorSent (extractEventError event) w).
Proof.
  intros Happ Hw Hc Hz. unfold listenEvent. rewrite bind_getClient.
  unfold applicationEvent in Happ.
  destruct (String.eqb (evEvent event) pusherPing).
  - unfold websocket_Message_Send, pingAnswered. rewrite Hw, Hc, bind_unfold.
    destruct (writeErr conn) as [err|] eqn:He.
    + by rewrite (websocket_JSON_Send_writeErr _ _ h conn err).
    + by rewrite (websocket_JSON_Send_open _ _ h conn).
  - destruct (String.eqb (evEvent event) pusherPong).
    + rewrite bind_unfold. unfold pongSignalled. by destruct (try_send _ _).
    + destruct (String.eqb (evEvent event) pusherError); [|done].
      by rewrite bind_unfold, sendError_errorSent.
Qed.

(** X16. A [pusher:ping], [pusher:pong] or [pusher:error] frame is
    handled by [listen] itself: the loop goes on, no delivery to a bound
    channel is started and the channel of the frame is not called, even
    when channels are bound to these names.  A ping is answered with one
    pong frame on the connection, and the loop goes on also when that
    write fails; a pong is signalled to the pong waiter without blocking;
    an error frame is reported to the error sink.  In all three cases a
    reset of the activity timer was requested first, and the registry and
    the channel objects are untouched. *)
Theorem listen_handles_protocol_frames_itself :
  forall handleEvent meanwhile fuel (w w1 : World) (h : nat) (conn : Conn)
         (event : Event) (rest : list Received),
    awaits meanwhile w w1 h conn ->
    incoming conn = RecvEvent event :: rest ->
    applicationEvent event = false ->
    let w2 := frameTaken h conn w1 in
    (exists w', listenTurn handleEvent meanwhile fuel w = Returns (goesOn []) w' /\
                channels w' = channels w1 /\
                forall handleEvent',
                  listenTurn handleEvent' meanwhile fuel w = Returns (goesOn []) w') /\
    (evEvent event = pusherPing ->
       exists w', listenTurn handleEvent meanwhile fuel w = Returns (goesOn []) w' /\
                  client w' = client w2 /\
                  conns w' !! h = Some (if writeErr conn is None
                                        then sent pongEvent (received conn)
                                        else received conn)) /\
    (evEvent event = pusherPong ->
       listenTurn handleEvent meanwhile fuel w = Returns (goesOn []) (pongSignalled w2)) /\
    (evEvent event = pusherError ->
       listenTurn handleEvent meanwhile fuel w
       = Returns (goesOn []) (errorSent (extractEventError event) w2)).
Proof.
  intros handleEvent meanwhile fuel w w1 h conn event rest Ha Hi Happ w2.
  destruct (awaits_frameTaken meanwhile w w1 h conn Ha) as (Hw2 & Hc2).
  fold w2 in Hw2, Hc2.
  assert (Hz2 : closes (received conn) = 0%nat) by (destruct Ha as (_ & _ & _ & _ & _ & Hz); exact Hz).
  assert (Hturn : forall handleEvent',
    listenTurn handleEvent' meanwhile fuel w
    = Returns (goesOn [])
        (if String.eqb (evEvent event) pusherPing then pingAnswered h w2
         else if String.eqb (evEvent event) pusherPong then pongSignalled w2
         else errorSent (extractEventError event) w2)).
  { intros handleEvent'. rewrite (listenTurn_frame handleEvent' meanwhile fuel w w1 h conn event rest Ha Hi).
    by apply (listenEvent_protocol handleEvent' event h (received conn)). }
  split; [|split; [|split]].
  - eexists. split; [apply Hturn|]. split; [|apply Hturn].
    rewrite <- (frameTaken_channels h conn w1). fold w2.
    destruct (String.eqb (evEvent event) pusherPing).
    + unfold pingAnswered. rewrite Hc2. by destruct (writeErr (received conn)).
    + destruct (String.eqb (evEvent event) pusherPong).
      * unfold pongSignalled. by destruct (try_send _ _).
      * unfold errorSent. by destruct (try_send _ _).
  - intros He. rewrite Hturn, He. cbn [String.eqb]. rewrite String.eqb_refl.
    eexists. split; [reflexivity|]. unfold pingAnswered. rewrite Hc2.
    change (writeErr (received conn)) with (writeErr conn).
    destruct (writeErr conn); [by split|]. split; [done|].
    cbn [conns with_conns]. apply list_lookup_insert_eq. by eapply lookup_lt_Some.
  - intros He. rewrite Hturn, He. reflexivity.
  - intros He. rewrite Hturn, He. reflexivity.
Qed.

(** A ping on the connection of a connected client. *)
Lemma listen_handles_ping_witness :
  let ping := {| evEvent := "pusher:ping"; evData := Raw (text "'{}'"); evChannel := "" |} in
  let c := set_boundEvents (Some {[ "pusher:ping" := {[ 7%nat ]} ]})
             (set_ws (Some 0%nat) (set_connected true zeroClient)) in
  let w := {| client := c; conns := [serving [RecvEvent ping]]; network := []; heap := [];
              goroutines := []; slept := []; authReplies := [] |} in
  exists w', listenTurn (fun _ _ _ => panic "called") (mret tt) 0 w = Returns (goesOn []) w' /\
             outgoing <$> conns w' !! 0%nat = Some [pongEvent].
Proof.
  intros ping c w.
  assert (Ha : awaits (mret tt) w w 0%nat (serving [RecvEvent ping])).
  { repeat split; try reflexivity. discriminate. }
  destruct (listen_handles_protocol_frames_itself (fun _ _ _ => panic "called") (mret tt) 0%nat
              w w 0%nat (serving [RecvEvent ping]) ping [] Ha eq_refl eq_refl) as (_ & Hping & _).
  destruct (Hping eq_refl) as (w' & H1 & _ & H3).
  exists w'. split; [exact H1|]. by rewrite H3.
Defined.

Lemma listenEvent_application handleEvent (event : Event) (w : World) :
  applicationEvent event = true ->
  listenEvent handleEvent event w
  = (match subscribedChannels (client w) ≫= (.!! evChannel event) with
     | Some subChan => handleEvent subChan (evEvent event) (evData event)
     | None => mret tt
     end ;; mret (goesOn (deliveries w event))) w.
Proof.
  intros Happ. unfold listenEvent. rewrite bind_getClient.
  unfold applicationEvent in Happ.
  destruct (String.eqb (evEvent event) pusherPing); [done|].
  destruct (String.eqb (evEvent event) pusherPong); [done|].
  by destruct (String.eqb (evEvent event) pusherError).
Qed.

Lemma deliveries_frameTaken (h : nat) (conn : Conn) (w : World) (event : Event) :
  deliveries (frameTaken h conn w) event = deliveries w event.
Proof. unfold deliveries. by rewrite frameTaken_boundTo. Qed.

(** X17. For every other event [listen] requests a reset of the activity
    timer and starts one delivery of the event for each channel bound to
    its name at that moment, no more and none twice; it then hands the
    event name and data to the registered channel the frame names, if the
    registry holds one, and the loop goes on.  With no binding and no
    registered channel the frame is consumed and dropped. *)
Theorem listen_dispatches_application_events :
  forall handleEvent meanwhile fuel (w w1 : World) (h : nat) (conn : Conn)
         (event : Event) (rest : list Received),
    awaits meanwhile w w1 h conn ->
    incoming conn = RecvEvent event :: rest ->
    applicationEvent event = true ->
    let w2 := frameTaken h conn w1 in
    (subscribedChannels (client w1) ≫= (.!! evChannel event) = None ->
       listenTurn handleEvent meanwhile fuel w = Returns (goesOn (deliveries w1 event)) w2) /\
    (forall subChan,
       subscribedChannels (client w1) ≫= (.!! evChannel event) = Some subChan ->
       listenTurn handleEvent meanwhile fuel w
       = (handleEvent subChan (evEvent event) (evData event) ;;
          mret (goesOn (deliveries w1 event))) w2) /\
    (forall boundChan e,
       (boundChan, e) ∈ deliveries w1 event
       <-> e = event /\ boundChan ∈ boundTo w1 (evEvent event)) /\
    NoDup (deliveries w1 event) /\
    conns w2 !! h = Some (received conn) /\
    incoming (received conn) = rest /\
    w2 = resetRequested (with_conns (<[h := received conn]> (conns w1)) w1).
Proof.
  intros handleEvent meanwhile fuel w w1 h conn event rest Ha Hi Happ w2.
  subst w2.
  destruct (awaits_frameTaken meanwhile w w1 h conn Ha) as (Hw2 & Hc2).
  rewrite (listenTurn_frame handleEvent meanwhile fuel w w1 h conn event rest Ha Hi).
  rewrite (listenEvent_application handleEvent event _ Happ).
  rewrite (frameTaken_field subscribedChannels) by done.
  rewrite deliveries_frameTaken.
  split; [by intros ->|]. split; [by intros subChan ->|]. split; [|split].
  - intros boundChan e. unfold deliveries. rewrite list_elem_of_fmap. split.
    + intros (b & [= -> ->] & Hb). split; [done|]. by apply elem_of_elements.
    + intros (-> & Hb). exists boundChan. split; [done|]. by apply elem_of_elements.
  - unfold deliveries. apply NoDup_fmap_2_strong; [|apply NoDup_elements].
    by intros a b _ _ [= ->].
  - split; [exact Hc2|]. split; [|reflexivity]. unfold received. cbn. by rewrite Hi.
Qed.

(** An event bound to two channels, on a channel nobody subscribed. *)
Lemma listen_dispatches_witness :
  let foo := {| evEvent := "foo"; evData := Raw (text "'{}'"); evChannel := "my-channel" |} in
  let c := set_boundEvents (Some {[ "foo" := {[ 1%nat; 2%nat ]} ]})
             (set_subscribedChannels (Some ∅)
                (set_ws (Some 0%nat) (set_connected true zeroClient))) in
  let w := {| client := c; conns := [serving [RecvEvent foo]]; network := []; heap := [];
              goroutines := []; slept := []; authReplies := [] |} in
  exists started w',
    listenTurn (fun _ _ _ => panic "called") (mret tt) 0 w = Returns (goesOn started) w' /\
    ((1%nat, foo) ∈ started /\ (2%nat, foo) ∈ started /\ ~ (3%nat, foo) ∈ started).
Proof.
  intros foo c w.
  assert (Ha : awaits (mret tt) w w 0%nat (serving [RecvEvent foo])).
  { repeat split; try reflexivity. discriminate. }
  destruct (listen_dispatches_application_events (fun _ _ _ => panic "called") (mret tt) 0%nat
              w w 0%nat (serving [RecvEvent foo]) foo [] Ha eq_refl eq_refl)
    as (Hnone & _ & Hin & _).
  eexists _, _. split; [exact (Hnone eq_refl)|].
  assert (Hb : boundTo w "foo" = {[ 1%nat; 2%nat ]}) by reflexivity.
  rewrite !Hin. change (evEvent foo) with "foo". rewrite Hb.
  split; [split; [done|]|split; [split; [done|]|intros [_ H3]]].
  - apply elem_of_union_l. by apply elem_of_singleton.
  - apply elem_of_union_r. by apply elem_of_singleton.
  - apply elem_of_union in H3 as [H3|H3]; apply elem_of_singleton in H3; discriminate H3.
Defined.

(** X18. [listen] returns without receiving when it finds the client
    disconnected or the session cancelled.  A receive error on a client
    that was disconnected in the meantime makes it return without a
    report; in particular a [Disconnect] while [listen] waits for a frame
    stops it silently, with no report and no reconnection.  A receive
    error other than EOF on a connected client is reported to the error
    sink and the loop goes on, with no reset of the activity timer. *)
Theorem listen_stops_or_reports_on_errors :
  forall handleEvent meanwhile fuel (w : World),
    (connected (client w) = false \/ done (client w) = Some Closed ->
       listenTurn handleEvent meanwhile fuel w = Returns returns w) /\
    (forall w1 h conn err rest,
       awaits meanwhile w w1 h conn ->
       incoming conn = RecvErr err :: rest ->
       let w2 := with_conns (<[h := received conn]> (conns w1)) w1 in
       (connected (client w1) = false ->
          listenTurn handleEvent meanwhile fuel w = Returns returns w2) /\
       (connected (client w1) = true -> isEOF err = false ->
          listenTurn handleEvent meanwhile fuel w = Returns (goesOn []) (errorSent err w2))) /\
    (forall h conn,
       connected (client w) = true ->
       ws (client w) = Some h ->
       conns w !! h = Some conn ->
       done (client w) <> Some Closed ->
       exists w1,
         Disconnect w = Returns (closeResult conn) w1 /\
         listenTurn handleEvent (Disconnect ;; mret tt) fuel w = Returns returns w1 /\
         Errors (client w1) = Errors (client w) /\
         network w1 = network w /\ slept w1 = slept w).
Proof.
  intros handleEvent meanwhile fuel w. split; [apply listenTurn_stopped|]. split.
  - intros w1 h conn err rest Ha Hi w2.
    rewrite (listenTurn_error handleEvent meanwhile fuel w w1 h conn err rest Ha Hi).
    cbn zeta. fold w2. split.
    + by intros ->.
    + by intros -> ->.
  - intros h conn Hc Hw Hconn Hd.
    pose proof (Disconnect_connected w h conn Hc Hw Hconn Hd) as HD.
    set (w1 := with_conns _ _) in HD.
    assert (Hmean : (Disconnect ;; mret tt) w = Returns tt w1) by (by rewrite bind_unfold, HD).
    exists w1. split; [exact HD|]. split; [|done].
    unfold listenTurn. rewrite bind_getClient, Hc. cbn [negb].
    assert (Hgo : forall (A : Type) (a b : A),
               (if done (client w) is Some Closed then a else b) = b).
    { intros A a b. by destruct (done (client w)) as [[|]|]. }
    rewrite Hgo. rewrite bind_unfold, Hmean. rewrite bind_getClient.
    change (ws (client w1)) with (ws (client w)). rewrite Hw, bind_unfold.
    rewrite (websocket_JSON_Receive_closed w1 h (closedOnce conn)).
    + cbn beta iota. rewrite bind_getClient. reflexivity.
    + unfold w1. cbn [conns with_conns with_client]. apply list_lookup_insert_eq.
      by eapply lookup_lt_Some.
    + done.
Qed.

(** [Disconnect] while [listen] waits on the connection of the session. *)
Lemma listen_stops_witness :
  let c := set_Errors (Some (make 1)) (set_ws (Some 0%nat) (set_connected true zeroClient)) in
  let w := {| client := c; conns := [serving []]; network := [DialOk (serving [])]; heap := [];
              goroutines := []; slept := []; authReplies := [] |} in
  exists w1,
    listenTurn (fun _ _ _ => mret tt) (Disconnect ;; mret tt) 3 w = Returns returns w1 /\
    Errors (client w1) = Some (make 1) /\ network w1 = [DialOk (serving [])].
Proof.
  intros c w.
  destruct (listen_stops_or_reports_on_errors (fun _ _ _ => mret tt) (mret tt) 3%nat w)
    as (_ & _ & H).
  destruct (H 0%nat (serving []) eq_refl eq_refl eq_refl) as (w1 & _ & H2 & H3 & H4 & _).
  - discriminate.
  - exists w1. split; [exact H2|]. split; [exact H3|exact H4].
Defined.

(** ** Reconnection started by [listen] *)

Lemma attemptReconnect_connected (fuel : nat) (w : World) (h : nat) (conn : Conn) :
  connected (client w) = true ->
  ws (client w) = Some h ->
  conns w !! h = Some conn ->
  done (client w) <> Some Closed ->
  attemptReconnect fuel w = reconnectLoop fuel (tornDown h conn w).
Proof.
  intros Hc Hw Hh Hd. unfold attemptReconnect. rewrite bind_getClient, Hc. cbn [negb].
  rewrite bind_unfold, closeDone_open by done. rewrite bind_update.
  unfold ws_Close, deref_ws. rewrite Hw. rewrite !bind_unfold.
  cbn [conns with_client]. rewrite Hh. reflexivity.
Qed.

Lemma errorSent_Errors (err : error) (w : World) :
  Errors (client (errorSent err w)) = offered err (Errors (client w)).
Proof. unfold errorSent, offered. by destruct (try_send _ _). Qed.

Lemma attempted_Errors (w : World) :
  Errors (client (attempted w))
  = offered (ErrAttemptingReconnection (ReconnectDelay (client w))) (Errors (client w)).
Proof.
  unfold attempted, offered. cbn [client with_client with_slept Errors set_ReconnectDelay].
  by destruct (try_send _ _).
Qed.

Lemma sinkAfter_room (errs : list error) (sink : chan error) :
  (pending sink + length errs <= cap sink)%nat ->
  exists sink', sinkAfter errs (Some sink) = Some sink' /\
                buf sink' = buf sink ++ errs /\ cap sink' = cap sink.
Proof.
  revert sink. induction errs as [|err errs IH]; intros sink Hroom.
  - exists sink. by rewrite app_nil_r.
  - cbn [length] in Hroom. unfold sinkAfter. cbn [fold_left]. fold (sinkAfter errs).
    assert (Hlt : (pending sink <? cap sink)%nat = true) by (apply Nat.ltb_lt; lia).
    assert (Hoff : offered err (Some sink)
                   = Some (Mk (cap sink) (buf sink ++ [err]) (receivers sink) (delivered sink))).
    { unfold offered, try_send, can_send, put. by rewrite Hlt. }
    rewrite Hoff.
    destruct (IH (Mk (cap sink) (buf sink ++ [err]) (receivers sink) (delivered sink)))
      as (sink' & H1 & H2 & H3).
    { unfold pending in *. cbn [buf cap]. rewrite length_app. cbn [length]. lia. }
    exists sink'. split; [exact H1|]. cbn [buf cap] in H2, H3.
    split; [by rewrite H2, <- app_assoc|exact H3].
Qed.

Lemma attempted_rest (w : World) :
  conns (attempted w) = conns w /\ goroutines (attempted w) = goroutines w /\
  boundEvents (client (attempted w)) = boundEvents (client w) /\
  subscribedChannels (client (attempted w)) = subscribedChannels (client w).
Proof. unfold attempted. cbn. by destruct (try_send _ _). Qed.

(** A back-off loop whose first attempt is accepted. *)
Lemma reconnectLoop_session (n : nat) (w : World) (event : Event) (conn : Conn)
      (cd : connectionData) :
  firstFrame w event conn ->
  evEvent event = pusherConnEstablished ->
  UnmarshalDataString (evData event) zeroConnData = inr cd ->
  wfRegistry w ->
  exists w',
    reconnectLoop (S n) w = Returns tt w' /\
    connected (client w') = true /\
    ws (client w') = Some (length (conns w)) /\
    done (client w') = Some Open /\
    boundEvents (client w') = Some (default ∅ (boundEvents (client w))) /\
    subscribedChannels (client w') = Some (default ∅ (subscribedChannels (client w))) /\
    goroutines w' = goroutines w ++ [heartbeat; listen] /\
    wires w' = wires w ++ [(0%nat, closeErr conn, writeErr conn)] /\
    slept w' = slept w ++ [ReconnectDelay (client w)] /\
    Errors (client w')
    = sinkAfter [ErrAttemptingReconnection (ReconnectDelay (client w));
                 ErrReconnectionSuccessful] (Errors (client w)).
Proof.
  intros Hff He Hd Hwf. rewrite reconnectLoop_step.
  assert (Hff' : firstFrame (attempted w) event conn).
  { destruct Hff as (rest & more & ? & ? & ?). exists rest, more.
    by rewrite attempted_network. }
  destruct (connectInternal_session (attempted w) event conn cd Hff' He Hd
              (attempted_wfRegistry w Hwf))
    as (w1 & Hrun & H1 & H2 & H3 & H4 & H5 & H6 & H7 & _ & H9).
  rewrite (bind_returns _ _ _ _ _ Hrun), sendError_errorSent.
  destruct (attempted_rest w) as (A1 & A2 & A3 & A4).
  destruct (errorSent_rest ErrReconnectionSuccessful w1) as (E1 & _ & _ & E4 & E5).
  pose proof (loopObs_connectInternal (attempted w)) as Hobs.
  rewrite Hrun in Hobs. unfold final, loopObs in Hobs.
  pose proof (f_equal (fun x => snd (fst x)) Hobs) as Herr. cbn [fst snd] in Herr. clear Hobs.
  eexists. split; [reflexivity|].
  rewrite (errorSent_field connected), (errorSent_field ws), (errorSent_field done),
    (errorSent_field boundEvents), (errorSent_field subscribedChannels) by done.
  rewrite errorSent_Errors, Herr, attempted_Errors.
  rewrite E4, E5. unfold wires at 1. rewrite E1. fold (wires w1).
  rewrite H1, H2, H3, H4, H5, H6, H7, H9, A1, A2, A3, A4, attempted_slept.
  unfold wires. by rewrite A1.
Qed.

(** X19. When the stream of the connection ends (EOF) while the client is
    connected, [listen] reports the error, tears the session down (the
    old connection is closed exactly once) and enters the back-off loop;
    when the server accepts the first new attempt, the loop has slept the
    current delay once, the client is connected again over a new
    connection with a new open done channel and the bindings and registry
    it had, a new [heartbeat] and a new [listen] were started, and the old
    [listen] returns.  The error sink was offered, in this order and each
    without blocking, the EOF, the announcement of the attempt with its
    delay, and the report of the success; a sink with room for the three
    holds them after what it held. *)
Theorem listen_reconnects_on_EOF :
  forall handleEvent meanwhile (n : nat) (w w1 : World) (h : nat) (conn : Conn)
         (event : Event) (conn2 : Conn) (cd : connectionData),
    awaits meanwhile w w1 h conn ->
    incoming conn = [] ->
    connected (client w1) = true ->
    done (client w1) <> Some Closed ->
    firstFrame w1 event conn2 ->
    evEvent event = pusherConnEstablished ->
    UnmarshalDataString (evData event) zeroConnData = inr cd ->
    wfRegistry w1 ->
    exists w',
      listenTurn handleEvent meanwhile (S n) w = Returns returns w' /\
      connected (client w') = true /\
      ws (client w') = Some (length (conns w1)) /\
      done (client w') = Some Open /\
      boundEvents (client w') = Some (default ∅ (boundEvents (client w1))) /\
      subscribedChannels (client w') = Some (default ∅ (subscribedChannels (client w1))) /\
      goroutines w' = goroutines w1 ++ [heartbeat; listen] /\
      slept w' = slept w1 ++ [ReconnectDelay (client w1)] /\
      wires w' = <[h := (1%nat, closeErr conn, writeErr conn)]> (wires w1)
                 ++ [(0%nat, closeErr conn2, writeErr conn2)] /\
      let reports := [ErrEOF; ErrAttemptingReconnection (ReconnectDelay (client w1));
                      ErrReconnectionSuccessful] in
      Errors (client w') = sinkAfter reports (Errors (client w1)) /\
      (forall sink,
         Errors (client w1) = Some sink -> (pending sink + 3 <= cap sink)%nat ->
         exists sink', Errors (client w') = Some sink' /\ buf sink' = buf sink ++ reports).
Proof.
  intros handleEvent meanwhile n w w1 h conn event conn2 cd Ha Hi Hc1 Hd1 Hff He Hdec Hwf.
  rewrite (listenTurn_EOF handleEvent meanwhile (S n) w w1 h conn Ha Hi Hc1).
  destruct Ha as (_ & _ & _ & Hw & Hconn & Hz).
  set (w2 := errorSent ErrEOF w1).
  destruct (errorSent_rest ErrEOF w1) as (E1 & E2 & E3 & E4 & E5). fold w2 in E1, E2, E3, E4, E5.
  assert (F1 : connected (client w2) = true) by (unfold w2; by rewrite (errorSent_field connected)).
  assert (F2 : ws (client w2) = Some h) by (unfold w2; by rewrite (errorSent_field ws)).
  assert (F3 : done (client w2) = done (client w1))
    by (unfold w2; by rewrite (errorSent_field done)).
  assert (F4 : boundEvents (client w2) = boundEvents (client w1))
    by (unfold w2; by rewrite (errorSent_field boundEvents)).
  assert (F5 : subscribedChannels (client w2) = subscribedChannels (client w1))
    by (unfold w2; by rewrite (errorSent_field subscribedChannels)).
  assert (F6 : ReconnectDelay (client w2) = ReconnectDelay (client w1))
    by (unfold w2; by rewrite (errorSent_field ReconnectDelay)).
  rewrite bind_unfold.
  rewrite (attemptReconnect_connected (S n) w2 h conn F1 F2) by (by rewrite ?E1, ?F3).
  set (w3 := tornDown h conn w2).
  assert (Hff3 : firstFrame w3 event conn2).
  { destruct Hff as (rest & more & Hn & ? & ?). exists rest, more.
    split; [|done]. change (network w3) with (network w2). by rewrite E2. }
  assert (Hwf3 : wfRegistry w3).
  { intros m name l Hm Hl. change (heap w3) with (heap w2). rewrite E3.
    change (subscribedChannels (client w3)) with (subscribedChannels (client w2)) in Hm.
    rewrite F5 in Hm. by eapply Hwf. }
  destruct (reconnectLoop_session n w3 event conn2 cd Hff3 He Hdec Hwf3)
    as (w' & Hrun & H1 & H2 & H3 & H4 & H5 & H6 & H7 & H8 & H9).
  rewrite Hrun. exists w'. split; [reflexivity|].
  assert (Hsink : Errors (client w')
                  = sinkAfter [ErrEOF; ErrAttemptingReconnection (ReconnectDelay (client w1));
                               ErrReconnectionSuccessful] (Errors (client w1))).
  { rewrite H9. change (ReconnectDelay (client w3)) with (ReconnectDelay (client w2)).
    change (Errors (client w3)) with (Errors (client w2)).
    rewrite F6. unfold w2. by rewrite errorSent_Errors. }
  change (boundEvents (client w3)) with (boundEvents (client w2)) in H4.
  change (subscribedChannels (client w3)) with (subscribedChannels (client w2)) in H5.
  change (goroutines w3) with (goroutines w2) in H6.
  change (slept w3) with (slept w2) in H8.
  change (ReconnectDelay (client w3)) with (ReconnectDelay (client w2)) in H8.
  change (conns w3) with (<[h := closedOnce conn]> (conns w2)) in H2.
  rewrite length_insert, E1 in H2.
  rewrite F4 in H4. rewrite F5 in H5. rewrite E4 in H6. rewrite E5, F6 in H8.
  repeat (split; [assumption|]).
  split; [|split; [exact Hsink|]].
  - rewrite H7. f_equal. unfold wires.
    change (conns w3) with (<[h := closedOnce conn]> (conns w2)).
    rewrite E1, list_fmap_insert. cbn [closedOnce closes closeErr writeErr]. by rewrite Hz.
  - intros sink Hs Hroom. rewrite Hsink, Hs.
    destruct (sinkAfter_room [ErrEOF; ErrAttemptingReconnection (ReconnectDelay (client w1));
                              ErrReconnectionSuccessful] sink Hroom) as (sink' & Hs1 & Hs2 & _).
    by exists sink'.
Qed.

(** The peer ends the stream of a session; the server accepts the next
    dial. *)
Lemma listen_reconnects_witness :
  let c := set_Errors (Some (make 3))
             (set_ReconnectDelay (1 * Time.Second)
                (set_done (Some Open) (set_ws (Some 0%nat) (set_connected true zeroClient)))) in
  let event := {| evEvent := pusherConnEstablished;
                  evData := Raw (text "'{\'socket_id\':\'bar\',\'activity_timeout\':120}'");
                  evChannel := "" |} in
  let w := {| client := c; conns := [serving []]; network := [DialOk (serving [RecvEvent event])];
              heap := []; goroutines := [heartbeat; listen]; slept := []; authReplies := [] |} in
  exists w',
    listenTurn (fun _ _ _ => mret tt) (mret tt) 1 w = Returns returns w' /\
    connected (client w') = true /\ ws (client w') = Some 1%nat /\
    goroutines w' = [heartbeat; listen; heartbeat; listen] /\
    slept w' = [1 * Time.Second] /\
    exists sink, Errors (client w') = Some sink /\
                 buf sink = [ErrEOF; ErrAttemptingReconnection (1 * Time.Second);
                             ErrReconnectionSuccessful].
Proof.
  intros c event w.
  assert (Ha : awaits (mret tt) w w 0%nat (serving [])).
  { repeat split; try reflexivity. discriminate. }
  destruct (listen_reconnects_on_EOF (fun _ _ _ => mret tt) (mret tt) 0%nat w w 0%nat (serving [])
              event (serving [RecvEvent event]) {| SocketID := "bar"; ActivityTimeout := 120 |}
              Ha eq_refl eq_refl)
    as (w' & H1 & H2 & H3 & _ & _ & _ & H7 & H8 & _ & _ & H11).
  - discriminate.
  - by exists [], [].
  - reflexivity.
  - reflexivity.
  - intros m name l Hm. discriminate Hm.
  - exists w'. do 5 (split; [assumption|]).
    apply (H11 (make 3) eq_refl). unfold pending. simpl. lia.
Defined.

(** ** The connection URL *)

Lemma append_assoc (a b c : string) : (a +:+ b) +:+ c = a +:+ b +:+ c.
Proof.
  induction a as [|x a IH]; [reflexivity|].
  change (String x ((a +:+ b) +:+ c) = String x (a +:+ b +:+ c)). by rewrite IH.
Qed.

(** X20. The URL [generateConnURL] builds is
    [scheme://host:port/app/appKey?protocol=7].  The scheme is [wss], or
    [ws] on an insecure client.  The host is the override host when one
    is set, whatever the cluster is; otherwise [ws-CLUSTER.pusher.com]
    when a cluster is set, and [ws.pusherapp.com] when none is.  The port
    is the override port when it is not 0, whatever the scheme is, printed
    as it is with no check of its range; otherwise 443, or 80 on an
    insecure client. *)
Theorem generateConnURL_defaults_and_overrides :
  forall (cluster : string) (insecure : bool) (host : string) (port : Z) (appKey : string),
    let c := {| Cluster := cluster; Insecure := insecure;
                OverrideHost := host; OverridePort := port |} in
    let scheme := if insecure then "ws" else "wss" in
    let defaultPort := if insecure then "80" else "443" in
    let path := "/app/" +:+ appKey +:+ "?protocol=7" in
    (host = "" -> cluster = "" -> port = 0 ->
       generateConnURL c appKey
       = scheme +:+ "://ws.pusherapp.com:" +:+ defaultPort +:+ path) /\
    (host = "" -> cluster <> "" -> port = 0 ->
       generateConnURL c appKey
       = scheme +:+ "://ws-" +:+ cluster +:+ ".pusher.com:" +:+ defaultPort +:+ path) /\
    (host <> "" -> port = 0 ->
       generateConnURL c appKey
       = scheme +:+ "://" +:+ host +:+ ":" +:+ defaultPort +:+ path) /\
    (host = "" -> cluster = "" -> port <> 0 ->
       generateConnURL c appKey
       = scheme +:+ "://ws.pusherapp.com:" +:+ pretty port +:+ path) /\
    (host = "" -> cluster <> "" -> port <> 0 ->
       generateConnURL c appKey
       = scheme +:+ "://ws-" +:+ cluster +:+ ".pusher.com:" +:+ pretty port +:+ path) /\
    (host <> "" -> port <> 0 ->
       generateConnURL c appKey
       = scheme +:+ "://" +:+ host +:+ ":" +:+ pretty port +:+ path).
Proof.
  intros cluster insecure host port appKey c scheme defaultPort path.
  unfold generateConnURL, c, connScheme, connHost, connPort, scheme, defaultPort, path.
  cbn [Cluster Insecure OverrideHost OverridePort].
  split; [|split; [|split; [|split; [|split]]]].
  - intros -> -> ->. by destruct insecure.
  - intros -> Hc ->. apply String.eqb_neq in Hc. rewrite Hc. cbn [negb String.eqb Z.eqb].
    destruct insecure; cbn [insecureScheme secureScheme insecurePort securePort];
      by rewrite !append_assoc.
  - intros Hh ->. apply String.eqb_neq in Hh. rewrite Hh. cbn [negb Z.eqb].
    by destruct insecure.
  - intros -> -> Hp. apply Z.eqb_neq in Hp. rewrite Hp. by destruct insecure.
  - intros -> Hc Hp. apply String.eqb_neq in Hc. apply Z.eqb_neq in Hp. rewrite Hc, Hp.
    cbn [negb String.eqb].
    destruct insecure; cbn [insecureScheme secureScheme]; by rewrite !append_assoc.
  - intros Hh Hp. apply String.eqb_neq in Hh. apply Z.eqb_neq in Hp. rewrite Hh, Hp.
    by destruct insecure.
Qed.

(** The three configurations of the URL test, and an override port that
    is no port number. *)
Lemma generateConnURL_witness :
  generateConnURL {| Cluster := ""; Insecure := false; OverrideHost := ""; OverridePort := 0 |} "foo"
  = "wss://ws.pusherapp.com:443/app/foo?protocol=7" /\
  generateConnURL {| Cluster := "bar"; Insecure := true; OverrideHost := ""; OverridePort := 0 |} "foo"
  = "ws://ws-bar.pusher.com:80/app/foo?protocol=7" /\
  generateConnURL {| Cluster := "bar"; Insecure := false; OverrideHost := "foo.bar";
                     OverridePort := 1234 |} ""
  = "wss://foo.bar:1234/app/?protocol=7" /\
  generateConnURL {| Cluster := ""; Insecure := true; OverrideHost := "foo.bar";
                     OverridePort := -1 |} "key"
  = "ws://foo.bar:-1/app/key?protocol=7".
Proof.
  split; [|split; [|split]].
  - exact (proj1 (generateConnURL_defaults_and_overrides "" false "" 0 "foo")
             eq_refl eq_refl eq_refl).
  - refine (proj1 (proj2 (generateConnURL_defaults_and_overrides "bar" true "" 0 "foo"))
              eq_refl _ eq_refl). discriminate.
  - rewrite (proj2 (proj2 (proj2 (proj2 (proj2 (generateConnURL_defaults_and_overrides
                                    "bar" false "foo.bar" 1234 "")))))) by discriminate.
    reflexivity.
  - rewrite (proj2 (proj2 (proj2 (proj2 (proj2 (generateConnURL_defaults_and_overrides
                                    "" true "foo.bar" (-1) "key")))))) by discriminate.
    reflexivity.
Defined.
